(** * multi-restic: script generation, cron scheduling and the check workflow

    A shallow embedding of the parts of [multi_restic] that generate the
    per-repository secret files and the backup script
    ([generate_script.py]), manage the crontab block ([schedule.py]) and probe
    the agents ([__init__.py], command [check]), with the properties of the
    specification stated over them.

    Python [str] values are Rocq [string]s: a character is a code point, and
    the model covers the code points below 256. *)

From Stdlib Require Import Ascii String NArith ZArith Bool List Lia.
From stdpp Require Import base option list gmap strings.

Local Open Scope N_scope.

(** ** The [str] methods used by the program *)

Module Str.

(** The line feed, the double quote, and one-character strings. *)
Definition LF : ascii := "010"%char.
Definition CR : ascii := "013"%char.
Definition DQUOTE : ascii := "034"%char.
Definition char (c : ascii) : string := String c EmptyString.
Definition nl : string := char LF.

(** [c.isspace()]: the whitespace code points below 256 are U+0009..U+000D,
    U+001C..U+0020, U+0085 and U+00A0. *)
Definition is_space (c : ascii) : bool :=
  let n := N_of_ascii c in
  ((9 <=? n) && (n <=? 13)) || ((28 <=? n) && (n <=? 32))
  || (n =? 133) || (n =? 160).

(** The line boundaries of [str.splitlines] below 256: LF, VT, FF, CR,
    FS, GS, RS and NEL. *)
Definition is_linebreak (c : ascii) : bool :=
  let n := N_of_ascii c in
  ((10 <=? n) && (n <=? 13)) || ((28 <=? n) && (n <=? 30)) || (n =? 133).

(** [s.rstrip()], [s.lstrip()] and [s.strip()] without argument. *)
Fixpoint rstrip (s : string) : string :=
  match s with
  | EmptyString => EmptyString
  | String c r =>
      match rstrip r with
      | EmptyString => if is_space c then EmptyString else char c
      | r' => String c r'
      end
  end.

Fixpoint lstrip (s : string) : string :=
  match s with
  | EmptyString => EmptyString
  | String c r => if is_space c then lstrip r else s
  end.

Definition strip (s : string) : string := lstrip (rstrip s).

(** [s.startswith(p)]. *)
Fixpoint startswith (p s : string) : bool :=
  match p, s with
  | EmptyString, _ => true
  | String _ _, EmptyString => false
  | String a p', String b s' => if Ascii.eqb a b then startswith p' s' else false
  end.

(** [needle in hay]. *)
Fixpoint contains (needle hay : string) : bool :=
  startswith needle hay ||
  match hay with
  | EmptyString => false
  | String _ r => contains needle r
  end.

(** [s.splitlines()]: a CR LF pair is one boundary, the boundaries are
    dropped, and a final boundary opens no further line. *)
Fixpoint splitlines (s : string) : list string :=
  match s with
  | EmptyString => []
  | String c r =>
      if is_linebreak c then
        match r with
        | String c' r' =>
            if Ascii.eqb c CR && Ascii.eqb c' LF
            then EmptyString :: splitlines r'
            else EmptyString :: splitlines r
        | EmptyString => [EmptyString]
        end
      else
        match splitlines r with
        | [] => [char c]
        | l :: ls => String c l :: ls
        end
  end.

(** [s.split(sep)] for a separator of one character: never empty. *)
Fixpoint split (sep : ascii) (s : string) : list string :=
  match s with
  | EmptyString => [EmptyString]
  | String c r =>
      if Ascii.eqb c sep then EmptyString :: split sep r
      else
        match split sep r with
        | [] => [char c]
        | w :: ws => String c w :: ws
        end
  end.

(** [sep.join(parts)]. *)
Fixpoint join (sep : string) (parts : list string) : string :=
  match parts with
  | [] => EmptyString
  | [x] => x
  | x :: xs => x +:+ sep +:+ join sep xs
  end.

(** The text of [lines], each followed by a line feed: what the loop
    [text += line + LF] builds. *)
Fixpoint unlines (lines : list string) : string :=
  match lines with
  | [] => EmptyString
  | l :: ls => l +:+ nl +:+ unlines ls
  end.

(** [str(v)] for an [Optional[str]]. *)
Definition str_of_optional (v : option string) : string :=
  match v with
  | Some s => s
  | None => "None"
  end.

End Str.

(** ** The configuration records ([types.py]) *)

(** [RepositoryConfig]. [forget_arguments] is [Optional[str]]. *)
Record RepositoryConfig := {
  endpoint : string;
  env_vars : list string;
  forget_arguments : option string
}.

(** [AgentConfig]. [repositories] is a [dict]: its items in insertion
    order. The optional keys are read with [agent.get(key, default)]. *)
Record AgentConfig := {
  ip : string;
  ssh_port : option string;
  ssh_user : option string;
  install_location : option string;
  scheduler : option string;
  backup_root : string;
  to_backup : list string;
  repositories : list (string * RepositoryConfig);
  pre_command : option (list string);
  post_command : option (list string)
}.

(** [agent.get("install_location", "/opt/multi-restic")]. *)
Definition get_install_location (agent : AgentConfig) : string :=
  default "/opt/multi-restic" (install_location agent).

(** Truth value of an [Optional[str]] and of an optional list. *)
Definition truthy_str (v : option string) : bool :=
  match v with
  | Some (String _ _) => true
  | _ => false
  end.

Definition truthy_list {A} (v : option (list A)) : bool :=
  match v with
  | Some (_ :: _) => true
  | _ => false
  end.

(** What the generator reads besides the configuration: the values of the
    [.env] file ([dotenv_values()], a [dict[str, Optional[str]]]) and the
    clock ([datetime.now().isoformat()]). *)
Record World := {
  env_values : gmap string (option string);
  now_isoformat : string
}.

(** ** [generate_script.py] *)

Module GenerateScript.

Import Str.

(** A computation that may raise [KeyError]. *)
Inductive result (A : Type) : Type :=
| Ok (a : A)
| KeyError (key : string).
Arguments Ok {A} a.
Arguments KeyError {A} key.

#[global] Instance result_bind : MBind result := fun A B k m =>
  match m with
  | Ok a => k a
  | KeyError key => KeyError key
  end.

(** [env_values[key]]. *)
Definition getitem (values : gmap string (option string)) (key : string)
  : result (option string) :=
  match values !! key with
  | Some v => Ok v
  | None => KeyError key
  end.

(** The body of the loop over [env_vars]: the text appended to the secret
    file for one directive. *)
Definition export_line (values : gmap string (option string)) (env_var : string)
  : result string :=
  match split ":" env_var with
  | [] => Ok EmptyString
  | prefix :: rest =>
      if String.eqb prefix "plain" then
        let value := join ":" rest in
        Ok ("export " +:+ value +:+ nl)
      else if String.eqb prefix "env" then
        match rest with
        | [src] =>
            v ← getitem values src;
            Ok ("export " +:+ src +:+ "=" +:+ str_of_optional v +:+ nl)
        | [src; dst] =>
            v ← getitem values src;
            Ok ("export " +:+ dst +:+ "=" +:+ str_of_optional v +:+ nl)
        | _ => Ok EmptyString
        end
      else Ok EmptyString
  end.

(** The loop over [env_vars], appending to the text built so far. *)
Fixpoint export_lines (values : gmap string (option string))
    (text : string) (vars : list string) : result string :=
  match vars with
  | [] => Ok text
  | env_var :: vars' =>
      l ← export_line values env_var;
      export_lines values (text +:+ l) vars'
  end.

(** The secret file of one repository. *)
Definition env_file (values : gmap string (option string))
    (repo_name : string) (repo : RepositoryConfig) : result string :=
  let text := "# Environment variables for repository " +:+ repo_name +:+ nl in
  let text := text +:+ "export RESTIC_REPOSITORY=" +:+ endpoint repo +:+ nl in
  export_lines values text (env_vars repo).

(** The loop over the repositories, filling the dictionary [env_files]. *)
Fixpoint env_files_loop (values : gmap string (option string))
    (env_files : gmap string string) (repos : list (string * RepositoryConfig))
  : result (gmap string string) :=
  match repos with
  | [] => Ok env_files
  | (repo_name, repo) :: repos' =>
      text ← env_file values repo_name repo;
      env_files_loop values (<[repo_name := text]> env_files) repos'
  end.

Definition generate_env_files (w : World) (agent : AgentConfig)
  : result (gmap string string) :=
  env_files_loop (env_values w) ∅ (repositories agent).

(** The backup step and the retention step of a repository block. *)
Definition backup_step (agent : AgentConfig) : string :=
  "restic backup " +:+ join " " (to_backup agent) +:+ nl.

Definition forget_step (args : string) : string :=
  "restic forget " +:+ args +:+ " --prune" +:+ nl.

Definition start_marker (repo_name : string) : string :=
  "# START " +:+ repo_name +:+ nl.

Definition end_marker (repo_name : string) : string :=
  "# END " +:+ repo_name +:+ nl.

Definition source_step (agent : AgentConfig) (repo_name : string) : string :=
  "source " +:+ get_install_location agent +:+ "/.env." +:+ repo_name +:+ nl.

Definition init_step : string :=
  "if ! restic cat config >/dev/null 2>&1; then" +:+ nl +:+
  "    # Restic automatically does `mkdir -p` if necessary" +:+ nl +:+
  "    restic init" +:+ nl +:+
  "fi" +:+ nl.

Definition generate_repository_script (agent : AgentConfig)
    (repo_name : string) (repo : RepositoryConfig) : string :=
  let script :=
    start_marker repo_name +:+
    source_step agent repo_name +:+
    nl +:+
    init_step +:+
    nl +:+
    backup_step agent in
  let script :=
    if truthy_str (forget_arguments repo)
    then script +:+ forget_step (str_of_optional (forget_arguments repo))
    else script in
  script +:+ end_marker repo_name.

(** The commands joined by [" && "], or the empty text when the list is
    missing or empty. *)
Definition joined_commands (commands : option (list string)) : string :=
  if truthy_list commands then join " && " (default [] commands) else EmptyString.

(** The blocks of [generate_repository_script] for the items of
    [repositories], joined by the empty text. *)
Definition repository_scripts (agent : AgentConfig) : string :=
  join EmptyString
    (map (fun '(repo_name, repo) => generate_repository_script agent repo_name repo)
         (repositories agent)).

(** [Template(...).substitute(...)]: the fixed template with its six
    placeholders filled in, [$$] standing for a dollar sign. *)
Definition generate_script (w : World) (agent : AgentConfig) : string :=
  "#!/bin/bash -e" +:+ nl +:+
  "# Generated on " +:+ now_isoformat w +:+ " by multi-restic" +:+ nl +:+
  nl +:+
  "export PATH=" +:+ get_install_location agent +:+ ":$PATH" +:+ nl +:+
  "cd " +:+ backup_root agent +:+ nl +:+
  nl +:+
  "# Pre-backup commands" +:+ nl +:+
  joined_commands (pre_command agent) +:+ nl +:+
  nl +:+
  repository_scripts agent +:+ nl +:+
  "# Post-backup commands" +:+ nl +:+
  joined_commands (post_command agent) +:+ nl.

End GenerateScript.

(** ** [schedule.py]: the cron scheduler *)

Module Schedule.

Import Str.

(** *** The agent's host, as far as the crontab commands go

    The host keeps one crontab text. [crontab_accepts] is the check that
    [crontab -] makes on a new text before installing it. *)
Record Remote := {
  crontab : string;
  crontab_accepts : string -> bool
}.

(** What [exec_command] hands back: the exit status and the standard
    output. *)
Record reply := {
  exit_status : Z;
  stdout : string
}.

(** Inside double quotes the shell rewrites a word only at the characters
    double quote, dollar, backquote and backslash; [echo] prints its argument
    and a line feed unless the argument reads as an option. [echo_literal]
    holds of the texts that reach [crontab -] unchanged. *)
Definition shell_special (c : ascii) : bool :=
  Ascii.eqb c DQUOTE || Ascii.eqb c "$" || Ascii.eqb c "`" || Ascii.eqb c "\".

Fixpoint no_shell_special (s : string) : bool :=
  match s with
  | EmptyString => true
  | String c r => negb (shell_special c) && no_shell_special r
  end.

Definition echo_literal (s : string) : bool :=
  no_shell_special s && negb (startswith "-" s).

(** [s.removeprefix(p)] and [s.removesuffix(p)], when the affix is there. *)
Fixpoint strip_prefix (p s : string) : option string :=
  match p, s with
  | EmptyString, _ => Some s
  | String _ _, EmptyString => None
  | String a p', String b s' => if Ascii.eqb a b then strip_prefix p' s' else None
  end.

Definition strip_suffix (p s : string) : option string :=
  String.rev <$> strip_prefix (String.rev p) (String.rev s).

(** The text between the quotes of [echo "<text>" | crontab -]. *)
Definition installed_text (command : string) : option string :=
  rest ← strip_prefix ("echo " +:+ char DQUOTE) command;
  strip_suffix (char DQUOTE +:+ " | crontab -") rest.

(** [client.exec_command(command)] on this host. [crontab -l] prints the
    crontab; [echo "<text>" | crontab -] installs the text and a line feed
    when [crontab] accepts it, and fails with status 1 otherwise. [None]: the
    command is outside the part of the shell that is modelled. *)
Definition exec_command (command : string) (r : Remote) : option (reply * Remote) :=
  if String.eqb command "crontab -l 2>/dev/null" then
    Some ({| exit_status := 0; stdout := crontab r |}, r)
  else
    match installed_text command with
    | Some text =>
        if echo_literal text then
          let new := text +:+ nl in
          if crontab_accepts r new
          then Some ({| exit_status := 0; stdout := EmptyString |},
                     {| crontab := new; crontab_accepts := crontab_accepts r |})
          else Some ({| exit_status := 1; stdout := EmptyString |}, r)
        else None
    | None => None
    end.

(** *** [CronScheduler] *)

(** How a scheduler method ends. *)
Inductive outcome : Type :=
| Returned
| RuntimeError (message : string).

Definition cron_command (agent : AgentConfig) : string :=
  let install_location := get_install_location agent in
  "0 2 * * * " +:+ install_location +:+ "/backup.sh >> " +:+
  install_location +:+ "/backup.log 2>&1".

Definition add_schedule (agent : AgentConfig) (r : Remote)
  : option (outcome * Remote) :=
  '(out, r) ← exec_command "crontab -l 2>/dev/null" r;
  let crontab_contents := stdout out in
  let crontab_contents :=
    crontab_contents +:+
    "# -- multi-restic -- (do not remove this comment!)" +:+ nl +:+
    cron_command agent in
  '(out, r) ← exec_command
     ("echo " +:+ char DQUOTE +:+ crontab_contents +:+ char DQUOTE +:+ " | crontab -") r;
  let exit_code := exit_status out in
  if negb (exit_code =? 0)%Z
  then Some (RuntimeError "Failed to update crontab", r)
  else Some (Returned, r).

(** One turn of the loop over the lines: the state is [new_crontab] and
    [delete_next]. *)
Definition remove_step (state : string * bool) (line : string) : string * bool :=
  let '(new_crontab, delete_next) := state in
  if contains "# -- multi-restic --" (strip line) then (new_crontab, true)
  else if delete_next then (new_crontab, false)
  else (new_crontab +:+ line +:+ nl, false).

Definition remove_schedule (agent : AgentConfig) (r : Remote)
  : option (outcome * Remote) :=
  '(out, r) ← exec_command "crontab -l 2>/dev/null" r;
  let crontab_contents := stdout out in
  let '(new_crontab, _) :=
    fold_left remove_step (splitlines crontab_contents) (EmptyString, false) in
  '(out, r) ← exec_command
     ("echo " +:+ char DQUOTE +:+ rstrip new_crontab +:+ char DQUOTE +:+ " | crontab -") r;
  let exit_code := exit_status out in
  if negb (exit_code =? 0)%Z
  then Some (RuntimeError "Failed to update crontab", r)
  else Some (Returned, r).

End Schedule.

(** ** [__init__.py]: the [check] command *)

Module Check.

Import Str.

(** What a remote command gives back to [exec_command]: its exit status and
    its standard output, or an exception of the transport. *)
Inductive reply : Type :=
| Exit (status : Z) (out : string)
| Raise.

(** A connected agent answers commands; [check] changes nothing on it. *)
Definition Host : Type := string -> reply.

(** The lines that [check] logs. *)
Inductive message : Type :=
| CheckingAgents
| Connected (agent_name ip port user : string)
| AlreadyInstalled
| NotInstalled (agent_name : string)
| CrontabAvailable
| CrontabUnavailable
| ResticInPath (version : string)
| ResticInInstallFolder (version : string)
| ResticUnavailable (install_location : string)
| BackupRootExists (backup_root : string)
| BackupRootMissing (backup_root : string)
| PathExists (path : string)
| PathMissing (path : string)
| FailedToConnect (agent_name : string).

(** What an observer of a run sees, in order: the commands sent to the
    agent and the lines logged. *)
Inductive event : Type :=
| Exec (command : string)
| Log (m : message).

(** The body of the [with connect_ssh(...) as client] block runs against one
    host and appends to the events; [None] is a raised exception. *)
Definition Session (A : Type) : Type := Host -> list event -> option A * list event.

Definition ret {A} (a : A) : Session A := fun _ evs => (Some a, evs).

Definition bind {A B} (m : Session A) (k : A -> Session B) : Session B :=
  fun host evs =>
    match m host evs with
    | (Some a, evs') => k a host evs'
    | (None, evs') => (None, evs')
    end.

Notation "'let*' x := m 'in' k" := (bind m (fun x => k))
  (at level 10, x pattern, m at level 200, k at level 200).

Definition info (m : message) : Session unit :=
  fun _ evs => (Some tt, evs ++ [Log m]).

(** [client.exec_command(command)] followed by
    [stdout.channel.recv_exit_status()] and [stdout.read().decode()]. *)
Definition exec_command (command : string) : Session (Z * string) :=
  fun host evs =>
    match host command with
    | Exit status out => (Some (status, out), evs ++ [Exec command])
    | Raise => (None, evs ++ [Exec command])
    end.

(** [util.exec_cmd]. *)
Definition exec_cmd (command : string) : Session bool :=
  let* (exit_code, _) := exec_command command in
  ret (exit_code =? 0)%Z.

(** The loop over [to_backup]. *)
Fixpoint check_paths (backup_root : string) (items : list string) : Session unit :=
  match items with
  | [] => ret tt
  | item :: items' =>
      let path := backup_root +:+ "/" +:+ item in
      let* found := exec_cmd ("test -e " +:+ path) in
      let* _ := info (if found then PathExists path else PathMissing path) in
      check_paths backup_root items'
  end.

(** The body of the [with] block for one agent. *)
Definition check_session (agent_name : string) (agent_data : AgentConfig)
  : Session unit :=
  let install_location := get_install_location agent_data in
  let* _ := info (Connected agent_name (ip agent_data)
                  (default "22" (ssh_port agent_data))
                  (default "root" (ssh_user agent_data))) in
  let* installed := exec_cmd ("ls " +:+ install_location +:+ "/backup.sh") in
  let* _ := info (if installed then AlreadyInstalled else NotInstalled agent_name) in
  let* has_crontab := exec_cmd "crontab -l" in
  let* _ := info (if has_crontab then CrontabAvailable else CrontabUnavailable) in
  let* (status, out) := exec_command (install_location +:+ "/restic version") in
  let* _ :=
    (if (status =? 0)%Z then info (ResticInPath (strip out))
     else
       let* (status, out) := exec_command (install_location +:+ "/restic version") in
       if (status =? 0)%Z then info (ResticInInstallFolder (strip out))
       else info (ResticUnavailable install_location)) in
  let* root_exists := exec_cmd ("test -e " +:+ backup_root agent_data) in
  if root_exists then
    let* _ := info (BackupRootExists (backup_root agent_data)) in
    check_paths (backup_root agent_data) (to_backup agent_data)
  else
    (* continue: no point in checking further *)
    info (BackupRootMissing (backup_root agent_data)).

(** One turn of the loop over the agents: [try] ... [except Exception]. *)
Definition check_agent (connect_ssh : AgentConfig -> option Host)
    (agent_name : string) (agent_data : AgentConfig) : list event :=
  match connect_ssh agent_data with
  | None => [Log (FailedToConnect agent_name)]
  | Some host =>
      match check_session agent_name agent_data host [] with
      | (Some _, evs) => evs
      | (None, evs) => evs ++ [Log (FailedToConnect agent_name)]
      end
  end.

Fixpoint check_agents (connect_ssh : AgentConfig -> option Host)
    (agents : list (string * AgentConfig)) : list event :=
  match agents with
  | [] => []
  | (agent_name, agent_data) :: agents' =>
      check_agent connect_ssh agent_name agent_data
      ++ check_agents connect_ssh agents'
  end.

Definition check (connect_ssh : AgentConfig -> option Host)
    (agents : list (string * AgentConfig)) : list event :=
  Log CheckingAgents :: check_agents connect_ssh agents.

End Check.

(** ** Vocabulary of the properties *)

Module Directive.

Import Str.

(** [has_char c s]: the character [c] occurs in [s]. *)
Fixpoint has_char (c : ascii) (s : string) : bool :=
  match s with
  | EmptyString => false
  | String a r => Ascii.eqb a c || has_char c r
  end.

(** The three forms of directive that the specification names:
    [plain:<LITERAL>], [env:<SRC>] and [env:<SRC>:<DST>]. *)
Inductive directive : Type :=
| Plain (literal : string)
| Env (src : string)
| EnvAs (src dst : string).

Definition directive_text (d : directive) : string :=
  match d with
  | Plain literal => "plain:" +:+ literal
  | Env src => "env:" +:+ src
  | EnvAs src dst => "env:" +:+ src +:+ ":" +:+ dst
  end.

(** The names of an [env:] directive hold no colon. *)
Definition well_formed (d : directive) : Prop :=
  match d with
  | Plain _ => True
  | Env src => has_char ":" src = false
  | EnvAs src dst => has_char ":" src = false /\ has_char ":" dst = false
  end.

(** The source of an [env:] directive is bound to a string in the secret
    source. *)
Definition resolves (values : gmap string (option string)) (d : directive) : Prop :=
  match d with
  | Plain _ => True
  | Env src | EnvAs src _ => exists v, values !! src = Some (Some v)
  end.

Definition resolved (values : gmap string (option string)) (src : string) : string :=
  match values !! src with
  | Some (Some v) => v
  | _ => EmptyString
  end.

(** The line of the secret file that the specification gives for a
    directive. *)
Definition expected_line (values : gmap string (option string)) (d : directive)
  : string :=
  match d with
  | Plain literal => "export " +:+ literal +:+ nl
  | Env src => "export " +:+ src +:+ "=" +:+ resolved values src +:+ nl
  | EnvAs src dst => "export " +:+ dst +:+ "=" +:+ resolved values src +:+ nl
  end.

Definition expected_lines (values : gmap string (option string))
    (ds : list directive) : string :=
  join EmptyString (map (expected_line values) ds).

(** The two lines that open every secret file. *)
Definition file_header (repo_name : string) (repo : RepositoryConfig) : string :=
  "# Environment variables for repository " +:+ repo_name +:+ nl +:+
  "export RESTIC_REPOSITORY=" +:+ endpoint repo +:+ nl.

(** A repository declares exactly the directives [ds]. *)
Definition declares (values : gmap string (option string))
    (repo : RepositoryConfig) (ds : list directive) : Prop :=
  env_vars repo = map directive_text ds
  /\ Forall well_formed ds /\ Forall (resolves values) ds.

(** A directive that is neither [plain:] nor [env:], or an [env:] directive
    with more than two components after the prefix. *)
Definition skipped (env_var : string) : Prop :=
  match split ":" env_var with
  | prefix :: rest =>
      (prefix <> "plain" /\ prefix <> "env")
      \/ (prefix = "env" /\ (2 < length rest)%nat)
  | [] => False
  end.

(** The same repository with other directives. *)
Definition with_env_vars (repo : RepositoryConfig) (vars : list string)
  : RepositoryConfig :=
  {| endpoint := endpoint repo;
     env_vars := vars;
     forget_arguments := forget_arguments repo |}.

End Directive.

(** ** Sample configurations *)

Module Sample.

Definition world : World := {|
  env_values := {[ "B2_KEY" := Some "s3cr3t" ]};
  now_isoformat := "2025-01-01T02:00:00"
|}.

Definition r1 : RepositoryConfig := {|
  endpoint := "s3:bucket/r1";
  env_vars := ["plain:RESTIC_PASSWORD=a:b"; "env:B2_KEY"; "env:B2_KEY:AWS_SECRET_ACCESS_KEY"];
  forget_arguments := None
|}.

Definition r2 : RepositoryConfig := {|
  endpoint := "/mnt/backup/r2";
  env_vars := [];
  forget_arguments := Some "--keep-daily 7"
|}.

Definition a1 : AgentConfig := {|
  ip := "192.0.2.10";
  ssh_port := None;
  ssh_user := None;
  install_location := None;
  scheduler := None;
  backup_root := "/srv";
  to_backup := ["www"; "db"];
  repositories := [("r1", r1); ("r2", r2)];
  pre_command := None;
  post_command := None
|}.

(** [a1] with other repositories. *)
Definition with_repositories (agent : AgentConfig)
    (repos : list (string * RepositoryConfig)) : AgentConfig :=
  {| ip := ip agent;
     ssh_port := ssh_port agent;
     ssh_user := ssh_user agent;
     install_location := install_location agent;
     scheduler := scheduler agent;
     backup_root := backup_root agent;
     to_backup := to_backup agent;
     repositories := repos;
     pre_command := pre_command agent;
     post_command := post_command agent |}.

End Sample.

(** ** Vocabulary of the properties of the backup script *)

Module Script.

Import Str.

(** The retention step that the specification gives for a repository whose
    [forget_arguments] is a string that is not empty; nothing otherwise. *)
Definition retention (repo : RepositoryConfig) : string :=
  match forget_arguments repo with
  | Some (String _ _ as args) => "restic forget " +:+ args +:+ " --prune" +:+ nl
  | _ => EmptyString
  end.


(** The script as the specification lays it out. The block of a repository:
    the start marker, the line that sources the secret file, the probe that
    initializes the repository when it is not yet, the backup step over all of
    [to_backup], the retention step if there is one, and the end marker. *)
Definition block (agent : AgentConfig) (repo_name : string) (repo : RepositoryConfig)
  : string :=
  "# START " +:+ repo_name +:+ nl +:+
  "source " +:+ get_install_location agent +:+ "/.env." +:+ repo_name +:+ nl +:+
  nl +:+
  "if ! restic cat config >/dev/null 2>&1; then" +:+ nl +:+
  "    # Restic automatically does `mkdir -p` if necessary" +:+ nl +:+
  "    restic init" +:+ nl +:+
  "fi" +:+ nl +:+
  nl +:+
  "restic backup " +:+ join " " (to_backup agent) +:+ nl +:+
  retention repo +:+
  "# END " +:+ repo_name +:+ nl.

(** What stands before the first block: the shebang, the header comment,
    the [PATH] export, the [cd] and the joined [pre_command]. *)
Definition preamble (w : World) (agent : AgentConfig) : string :=
  "#!/bin/bash -e" +:+ nl +:+
  "# Generated on " +:+ now_isoformat w +:+ " by multi-restic" +:+ nl +:+
  nl +:+
  "export PATH=" +:+ get_install_location agent +:+ ":$PATH" +:+ nl +:+
  "cd " +:+ backup_root agent +:+ nl +:+
  nl +:+
  "# Pre-backup commands" +:+ nl +:+
  (if truthy_list (pre_command agent)
   then join " && " (default [] (pre_command agent)) else EmptyString) +:+ nl +:+
  nl.

(** What stands after the last block: the joined [post_command]. *)
Definition postamble (agent : AgentConfig) : string :=
  nl +:+
  "# Post-backup commands" +:+ nl +:+
  (if truthy_list (post_command agent)
   then join " && " (default [] (post_command agent)) else EmptyString) +:+ nl.


End Script.

(** Variations on the sample configuration. *)
Module Variant.

(** A repository whose [forget_arguments] is set to the empty string. *)
Definition r3 : RepositoryConfig := {|
  endpoint := "/mnt/backup/r3";
  env_vars := ["plain:RESTIC_PASSWORD=pw"];
  forget_arguments := Some EmptyString
|}.

Definition a3 : AgentConfig := Sample.with_repositories Sample.a1 [("r3", r3)].



End Variant.

(** ** Vocabulary of the properties of [check] *)

Module Probe.

Import Check.

(** The commands among the events, in order. *)
Fixpoint commands (evs : list event) : list string :=
  match evs with
  | [] => []
  | Exec command :: evs' => command :: commands evs'
  | Log _ :: evs' => commands evs'
  end.

(** The lines logged, in order. *)
Fixpoint logged (evs : list event) : list message :=
  match evs with
  | [] => []
  | Exec _ :: evs' => logged evs'
  | Log m :: evs' => m :: logged evs'
  end.

(** A line about one path of [to_backup]. *)
Definition about_path (m : message) : bool :=
  match m with
  | PathExists _ | PathMissing _ => true
  | _ => false
  end.

(** The command answered with an exit status: the transport did not raise. *)
Definition answered (host : Host) (command : string) : Prop :=
  exists status out, host command = Exit status out.

(** A host on which [restic] is on the search path and nowhere else, and
    whose backup root [/srv] exists. *)
Definition restic_on_path : Host := fun command =>
  if String.eqb command "restic version" then Exit 0 "restic 0.18.1"
  else if String.eqb command "crontab -l" then Exit 0 EmptyString
  else if String.eqb command "test -e /srv" then Exit 0 EmptyString
  else if String.eqb command "test -e /srv/www" then Exit 0 EmptyString
  else if String.eqb command "/opt/multi-restic/restic version" then Exit 127 EmptyString
  else Exit 1 EmptyString.

(** A host without the backup root [/srv]. *)
Definition no_backup_root : Host := fun command =>
  if String.eqb command "crontab -l" then Exit 0 EmptyString
  else if String.eqb command "/opt/multi-restic/restic version" then Exit 0 "restic 0.18.1"
  else Exit 1 EmptyString.

End Probe.

(** ** Vocabulary of the properties of the cron scheduler *)

Module Crontab.

Import Str Schedule.

(** The test that [remove_schedule] makes on a line. *)
Definition is_marker (line : string) : bool :=
  contains "# -- multi-restic --" (strip line).

Definition unmarked (line : string) : Prop := is_marker line = false.

(** No line boundary in [s]; no line boundary but the line feed in [s]. *)
Fixpoint break_free (s : string) : bool :=
  match s with
  | EmptyString => true
  | String c r => negb (is_linebreak c) && break_free r
  end.

Fixpoint lf_only (s : string) : bool :=
  match s with
  | EmptyString => true
  | String c r => (negb (is_linebreak c) || Ascii.eqb c LF) && lf_only r
  end.

(** The lines that the loop of [remove_schedule] keeps, [delete_next]
    being the flag on entry. *)
Fixpoint kept (delete_next : bool) (lines : list string) : list string :=
  match lines with
  | [] => []
  | line :: lines' =>
      if is_marker line then kept true lines'
      else if delete_next then kept false lines'
      else line :: kept false lines'
  end.

(** [lines] hold one managed block, a marker line and the job line after
    it, and [rest] are the other lines in order. *)
Definition one_block (lines rest : list string) : Prop :=
  exists pre marker job post,
    lines = pre ++ marker :: job :: post /\ rest = pre ++ post
    /\ is_marker marker = true /\ unmarked job
    /\ Forall unmarked pre /\ Forall unmarked post.

(** [lines] hold no marker line. *)
Definition no_block (lines rest : list string) : Prop :=
  rest = lines /\ Forall unmarked lines.

(** The two lines that [add_schedule] appends. *)
Definition marker_line : string :=
  "# -- multi-restic -- (do not remove this comment!)".

(** A trailing line feed is all that tells [s] from [t]. *)
Fixpoint chomp (s : string) : string :=
  match s with
  | EmptyString => EmptyString
  | String c r =>
      match chomp r with
      | EmptyString => if Ascii.eqb c LF then EmptyString else char c
      | r' => String c r'
      end
  end.

(** A host that accepts every crontab, with the crontab [text]. *)
Definition host (text : string) : Remote :=
  {| crontab := text; crontab_accepts := fun _ => true |}.

(** A crontab with a comment that ends in a space, an empty line, and the
    managed block. *)
Definition spaced : string :=
  "# nightly jobs " +:+ nl +:+
  nl +:+
  marker_line +:+ nl +:+
  "0 2 * * * /opt/multi-restic/backup.sh >> /opt/multi-restic/backup.log 2>&1" +:+ nl.

(** A crontab with one job and the managed block. *)
Definition managed : string :=
  "MAILTO=root" +:+ nl +:+
  "5 4 * * * /usr/local/bin/rotate" +:+ nl +:+
  marker_line +:+ nl +:+
  "0 2 * * * /opt/multi-restic/backup.sh >> /opt/multi-restic/backup.log 2>&1" +:+ nl.

(** The crontab that [add_schedule] leaves on a host without crontab. *)
Definition fresh_block : string :=
  marker_line +:+ nl +:+
  "0 2 * * * /opt/multi-restic/backup.sh >> /opt/multi-restic/backup.log 2>&1" +:+ nl.

(** A crontab without managed block. *)
Definition plain : string :=
  "MAILTO=root" +:+ nl +:+
  "5 4 * * * /usr/local/bin/rotate" +:+ nl.

End Crontab.

(** ** Vocabulary of further properties *)

Module Lookup.

Import Str.

(** The key that [generate_env_files] looks up in the secret source for a
    directive: the first component of an [env:] directive with one or two
    components, none for the other directives. *)
Definition looked_up (env_var : string) : option string :=
  match split ":" env_var with
  | prefix :: rest =>
      if String.eqb prefix "env" then
        match rest with
        | [src] | [src; _] => Some src
        | _ => None
        end
      else None
  | [] => None
  end.

(** The keys looked up for a dictionary of repositories, in the order of
    the repositories and of their directives. *)
Fixpoint lookups (repos : list (string * RepositoryConfig)) : list string :=
  match repos with
  | [] => []
  | (_, repo) :: repos' => omap looked_up (env_vars repo) ++ lookups repos'
  end.

(** The first of [keys] that the secret source does not bind. *)
Fixpoint first_unbound (values : gmap string (option string)) (keys : list string)
  : option string :=
  match keys with
  | [] => None
  | key :: keys' =>
      match values !! key with
      | None => Some key
      | Some _ => first_unbound values keys'
      end
  end.

(** A secret source with a key declared without value. *)
Definition valueless : World := {|
  env_values := {[ "B2_KEY" := None ]};
  now_isoformat := "2025-01-01T02:00:00"
|}.

(** A configuration whose second repository looks up two unbound keys. *)
Definition unbound : AgentConfig :=
  Sample.with_repositories Sample.a1
    [("r1", Sample.r1);
     ("r2", Directive.with_env_vars Sample.r2 ["plain:A=1"; "env:FIRST"; "env:SECOND:NAME"])].

End Lookup.

Module CrontabSamples.

Import Str Schedule Crontab.

(** A crontab with two managed blocks around one job. *)
Definition two_blocks : string :=
  fresh_block +:+ "5 4 * * * /usr/local/bin/rotate" +:+ nl +:+ fresh_block.

End CrontabSamples.

Module Probes.

Import Str Check.

(** The four shapes of command that [check] sends. *)
Definition probe (command : string) : Prop :=
  (exists path, command = "ls " +:+ path)
  \/ command = "crontab -l"
  \/ (exists install_location, command = install_location +:+ "/restic version")
  \/ (exists path, command = "test -e " +:+ path).

(** Whatever the host and the events so far, a session adds only commands
    that satisfy [P]. *)
Definition sends_only (P : string -> Prop) {A} (m : Session A) : Prop :=
  forall host evs,
    Forall P (Probe.commands evs) -> Forall P (Probe.commands (snd (m host evs))).

(** The command exits with status 0 on the host. *)
Definition succeeds (host : Host) (command : string) : bool :=
  match host command with
  | Exit status _ => (status =? 0)%Z
  | Raise => false
  end.

(** The line that [check] logs for one entry of [to_backup]. *)
Definition path_line (host : Host) (backup_root item : string) : message :=
  let path := backup_root +:+ "/" +:+ item in
  if succeeds host ("test -e " +:+ path) then PathExists path else PathMissing path.

(** Events without line about a path of [to_backup] and without the line
    of a caught exception. *)
Definition silent (agent_name : string) (evs : list event) : Prop :=
  filter Probe.about_path (Probe.logged evs) = []
  /\ FailedToConnect agent_name ∉ Probe.logged evs.

(** On [host] the session returns, whatever the events so far, and adds
    [silent] events only. *)
Definition runs_silently (host : Host) (agent_name : string) {A}
    (m : Session A) : Prop :=
  forall evs, exists a evs', m host evs = (Some a, evs ++ evs') /\ silent agent_name evs'.

(** A host with the backup root [/srv] and one of the two paths. *)
Definition with_backup_root : Host := fun command =>
  if String.eqb command "test -e /srv" then Exit 0 EmptyString
  else if String.eqb command "test -e /srv/www" then Exit 0 EmptyString
  else Exit 1 EmptyString.

End Probes.


(** ** [schedule.py] and [__init__.py]: the schedulers inside [install] *)

Module Install.

Import Str.

(** *** The agent's machine

    What a command gives back: exit status, standard output and standard
    error, or an exception of the transport. *)
Inductive reply : Type :=
| Exit (status : Z) (out err : string)
| Raise.

(** A machine answers the commands, lets SFTP open some paths for writing,
    and holds the crontab that the cron scheduler works on. Each agent is a
    machine of its own. The files that are written and the units that systemd
    knows are not kept in the machine: the SFTP operations are events of the
    session, and of the state of the agent only the crontab is followed. *)
Record Machine := {
  answers : string -> reply;
  sftp_opens : string -> bool;
  cron : Schedule.Remote
}.

Definition with_cron (machine : Machine) (r : Schedule.Remote) : Machine :=
  {| answers := answers machine; sftp_opens := sftp_opens machine; cron := r |}.

(** The exceptions that leave [install]. *)
Inductive exn : Type :=
| KeyError (key : string)
| ValueError (message : string)
| RuntimeError (message : string)
| TransportError (command : string)
| IOError (path : string)
| ConnectError.

(** The lines logged by [install] and by the systemd scheduler. *)
Inductive message : Type :=
| Skipping (agent_name : string)
| FailedToConnect (agent_name : string)
| Connected (agent_name ip port user : string)
| MkdirFailed (install_location : string)
| ErrorText (text : string)
| ResticMissing (install_location : string)
| ResticDownloaded
| ResticDownloadFailed
| UploadedEnvFile (repo_name path : string)
| UploadedScript (path : string)
| RunningBackup (agent_name : string)
| BackupCompleted (agent_name : string)
| BackupFailed (agent_name : string)
| SshHint (agent_name : string)
| Scheduled (agent_name scheduler : string).

(** What an observer sees of a session: the commands sent (those of the
    cron scheduler apart, which act on [cron]), the SFTP writes and mode
    changes, and the lines logged. *)
Inductive event : Type :=
| Exec (command : string)
| Write (path content : string)
| Chmod (path : string) (mode : Z)
| Log (m : message).

(** How a piece of the loop body ends: with a value, with [break], with
    [return], or with an exception. *)
Inductive step (A : Type) : Type :=
| Value (a : A)
| Break
| Return
| Raised (e : exn).
Arguments Value {A} a.
Arguments Break {A}.
Arguments Return {A}.
Arguments Raised {A} e.

(** A piece of the session with one machine. [None]: a command of the cron
    scheduler fell outside the modelled part of the shell. *)
Definition Session (A : Type) : Type :=
  Machine -> list event -> option (step A * Machine * list event).

Definition ret {A} (a : A) : Session A :=
  fun machine evs => Some (Value a, machine, evs).

Definition bind {A B} (m : Session A) (k : A -> Session B) : Session B :=
  fun machine evs =>
    match m machine evs with
    | Some (Value a, machine', evs') => k a machine' evs'
    | Some (Break, machine', evs') => Some (Break, machine', evs')
    | Some (Return, machine', evs') => Some (Return, machine', evs')
    | Some (Raised e, machine', evs') => Some (Raised e, machine', evs')
    | None => None
    end.

Notation "'let*' x := m 'in' k" := (bind m (fun x => k))
  (at level 10, x pattern, m at level 200, k at level 200).

Definition break {A} : Session A := fun machine evs => Some (Break, machine, evs).
Definition return_ {A} : Session A := fun machine evs => Some (Return, machine, evs).
Definition raise {A} (e : exn) : Session A :=
  fun machine evs => Some (Raised e, machine, evs).

Definition log (m : message) : Session unit :=
  fun machine evs => Some (Value tt, machine, evs ++ [Log m]).

(** [client.exec_command(command)] with the exit status, the standard
    output and the standard error read. *)
Definition exec_command (command : string) : Session (Z * string * string) :=
  fun machine evs =>
    match answers machine command with
    | Exit status out err => Some (Value (status, out, err), machine, evs ++ [Exec command])
    | Raise => Some (Raised (TransportError command), machine, evs ++ [Exec command])
    end.

(** [util.exec_cmd]. *)
Definition exec_cmd (command : string) : Session bool :=
  let* (exit_code, _, _) := exec_command command in
  ret (exit_code =? 0)%Z.

(** [with sftp.file(path, "w") as remote_file: remote_file.write(content)]. *)
Definition sftp_write (path content : string) : Session unit :=
  fun machine evs =>
    if sftp_opens machine path
    then Some (Value tt, machine, evs ++ [Write path content])
    else Some (Raised (IOError path), machine, evs).

(** [sftp.chmod(path, mode)]. *)
Definition sftp_chmod (path : string) (mode : Z) : Session unit :=
  fun machine evs => Some (Value tt, machine, evs ++ [Chmod path mode]).

(** *** [SystemdScheduler] *)

Definition unit_file_content (install_location : string) : string :=
  "[Unit]" +:+ nl +:+
  "Description=Multi-Restic Backup Service" +:+ nl +:+
  "[Service]" +:+ nl +:+
  "Type=oneshot" +:+ nl +:+
  "ExecStart=" +:+ install_location +:+ "/backup.sh" +:+ nl.

Definition timer_file_content : string :=
  "[Unit]" +:+ nl +:+
  "Description=Runs Multi-Restic Backup Service daily" +:+ nl +:+
  "[Timer]" +:+ nl +:+
  "OnCalendar=daily" +:+ nl +:+
  "Persistent=true" +:+ nl +:+
  "[Install]" +:+ nl +:+
  "WantedBy=timers.target" +:+ nl.

Definition service_file_path (install_location : string) : string :=
  install_location +:+ "/multi-restic-backup.service".

Definition timer_file_path (install_location : string) : string :=
  install_location +:+ "/multi-restic-backup.timer".

(** The commands of [add_schedule] and of [remove_schedule], before they
    are joined by [" && "]. *)
Definition systemd_add_commands (install_location : string) : list string :=
  [ "mkdir -p ~/.config/systemd/user";
    "ln -sf " +:+ service_file_path install_location +:+
      " ~/.config/systemd/user/multi-restic-backup.service";
    "systemctl --user daemon-reload";
    "systemctl --user enable --now " +:+ install_location +:+ "/multi-restic-backup.timer" ].

Definition systemd_remove_commands (install_location : string) : list string :=
  [ "systemctl --user disable --now multi-restic-backup.timer || true";
    "rm -f " +:+ service_file_path install_location;
    "rm -f " +:+ timer_file_path install_location;
    "rm -f ~/.config/systemd/user/multi-restic-backup.service" ].

Definition systemd_add_schedule (agent : AgentConfig) : Session unit :=
  let install_location := get_install_location agent in
  let* _ := sftp_write (service_file_path install_location)
                       (unit_file_content install_location) in
  let* _ := sftp_write (timer_file_path install_location) timer_file_content in
  let* (exit_code, out, err) :=
    exec_command (join " && " (systemd_add_commands install_location)) in
  if negb (exit_code =? 0)%Z then
    let* _ := log (ErrorText out) in
    let* _ := log (ErrorText err) in
    raise (RuntimeError "Failed to set up systemd timer")
  else ret tt.

Definition systemd_remove_schedule (agent : AgentConfig) : Session unit :=
  let install_location := get_install_location agent in
  let* (exit_code, out, err) :=
    exec_command (join " && " (systemd_remove_commands install_location)) in
  if negb (exit_code =? 0)%Z then
    let* _ := log (ErrorText out) in
    let* _ := log (ErrorText err) in
    raise (RuntimeError "Failed to remove systemd timer")
  else ret tt.

(** *** [CronScheduler], on the crontab of the machine *)

Definition on_cron (f : Schedule.Remote -> option (Schedule.outcome * Schedule.Remote))
  : Session unit :=
  fun machine evs =>
    match f (cron machine) with
    | Some (Schedule.Returned, r) => Some (Value tt, with_cron machine r, evs)
    | Some (Schedule.RuntimeError message, r) =>
        Some (Raised (RuntimeError message), with_cron machine r, evs)
    | None => None
    end.

(** *** [Scheduler]

    The two methods that [install] calls. *)
Record Scheduler := {
  add_schedule : AgentConfig -> Session unit;
  remove_schedule : AgentConfig -> Session unit
}.

Definition CronScheduler : Scheduler := {|
  add_schedule agent := on_cron (Schedule.add_schedule agent);
  remove_schedule agent := on_cron (Schedule.remove_schedule agent)
|}.

Definition SystemdScheduler : Scheduler := {|
  add_schedule := systemd_add_schedule;
  remove_schedule := systemd_remove_schedule
|}.

(** [Scheduler.create]: the key [scheduler] defaults to [cron]. *)
Definition create (agent : AgentConfig) : Session Scheduler :=
  let kind := default "cron" (scheduler agent) in
  if String.eqb kind "cron" then ret CronScheduler
  else if String.eqb kind "systemd" then ret SystemdScheduler
  else raise (ValueError ("Unknown scheduler type: " +:+ str_of_optional (scheduler agent))).

(** *** [install] *)

Definition restic_url : string :=
  "https://github.com/restic/restic/releases/download/v0.18.1/restic_0.18.1_linux_amd64.bz2".

Definition download_commands (install_location : string) : list string :=
  [ "cd " +:+ install_location;
    "curl -LO " +:+ restic_url;
    "bzip2 -d restic_0.18.1_linux_amd64.bz2";
    "mv restic_0.18.1_linux_amd64 restic";
    "chmod +x restic";
    "./restic self-update" ].

(** The items of [env_files] in insertion order: for the repositories of a
    dictionary that is the order of their names. *)
Definition items (agent : AgentConfig) (env_files : gmap string string)
  : list (string * string) :=
  omap (fun '(repo_name, _) => pair repo_name <$> env_files !! repo_name)
       (repositories agent).

Definition env_remote_path (install_location repo_name : string) : string :=
  install_location +:+ "/.env." +:+ repo_name.

(** The loop that uploads the secret files: mode [0o600] is 384. *)
Fixpoint upload_env_files (install_location : string)
    (files : list (string * string)) : Session unit :=
  match files with
  | [] => ret tt
  | (repo_name, env_content) :: files' =>
      let path := env_remote_path install_location repo_name in
      let* _ := sftp_write path env_content in
      let* _ := sftp_chmod path 384 in
      let* _ := log (UploadedEnvFile repo_name path) in
      upload_env_files install_location files'
  end.

(** [generate_env_files(agent_data)] inside the session. *)
Definition generate_env_files (w : World) (agent : AgentConfig)
  : Session (gmap string string) :=
  match GenerateScript.generate_env_files w agent with
  | GenerateScript.Ok env_files => ret env_files
  | GenerateScript.KeyError key => raise (KeyError key)
  end.

(** The body of the second [with connect_ssh(...) as client] block, in the
    four parts that follow one another in the source. First the install
    directory and the backup tool. *)
Definition prepare (agent_name : string) (agent_data : AgentConfig) : Session unit :=
  let install_location := get_install_location agent_data in
  let* _ := log (Connected agent_name (ip agent_data)
                   (default "22" (ssh_port agent_data))
                   (default "root" (ssh_user agent_data))) in
  let* (exit_code, out, err) :=
    exec_command ("install -d " +:+ install_location +:+ " -m 700") in
  let* _ :=
    (if negb (exit_code =? 0)%Z then
       let* _ := log (MkdirFailed install_location) in
       let* _ := log (ErrorText out) in
       let* _ := log (ErrorText err) in
       break
     else ret tt) in
  let* restic_in_path := exec_cmd "restic version" in
  let* restic_in_multi_restic := exec_cmd (install_location +:+ "/restic version") in
  let download_restic := negb restic_in_path && negb restic_in_multi_restic in
  if download_restic then
    let* _ := log (ResticMissing install_location) in
    let* (exit_code, out, err) :=
      exec_command (join " && " (download_commands install_location)) in
    if (exit_code =? 0)%Z then log ResticDownloaded
    else
      let* _ := log ResticDownloadFailed in
      let* _ := log (ErrorText out) in
      let* _ := log (ErrorText err) in
      break
  else ret tt.

(** Upload environment files and backup script: mode [0o700] is 448. *)
Definition upload (w : World) (agent_data : AgentConfig) : Session unit :=
  let install_location := get_install_location agent_data in
  let* env_files := generate_env_files w agent_data in
  let backup_script := GenerateScript.generate_script w agent_data in
  let* _ := upload_env_files install_location (items agent_data env_files) in
  let script_remote_path := install_location +:+ "/backup.sh" in
  let* _ := sftp_write script_remote_path backup_script in
  let* _ := sftp_chmod script_remote_path 448 in
  log (UploadedScript script_remote_path).

(** Run one backup to test. *)
Definition test_backup (skip_test_backup : bool) (agent_name : string)
    (agent_data : AgentConfig) : Session unit :=
  let install_location := get_install_location agent_data in
  if negb skip_test_backup then
    let* _ := log (RunningBackup agent_name) in
    let* (exit_code, out, err) := exec_command (install_location +:+ "/backup.sh") in
    if (exit_code =? 0)%Z then log (BackupCompleted agent_name)
    else
      let* _ := log (BackupFailed agent_name) in
      let* _ := log (ErrorText out) in
      let* _ := log (ErrorText err) in
      let* _ := log (SshHint agent_name) in
      return_
  else ret tt.

(** Set up scheduling job. *)
Definition schedule (agent_name : string) (agent_data : AgentConfig) : Session unit :=
  let* scheduler_ := create agent_data in
  let* _ := remove_schedule scheduler_ agent_data in
  let* _ := add_schedule scheduler_ agent_data in
  log (Scheduled agent_name (default "cron" (scheduler agent_data))).

Definition install_session (w : World) (skip_test_backup : bool)
    (agent_name : string) (agent_data : AgentConfig) : Session unit :=
  let* _ := prepare agent_name agent_data in
  let* _ := upload w agent_data in
  let* _ := test_backup skip_test_backup agent_name agent_data in
  schedule agent_name agent_data.

(** What [install] leaves behind: the events, each with the name of the
    agent it belongs to, the machines of the sessions that were opened, and
    how the command ended. *)
Inductive ending : Type :=
| Completed
| Stopped
| Failed (e : exn).

Record Run := {
  events : list (string * event);
  machines : list (string * Machine);
  ended : ending
}.

Definition tagged (agent_name : string) (evs : list event) : list (string * event) :=
  map (pair agent_name) evs.

Definition after (agent_name : string) (evs : list event)
    (machine : option Machine) (rest : Run) : Run :=
  {| events := tagged agent_name evs ++ events rest;
     machines := match machine with
                 | Some m => (agent_name, m) :: machines rest
                 | None => machines rest
                 end;
     ended := ended rest |}.

Definition finish (e : ending) : Run :=
  {| events := []; machines := []; ended := e |}.

(** [agent_name not in agents]. *)
Definition not_in (agent_name : string) (agents : list string) : bool :=
  negb (bool_decide (agent_name ∈ agents)).

(** The loop over the agents. [None]: a command of the cron scheduler fell
    outside the modelled part of the shell. *)
Fixpoint install_loop (w : World) (connect_ssh : AgentConfig -> option Machine)
    (agents : list string) (skip_test_backup : bool)
    (configured : list (string * AgentConfig)) : option Run :=
  match configured with
  | [] => Some (finish Completed)
  | (agent_name, agent_data) :: configured' =>
      if (0 <? length agents)%nat && not_in agent_name agents then
        after agent_name [Log (Skipping agent_name)] None
          <$> install_loop w connect_ssh agents skip_test_backup configured'
      else
        match connect_ssh agent_data with
        | None =>
            Some (after agent_name [Log (FailedToConnect agent_name)] None
                    (finish Stopped))
        | Some _ =>
            match connect_ssh agent_data with
            | None => Some (finish (Failed ConnectError))
            | Some machine =>
                match install_session w skip_test_backup agent_name agent_data
                        machine [] with
                | None => None
                | Some (Value _, machine', evs) =>
                    after agent_name evs (Some machine')
                      <$> install_loop w connect_ssh agents skip_test_backup configured'
                | Some (Break, machine', evs) | Some (Return, machine', evs) =>
                    Some (after agent_name evs (Some machine') (finish Stopped))
                | Some (Raised e, machine', evs) =>
                    Some (after agent_name evs (Some machine') (finish (Failed e)))
                end
            end
        end
  end.

Definition install (w : World) (connect_ssh : AgentConfig -> option Machine)
    (configured : list (string * AgentConfig)) (agents : list string)
    (skip_test_backup : bool) : option Run :=
  install_loop w connect_ssh agents skip_test_backup configured.

End Install.


(** ** Vocabulary of the properties of [install] *)

Module Trace.

Import Str Install.

(** How a piece of a session ends when it does not hand on a value. *)
Inductive kind : Type :=
| Broke
| Returned
| Threw (e : exn).

Definition kind_of {A} (s : step A) : option kind :=
  match s with
  | Value _ => None
  | Break => Some Broke
  | Return => Some Returned
  | Raised e => Some (Threw e)
  end.

(** An SFTP write or mode change. *)
Definition is_sftp (e : event) : bool :=
  match e with
  | Write _ _ | Chmod _ _ => true
  | _ => false
  end.

Definition sftp_ops (evs : list event) : list event := filter is_sftp evs.

(** The command exits with status 0 on the machine; it exits with another
    status. *)
Definition succeeds (machine : Machine) (command : string) : bool :=
  match answers machine command with
  | Exit status _ _ => (status =? 0)%Z
  | Raise => false
  end.

Definition fails (machine : Machine) (command : string) : bool :=
  match answers machine command with
  | Exit status _ _ => negb (status =? 0)%Z
  | Raise => false
  end.

(** The SFTP operations of a completed session, apart from those of the
    scheduler: every secret file with mode [0o600], in the order of the
    repositories, then the script with mode [0o700]. *)
Definition uploads (w : World) (agent : AgentConfig) (env_files : gmap string string)
  : list event :=
  let install_location := get_install_location agent in
  concat (map (fun '(repo_name, text) =>
                 [Write (env_remote_path install_location repo_name) text;
                  Chmod (env_remote_path install_location repo_name) 384])
              (items agent env_files))
  ++ [Write (install_location +:+ "/backup.sh") (GenerateScript.generate_script w agent);
      Chmod (install_location +:+ "/backup.sh") 448].

(** The unit files that the systemd scheduler writes; the cron scheduler
    writes no file. *)
Definition unit_files (agent : AgentConfig) : list event :=
  let install_location := get_install_location agent in
  if String.eqb (default "cron" (scheduler agent)) "systemd"
  then [Write (service_file_path install_location) (unit_file_content install_location);
        Write (timer_file_path install_location) timer_file_content]
  else [].

(** The events of an agent in a run. *)
Definition events_of (agent_name : string) (run : Run) : list event :=
  omap (fun '(name, e) => if String.eqb name agent_name then Some e else None)
       (events run).

(** A machine with [restic] on the search path, on which everything that
    [install] asks succeeds and whose crontab holds one job and the block. *)
Definition healthy : Machine := {|
  answers := fun command =>
    if String.eqb command "install -d /opt/multi-restic -m 700"
    then Exit 0 EmptyString EmptyString
    else if String.eqb command "restic version" then Exit 0 "restic 0.18.1" EmptyString
    else if String.eqb command "/opt/multi-restic/backup.sh" then Exit 0 "done" EmptyString
    else Exit 1 EmptyString "not found";
  sftp_opens := fun _ => true;
  cron := Crontab.host Crontab.managed
|}.

(** The same machine without [restic], and unable to download it. *)
Definition bare : Machine := {|
  answers := fun command =>
    if String.eqb command "install -d /opt/multi-restic -m 700"
    then Exit 0 EmptyString EmptyString
    else Exit 1 EmptyString "not found";
  sftp_opens := fun _ => true;
  cron := Crontab.host Crontab.managed
|}.

(** The same machine with a failing backup script. *)
Definition failing_backup : Machine := {|
  answers := fun command =>
    if String.eqb command "install -d /opt/multi-restic -m 700"
    then Exit 0 EmptyString EmptyString
    else if String.eqb command "restic version" then Exit 0 "restic 0.18.1" EmptyString
    else Exit 1 EmptyString "not found";
  sftp_opens := fun _ => true;
  cron := Crontab.host Crontab.managed
|}.

(** The sample secret source one day later. *)
Definition next_day : World := {|
  env_values := {[ "B2_KEY" := Some "s3cr3t" ]};
  now_isoformat := "2025-01-02T02:00:00"
|}.

(** A machine on which every command succeeds. *)
Definition obliging : Machine := {|
  answers := fun _ => Exit 0 EmptyString EmptyString;
  sftp_opens := fun _ => true;
  cron := Crontab.host Crontab.plain
|}.

(** A fleet: [a1] is reachable, the agent at another address is not. *)
Definition unreachable : AgentConfig := {|
  ip := "192.0.2.99";
  ssh_port := None;
  ssh_user := None;
  install_location := None;
  scheduler := None;
  backup_root := "/srv";
  to_backup := ["www"];
  repositories := [("r2", Sample.r2)];
  pre_command := None;
  post_command := None
|}.

(** [a1] with a scheduler that [Scheduler.create] does not know. *)
Definition misconfigured : AgentConfig := {|
  ip := "192.0.2.10";
  ssh_port := None;
  ssh_user := None;
  install_location := None;
  scheduler := Some "anacron";
  backup_root := "/srv";
  to_backup := ["www"; "db"];
  repositories := [("r1", Sample.r1); ("r2", Sample.r2)];
  pre_command := None;
  post_command := None
|}.

Definition connect_to (machine : Machine) (agent : AgentConfig) : option Machine :=
  if String.eqb (ip agent) "192.0.2.10" then Some machine else None.

End Trace.

(** ** [__init__.py]: [ssh_agent] *)

Module Ssh.

Import Str.

(** The lines logged by [ssh_agent]. *)
Inductive message : Type :=
| AgentNotFound (agent_name : string)
| LoadedEnvironment (repository : string)
| RepositoryNotFound (repository agent_name available : string)
| NoRepository (install_location : string)
| FullCommand (full_command : string).

(** What [ssh_agent] leaves behind: the lines logged and the command handed
    to [os.system], if any. *)
Record Outcome := {
  logged : list message;
  system : option string
}.

(** [config.get_agents().get(agent_name)]. *)
Fixpoint get (agent_name : string) (configured : list (string * AgentConfig))
  : option AgentConfig :=
  match configured with
  | [] => None
  | (name, agent_data) :: configured' =>
      if String.eqb name agent_name then Some agent_data else get agent_name configured'
  end.

Definition full_command (agent_data : AgentConfig) (shell : string)
    (commands : list string) : string :=
  "ssh " +:+ default "root" (ssh_user agent_data) +:+ "@" +:+ ip agent_data +:+
  " -p " +:+ default "22" (ssh_port agent_data) +:+
  " -t " +:+ shell +:+ " -c '" +:+ join "; " commands +:+ "; " +:+ shell +:+ " -i'".

(** [ssh_agent]. The argument [repository] is [None] when it is not given;
    an agent of the configuration is a dictionary with keys, so it counts as
    true. *)
Definition ssh_agent (configured : list (string * AgentConfig)) (agent_name : string)
    (repository : option string) (command : list string) (shell : string) : Outcome :=
  match get agent_name configured with
  | None => {| logged := [AgentNotFound agent_name]; system := None |}
  | Some agent_data =>
      let install_location := get_install_location agent_data in
      let commands :=
        [ "export PATH=" +:+ install_location +:+ ":$PATH";
          "cd " +:+ backup_root agent_data ] in
      let names := (repositories agent_data).*1 in
      if truthy_str repository then
        let repository := default EmptyString repository in
        if bool_decide (repository ∈ names) then
          let commands :=
            commands ++ ["source " +:+ install_location +:+ "/.env." +:+ repository] in
          let full := full_command agent_data shell commands in
          {| logged := [LoadedEnvironment repository; FullCommand full];
             system := Some full |}
        else
          {| logged := [RepositoryNotFound repository agent_name (join ", " names)];
             system := None |}
      else
        let full := full_command agent_data shell commands in
        {| logged := [NoRepository install_location; FullCommand full];
           system := Some full |}
  end.

End Ssh.

(** ** [__init__.py]: the worker [_export] of [download_snapshot] *)

Module Download.

Import Str.

(** The agent as a worker sees it: its answers to the commands, and the
    files that SFTP can open for reading, which stay as they are while they
    are read. *)
Record Agent := {
  answers : string -> Install.reply;
  remote_files : string -> option (list Byte.byte)
}.

(** The central machine: its files, and the paths that [open(path, "wb")]
    can open. *)
Record Local := {
  files : gmap string (list Byte.byte);
  opens : string -> bool
}.

Definition with_files (local : Local) (fs : gmap string (list Byte.byte)) : Local :=
  {| files := fs; opens := opens local |}.

Inductive exn : Type :=
| ConnectError
| TransportError (command : string)
| RemoteIOError (path : string)
| LocalIOError (path : string).

(** The lines logged by a worker. The hint after a failed restore names
    the repository behind [--repository], the hint after a failed compression
    names it as an argument. *)
Inductive message : Type :=
| Restoring (snapshot_id repository agent_name : string)
| RestoreFailed (snapshot_id agent_name : string)
| ErrorText (text : string)
| SshHintOption (agent_name repository : string)
| Restored (snapshot_id agent_name : string)
| CompressFailed (snapshot_id agent_name : string)
| SshHint (agent_name repository : string)
| Compressed (snapshot_id : string).

(** What an observer sees of a worker: the commands, the lines logged, the
    total given to the progress bar and its updates. *)
Inductive event : Type :=
| Exec (command : string)
| Log (m : message)
| ProgressTotal (total : nat)
| Progress (n : nat).

(** How a worker ends: after the download, with [return], or with an
    exception that ends its thread. *)
Inductive ending : Type :=
| Finished
| Returned
| Threw (e : exn).

(** [os.path.join(a, b)] on POSIX. *)
Fixpoint ends_with_slash (s : string) : bool :=
  match s with
  | EmptyString => false
  | String c EmptyString => Ascii.eqb c "/"
  | String _ r => ends_with_slash r
  end.

Definition os_path_join (a b : string) : string :=
  if startswith "/" b then b
  else if String.eqb a EmptyString || ends_with_slash a then a +:+ b
  else a +:+ "/" +:+ b.

(** The size asked for in [remote_file.read(1048576)]. *)
Definition chunk_size : nat := N.to_nat 1048576.

(** [remote_file.read(size)] on what is left of the file: the data read and
    what is left after it. *)
Definition read (size : nat) (left : list Byte.byte)
  : list Byte.byte * list Byte.byte :=
  (take size left, drop size left).

(** [local_file.write(data)]. *)
Definition write (local_path : string) (data : list Byte.byte) (local : Local) : Local :=
  with_files local (alter (fun old => old ++ data) local_path (files local)).

(** The loop [while True]: read, leave when nothing was read, write and
    update the progress bar. The loop is run for at most [fuel] turns; [None]:
    the turns did not suffice. Once both files are open the transfer is
    taken to go through: a [prefetch], [read] or [write] that raises, and the
    partly written local file that it leaves, are outside this model. *)
Fixpoint copy_loop (fuel : nat) (local_path : string) (left : list Byte.byte)
    (local : Local) (evs : list event) : option (Local * list event) :=
  match fuel with
  | O => None
  | S fuel' =>
      let '(data, left') := read chunk_size left in
      match data with
      | [] => Some (local, evs)
      | _ :: _ =>
          copy_loop fuel' local_path left'
            (write local_path data local) (evs ++ [Progress (length data)])
      end
  end.

Definition restore_commands (install_location repository snapshot_id : string)
  : list string :=
  [ "export PATH=" +:+ install_location +:+ ":$PATH";
    "source " +:+ install_location +:+ "/.env." +:+ repository;
    "rm -rf /tmp/multi-restic-restore-" +:+ snapshot_id +:+ " || true";
    "restic restore " +:+ snapshot_id +:+ " --target /tmp/multi-restic-restore-"
      +:+ snapshot_id ].

Definition compress_command (snapshot_id : string) : string :=
  "tar -czf /tmp/multi-restic-restore-" +:+ snapshot_id +:+
  ".tar.gz -C /tmp/multi-restic-restore-" +:+ snapshot_id +:+ " .".

Definition remote_path (snapshot_id : string) : string :=
  "/tmp/multi-restic-restore-" +:+ snapshot_id +:+ ".tar.gz".

Definition local_path (destination agent_name repository snapshot_id : string) : string :=
  os_path_join destination
    (agent_name +:+ "-" +:+ repository +:+ "-" +:+ snapshot_id +:+ ".tar.gz").

(** [_export(snapshot_id)], the body of one thread, with the names that it
    takes from [download_snapshot]. *)
Definition export (fuel : nat) (connect_ssh : AgentConfig -> option Agent)
    (agent_name repository destination : string) (agent_data : AgentConfig)
    (snapshot_id : string) (local : Local)
  : option (ending * Local * list event) :=
  let install_location := get_install_location agent_data in
  match connect_ssh agent_data with
  | None => Some (Threw ConnectError, local, [])
  | Some client_inner =>
      let restore :=
        join " && " (restore_commands install_location repository snapshot_id) in
      let evs := [Log (Restoring snapshot_id repository agent_name); Exec restore] in
      match answers client_inner restore with
      | Install.Raise => Some (Threw (TransportError restore), local, evs)
      | Install.Exit exit_code out err =>
          if negb (exit_code =? 0)%Z then
            Some (Returned, local,
                  evs ++ [Log (RestoreFailed snapshot_id agent_name);
                          Log (ErrorText out); Log (ErrorText err);
                          Log (SshHintOption agent_name repository)])
          else
            let compress := compress_command snapshot_id in
            let evs := evs ++ [Log (Restored snapshot_id agent_name); Exec compress] in
            match answers client_inner compress with
            | Install.Raise => Some (Threw (TransportError compress), local, evs)
            | Install.Exit exit_code out err =>
                if negb (exit_code =? 0)%Z then
                  Some (Returned, local,
                        evs ++ [Log (CompressFailed snapshot_id agent_name);
                                Log (ErrorText out); Log (ErrorText err);
                                Log (SshHint agent_name repository)])
                else
                  let evs := evs ++ [Log (Compressed snapshot_id)] in
                  let local_path :=
                    local_path destination agent_name repository snapshot_id in
                  let remote_path := remote_path snapshot_id in
                  match remote_files client_inner remote_path with
                  | None => Some (Threw (RemoteIOError remote_path), local, evs)
                  | Some content =>
                      let file_size := length content in
                      if opens local local_path then
                        let local := with_files local (<[local_path := []]> (files local)) in
                        match copy_loop fuel local_path content local
                                (evs ++ [ProgressTotal file_size]) with
                        | Some (local, evs) => Some (Finished, local, evs)
                        | None => None
                        end
                      else Some (Threw (LocalIOError local_path), local, evs)
                  end
            end
      end
  end.

(** The commands of a trace, the totals given to the progress bar, and the
    sum of its updates. *)
Definition commands (evs : list event) : list string :=
  omap (fun e => match e with Exec c => Some c | _ => None end) evs.

Definition totals (evs : list event) : list nat :=
  omap (fun e => match e with ProgressTotal total => Some total | _ => None end) evs.

Definition progress (evs : list event) : nat :=
  foldr (fun e n => match e with Progress k => (k + n)%nat | _ => n end) 0%nat evs.

Definition exits_zero (agent : Agent) (command : string) : bool :=
  match answers agent command with
  | Install.Exit status _ _ => (status =? 0)%Z
  | Install.Raise => false
  end.

(** An agent on which both commands succeed and that holds an archive of
    two bytes for the snapshot [4f2a]; a central machine with one file. *)
Definition archive : list Byte.byte := [Byte.x1f; Byte.x8b].

Definition ready : Agent := {|
  answers := fun _ => Install.Exit 0 EmptyString EmptyString;
  remote_files := fun path =>
    if String.eqb path "/tmp/multi-restic-restore-4f2a.tar.gz" then Some archive else None
|}.

(** An agent on which [restic restore] fails. *)
Definition broken : Agent := {|
  answers := fun _ => Install.Exit 1 EmptyString "Fatal: unable to open config file";
  remote_files := fun _ => None
|}.

Definition desk : Local := {|
  files := {[ "notes.txt" := [Byte.x68; Byte.x69] ]};
  opens := fun _ => true
|}.

End Download.

(** * Properties *)

(** ** Strings *)

Section StringFacts.

Import Str.

(** The methods on small texts, as Python evaluates them. *)
Example splitlines_boundaries :
  splitlines ("a" +:+ char CR +:+ nl +:+ "b" +:+ nl +:+ nl +:+ "c") = ["a"; "b"; EmptyString; "c"]
  /\ splitlines nl = [EmptyString]
  /\ splitlines EmptyString = [].
Proof. repeat split; reflexivity. Qed.

Example split_colons :
  split ":" "env:SRC:DST" = ["env"; "SRC"; "DST"]
  /\ split ":" "plain" = ["plain"]
  /\ split ":" "a::" = ["a"; EmptyString; EmptyString]
  /\ join ":" ["A=B"; "C"] = "A=B:C".
Proof. repeat split; reflexivity. Qed.

Example strip_whitespace :
  rstrip ("a b " +:+ nl +:+ " " +:+ nl) = "a b"
  /\ strip "  x y  " = "x y"
  /\ contains "# -- multi-restic --" (strip "  # -- multi-restic -- (x)") = true.
Proof. repeat split; reflexivity. Qed.

Lemma append_cons (c : ascii) (a b : string) : String c a +:+ b = String c (a +:+ b).
Proof. reflexivity. Qed.

Lemma append_nil_l (s : string) : EmptyString +:+ s = s.
Proof. reflexivity. Qed.

Lemma append_nil_r (s : string) : s +:+ EmptyString = s.
Proof. induction s as [|c s IH]; [reflexivity|]. by rewrite append_cons, IH. Qed.

Lemma append_assoc (a b c : string) : (a +:+ b) +:+ c = a +:+ (b +:+ c).
Proof. induction a as [|x a IH]; [reflexivity|]. by rewrite !append_cons, IH. Qed.

Lemma split_not_nil (sep : ascii) (s : string) : split sep s <> [].
Proof.
  destruct s as [|c r]; cbn; [discriminate|].
  destruct (Ascii.eqb c sep); [discriminate|].
  destruct (split sep r); discriminate.
Qed.

Lemma split_without (sep : ascii) (s : string) :
  Directive.has_char sep s = false -> split sep s = [s].
Proof.
  induction s as [|c r IH]; [reflexivity|].
  cbn. intros [Hc Hr]%orb_false_iff.
  rewrite Hc, (IH Hr). reflexivity.
Qed.

Lemma split_app_sep (sep : ascii) (p r : string) :
  Directive.has_char sep p = false ->
  split sep (p +:+ String sep r) = p :: split sep r.
Proof.
  induction p as [|c p IH].
  - intros _. rewrite append_nil_l. cbn. by rewrite Ascii.eqb_refl.
  - intros [Hc Hp]%orb_false_iff. rewrite append_cons. cbn [split].
    rewrite Hc, (IH Hp). reflexivity.
Qed.

Lemma join_split (sep : ascii) (s : string) : join (char sep) (split sep s) = s.
Proof.
  induction s as [|c r IH]; [reflexivity|].
  cbn [split]. destruct (Ascii.eqb_spec c sep) as [->|Hne].
  - destruct (split sep r) as [|w ws] eqn:E; [by destruct (split_not_nil sep r)|].
    change (join (char sep) (EmptyString :: w :: ws))
      with (EmptyString +:+ char sep +:+ join (char sep) (w :: ws)).
    rewrite IH. reflexivity.
  - destruct (split sep r) as [|w ws] eqn:E; [by destruct (split_not_nil sep r)|].
    destruct ws as [|w' ws].
    + cbn in *. by rewrite IH.
    + change (join (char sep) (String c w :: w' :: ws))
        with (String c (w +:+ char sep +:+ join (char sep) (w' :: ws))).
      f_equal. exact IH.
Qed.

End StringFacts.

(** ** The secret files *)

Section EnvFiles.

Import Str GenerateScript Directive.

Variable values : gmap string (option string).

Lemma join_empty_cons (x : string) (xs : list string) :
  join EmptyString (x :: xs) = x +:+ join EmptyString xs.
Proof. destruct xs; cbn [join]; [by rewrite append_nil_r|reflexivity]. Qed.

Lemma export_line_plain (literal : string) :
  export_line values ("plain:" +:+ literal) = Ok ("export " +:+ literal +:+ nl).
Proof.
  unfold export_line.
  change ("plain:" +:+ literal) with ("plain" +:+ String ":" literal).
  rewrite split_app_sep by reflexivity. cbn [String.eqb Ascii.eqb Bool.eqb].
  change ":"%string with (char ":"). by rewrite join_split.
Qed.

Lemma export_line_env (src : string) :
  has_char ":" src = false ->
  export_line values ("env:" +:+ src)
  = v ← getitem values src;
    Ok ("export " +:+ src +:+ "=" +:+ str_of_optional v +:+ nl).
Proof.
  intros Hsrc. unfold export_line.
  change ("env:" +:+ src) with ("env" +:+ String ":" src).
  rewrite split_app_sep by reflexivity. rewrite (split_without _ _ Hsrc).
  reflexivity.
Qed.

Lemma export_line_env_as (src dst : string) :
  has_char ":" src = false -> has_char ":" dst = false ->
  export_line values ("env:" +:+ src +:+ ":" +:+ dst)
  = v ← getitem values src;
    Ok ("export " +:+ dst +:+ "=" +:+ str_of_optional v +:+ nl).
Proof.
  intros Hsrc Hdst. unfold export_line.
  change ("env:" +:+ src +:+ ":" +:+ dst)
    with ("env" +:+ String ":" (src +:+ String ":" dst)).
  rewrite split_app_sep by reflexivity.
  rewrite (split_app_sep _ _ _ Hsrc), (split_without _ _ Hdst).
  reflexivity.
Qed.

Lemma export_line_expected (d : directive) :
  well_formed d -> resolves values d ->
  export_line values (directive_text d) = Ok (expected_line values d).
Proof.
  destruct d as [literal|src|src dst]; cbn [well_formed resolves directive_text].
  - intros _ _. apply export_line_plain.
  - intros Hsrc [v Hv]. rewrite (export_line_env _ Hsrc).
    unfold getitem, expected_line, resolved. by rewrite Hv.
  - intros [Hsrc Hdst] [v Hv]. rewrite (export_line_env_as _ _ Hsrc Hdst).
    unfold getitem, expected_line, resolved. by rewrite Hv.
Qed.

Lemma export_lines_expected (ds : list directive) (text : string) :
  Forall well_formed ds -> Forall (resolves values) ds ->
  export_lines values text (map directive_text ds)
  = Ok (text +:+ expected_lines values ds).
Proof.
  revert text. induction ds as [|d ds IH]; intros text Hwf Hres.
  - cbn. by rewrite append_nil_r.
  - inversion_clear Hwf as [|? ? Hd Hds]. inversion_clear Hres as [|? ? Rd Rds].
    cbn [map export_lines]. rewrite (export_line_expected d Hd Rd).
    cbn [mbind result_bind]. rewrite (IH _ Hds Rds).
    unfold expected_lines. cbn [map]. by rewrite join_empty_cons, append_assoc.
Qed.

Lemma env_file_expected (repo_name : string) (repo : RepositoryConfig)
    (ds : list directive) :
  declares values repo ds ->
  env_file values repo_name repo
  = Ok (file_header repo_name repo +:+ expected_lines values ds).
Proof.
  intros (Hvars & Hwf & Hres). unfold env_file. rewrite Hvars.
  rewrite (export_lines_expected ds _ Hwf Hres). unfold file_header.
  by rewrite !append_assoc.
Qed.

(** The loop over the repositories returns when every secret file is built,
    and then holds each of them under its repository name. *)
Lemma env_files_loop_ok (repos : list (string * RepositoryConfig))
    (env_files : gmap string string) :
  (forall name repo, (name, repo) ∈ repos ->
     exists text, env_file values name repo = Ok text) ->
  exists m, env_files_loop values env_files repos = Ok m
    /\ (forall name, name ∉ repos.*1 -> m !! name = env_files !! name)
    /\ (NoDup repos.*1 -> forall name repo text, (name, repo) ∈ repos ->
          env_file values name repo = Ok text -> m !! name = Some text).
Proof.
  revert env_files. induction repos as [|[n r] repos IH]; intros env_files Hall.
  - exists env_files. split; [reflexivity|]. split; [done|].
    intros _ name repo text Hin. by apply elem_of_nil in Hin.
  - destruct (Hall n r) as [t Ht]; [by left|].
    destruct (IH (<[n:=t]> env_files)) as (m & Hm & Hout & Hin).
    { intros name repo Hel. apply Hall. by right. }
    exists m. cbn [env_files_loop]. rewrite Ht. cbn [mbind result_bind].
    split; [exact Hm|]. split.
    + intros name Hname. cbn in Hname. apply not_elem_of_cons in Hname as [Hne Hname].
      rewrite (Hout _ Hname). by rewrite lookup_insert_ne.
    + intros Hnd name repo text Hel Hfile. cbn in Hnd.
      apply NoDup_cons in Hnd as [Hfresh Hnd].
      apply elem_of_cons in Hel as [Heq|Hel].
      * injection Heq as -> ->. rewrite (Hout _ Hfresh), lookup_insert_eq.
        congruence.
      * by apply (Hin Hnd name repo).
Qed.

(** When the loop returns, every directive it met produced its text. *)
Lemma export_lines_ok_inv (vars : list string) (text out : string) :
  export_lines values text vars = Ok out ->
  forall env_var, env_var ∈ vars -> exists l, export_line values env_var = Ok l.
Proof.
  revert text. induction vars as [|v vars IH]; intros text Hok env_var Hel.
  - by apply elem_of_nil in Hel.
  - cbn [export_lines] in Hok.
    destruct (export_line values v) as [l|key] eqn:Hv; [|discriminate].
    cbn [mbind result_bind] in Hok.
    apply elem_of_cons in Hel as [->|Hel]; [by exists l|].
    by apply (IH _ Hok).
Qed.

Lemma env_files_loop_ok_inv (repos : list (string * RepositoryConfig))
    (env_files m : gmap string string) :
  env_files_loop values env_files repos = Ok m ->
  forall name repo env_var, (name, repo) ∈ repos -> env_var ∈ env_vars repo ->
    exists l, export_line values env_var = Ok l.
Proof.
  revert env_files. induction repos as [|[n r] repos IH]; intros env_files Hok name repo env_var Hel Hvar.
  - by apply elem_of_nil in Hel.
  - cbn [env_files_loop] in Hok.
    destruct (env_file values n r) as [t|key] eqn:Ht; [|discriminate].
    cbn [mbind result_bind] in Hok.
    apply elem_of_cons in Hel as [Heq|Hel].
    + injection Heq as -> ->. unfold env_file in Ht.
      by apply (export_lines_ok_inv _ _ _ Ht).
    + by apply (IH _ Hok name repo).
Qed.

(** A [KeyError] names a key that the secret source does not bind. *)
Lemma export_line_key_error (env_var key : string) :
  export_line values env_var = KeyError key -> values !! key = None.
Proof.
  unfold export_line. destruct (split ":" env_var) as [|prefix rest]; [discriminate|].
  destruct (String.eqb prefix "plain"); [discriminate|].
  destruct (String.eqb prefix "env"); [|discriminate].
  destruct rest as [|src [|dst [|? ?]]]; try discriminate;
    unfold getitem; destruct (values !! src) eqn:E; cbn; try discriminate;
    intros [= <-]; exact E.
Qed.

Lemma export_lines_key_error (vars : list string) (text key : string) :
  export_lines values text vars = KeyError key -> values !! key = None.
Proof.
  revert text. induction vars as [|v vars IH]; intros text; cbn [export_lines]; [discriminate|].
  destruct (export_line values v) as [l|k] eqn:Hv; cbn [mbind result_bind].
  - apply IH.
  - intros [= <-]. by apply (export_line_key_error v).
Qed.

Lemma env_files_loop_key_error (repos : list (string * RepositoryConfig))
    (env_files : gmap string string) (key : string) :
  env_files_loop values env_files repos = KeyError key -> values !! key = None.
Proof.
  revert env_files. induction repos as [|[n r] repos IH]; intros env_files;
    cbn [env_files_loop]; [discriminate|].
  destruct (env_file values n r) as [t|k] eqn:Ht; cbn [mbind result_bind].
  - apply IH.
  - intros [= <-]. unfold env_file in Ht. by apply (export_lines_key_error _ _ _ Ht).
Qed.

End EnvFiles.

Section EnvFilesClaims.

Import Str GenerateScript Directive.

Lemma export_line_skipped (values : gmap string (option string)) (env_var : string) :
  skipped env_var -> export_line values env_var = Ok EmptyString.
Proof.
  unfold skipped, export_line.
  destruct (split ":" env_var) as [|prefix rest]; [done|].
  intros [[Hplain Henv]|[-> Hlen]].
  - apply String.eqb_neq in Hplain, Henv. by rewrite Hplain, Henv.
  - cbn [String.eqb Ascii.eqb Bool.eqb].
    destruct rest as [|a [|b [|c rest]]]; cbn in Hlen; try lia. reflexivity.
Qed.

Lemma export_lines_skipped (values : gmap string (option string))
    (vars1 vars2 : list string) (env_var text : string) :
  skipped env_var ->
  export_lines values text (vars1 ++ env_var :: vars2)
  = export_lines values text (vars1 ++ vars2).
Proof.
  intros Hskip. revert text. induction vars1 as [|v vars1 IH]; intros text.
  - cbn [app export_lines]. rewrite (export_line_skipped _ _ Hskip).
    cbn [mbind result_bind]. by rewrite append_nil_r.
  - cbn [app export_lines]. destruct (export_line values v); cbn [mbind result_bind];
      [apply IH|reflexivity].
Qed.

Lemma env_files_loop_skipped (values : gmap string (option string))
    (rs1 rs2 : list (string * RepositoryConfig)) (name : string)
    (repo : RepositoryConfig) (vars1 vars2 : list string) (env_var : string)
    (env_files : gmap string string) :
  skipped env_var ->
  env_files_loop values env_files
    (rs1 ++ (name, with_env_vars repo (vars1 ++ env_var :: vars2)) :: rs2)
  = env_files_loop values env_files
    (rs1 ++ (name, with_env_vars repo (vars1 ++ vars2)) :: rs2).
Proof.
  intros Hskip. revert env_files. induction rs1 as [|[n r] rs1 IH]; intros env_files.
  - cbn [app env_files_loop]. unfold env_file. cbn [with_env_vars env_vars endpoint].
    by rewrite (export_lines_skipped _ _ _ _ _ Hskip).
  - cbn [app env_files_loop]. destruct (env_file values n r); cbn [mbind result_bind];
      [apply IH|reflexivity].
Qed.

(** C6. For a dictionary of repositories whose directives all have one of
    the forms [plain:LITERAL], [env:SRC] and [env:SRC:DST] with every [SRC]
    bound in the secret source, [generate_env_files] returns, and the secret
    file of each repository is the two header lines followed by one line per
    directive in declared order: [export LITERAL] (the text after [plain:]
    taken as it is, colons included), [export SRC=<value>] and
    [export DST=<value>]. *)
Theorem generate_env_files_export_lines (w : World) (agent : AgentConfig) :
  NoDup (repositories agent).*1 ->
  (forall name repo, (name, repo) ∈ repositories agent ->
     exists ds, declares (env_values w) repo ds) ->
  exists m, generate_env_files w agent = Ok m
    /\ forall name repo ds,
         (name, repo) ∈ repositories agent -> declares (env_values w) repo ds ->
         m !! name
         = Some (file_header name repo +:+ expected_lines (env_values w) ds).
Proof.
  intros Hnd Hall. unfold generate_env_files.
  destruct (env_files_loop_ok (env_values w) (repositories agent) ∅)
    as (m & Hm & _ & Hin).
  { intros name repo Hel. destruct (Hall name repo Hel) as [ds Hds].
    eexists. by apply env_file_expected. }
  exists m. split; [exact Hm|].
  intros name repo ds Hel Hds. apply (Hin Hnd name repo); [exact Hel|].
  by apply env_file_expected.
Qed.

(** C10. A directive whose prefix is neither [plain] nor [env], and an
    [env:] directive with more than two components after the prefix, adds
    nothing to the secret file and raises nothing: the generator returns
    what it returns for the same configuration without that directive. *)
Theorem skipped_directive_emits_nothing (w : World) (agent agent' : AgentConfig)
    (rs1 rs2 : list (string * RepositoryConfig)) (name : string)
    (repo : RepositoryConfig) (vars1 vars2 : list string) (env_var : string) :
  skipped env_var ->
  repositories agent
  = rs1 ++ (name, with_env_vars repo (vars1 ++ env_var :: vars2)) :: rs2 ->
  repositories agent'
  = rs1 ++ (name, with_env_vars repo (vars1 ++ vars2)) :: rs2 ->
  export_line (env_values w) env_var = Ok EmptyString
  /\ generate_env_files w agent = generate_env_files w agent'.
Proof.
  intros Hskip Hagent Hagent'. split; [by apply export_line_skipped|].
  unfold generate_env_files. rewrite Hagent, Hagent'.
  by apply env_files_loop_skipped.
Qed.

(** C2. When a repository has a directive [env:SRC] or [env:SRC:DST] and
    the secret source does not bind [SRC], [generate_env_files] raises
    [KeyError] on a key that the secret source does not bind; it returns no
    secret file. *)
Theorem unresolved_env_source_raises (w : World) (agent : AgentConfig)
    (name : string) (repo : RepositoryConfig) (src : string) :
  (name, repo) ∈ repositories agent ->
  has_char ":" src = false ->
  (directive_text (Env src) ∈ env_vars repo
   \/ exists dst, has_char ":" dst = false
        /\ directive_text (EnvAs src dst) ∈ env_vars repo) ->
  env_values w !! src = None ->
  exists key, generate_env_files w agent = KeyError key
    /\ env_values w !! key = None.
Proof.
  intros Hrepo Hsrc Hdir Hnone. unfold generate_env_files.
  destruct (env_files_loop (env_values w) ∅ (repositories agent)) as [m|key] eqn:Hloop.
  - exfalso.
    assert (exists env_var, env_var ∈ env_vars repo
              /\ export_line (env_values w) env_var = KeyError src)
      as (env_var & Hel & Herr).
    { destruct Hdir as [Hel|(dst & Hdst & Hel)].
      - eexists. split; [exact Hel|]. cbn [directive_text].
        rewrite (export_line_env _ _ Hsrc). unfold getitem. by rewrite Hnone.
      - eexists. split; [exact Hel|]. cbn [directive_text].
        rewrite (export_line_env_as _ _ _ Hsrc Hdst). unfold getitem. by rewrite Hnone. }
    destruct (env_files_loop_ok_inv _ _ _ _ Hloop name repo env_var Hrepo Hel) as [l Hl].
    congruence.
  - exists key. split; [reflexivity|]. by apply (env_files_loop_key_error _ _ _ _ Hloop).
Qed.

End EnvFilesClaims.

Section EnvFilesWitnesses.

Import Str GenerateScript Directive.

Lemma generate_env_files_export_lines_witness :
  NoDup (repositories Sample.a1).*1
  /\ exists m, generate_env_files Sample.world Sample.a1 = Ok m
       /\ forall name repo ds,
            (name, repo) ∈ repositories Sample.a1 ->
            declares (env_values Sample.world) repo ds ->
            m !! name
            = Some (file_header name repo
                    +:+ expected_lines (env_values Sample.world) ds).
Proof.
  assert (Hnd : NoDup (repositories Sample.a1).*1).
  { apply (bool_decide_unpack _). vm_compute. exact I. }
  split; [exact Hnd|].
  apply (generate_env_files_export_lines Sample.world Sample.a1 Hnd).
  intros name repo Hel.
  apply elem_of_cons in Hel as [Heq|Hel].
  - injection Heq as -> ->.
    exists [Plain "RESTIC_PASSWORD=a:b"; Env "B2_KEY"; EnvAs "B2_KEY" "AWS_SECRET_ACCESS_KEY"].
    split; [reflexivity|]. split.
    + repeat constructor.
    + repeat constructor; exists "s3cr3t"; reflexivity.
  - apply list_elem_of_singleton in Hel. injection Hel as -> ->.
    exists []. split; [reflexivity|]. split; constructor.
Defined.

Lemma skipped_directive_emits_nothing_witness :
  skipped "env:a:b:c"
  /\ skipped "backup:x"
  /\ export_line (env_values Sample.world) "env:a:b:c" = Ok EmptyString
  /\ generate_env_files Sample.world
       (Sample.with_repositories Sample.a1
          [("r1", with_env_vars Sample.r1 (["plain:A=1"] ++ "env:a:b:c" :: ["env:B2_KEY"]))])
     = generate_env_files Sample.world
       (Sample.with_repositories Sample.a1
          [("r1", with_env_vars Sample.r1 (["plain:A=1"] ++ ["env:B2_KEY"]))]).
Proof.
  assert (H1 : skipped "env:a:b:c").
  { right. split; [reflexivity|]. cbn. lia. }
  assert (H2 : skipped "backup:x").
  { left. split; discriminate. }
  split; [exact H1|]. split; [exact H2|].
  apply (skipped_directive_emits_nothing Sample.world _ _ [] [] "r1" Sample.r1
           ["plain:A=1"] ["env:B2_KEY"] "env:a:b:c" H1); reflexivity.
Defined.

Lemma unresolved_env_source_raises_witness :
  env_values Sample.world !! "MISSING" = None
  /\ exists key,
       generate_env_files Sample.world
         (Sample.with_repositories Sample.a1
            [("r1", with_env_vars Sample.r1 ["plain:A=1"; "env:MISSING:NAME"])])
       = KeyError key
       /\ env_values Sample.world !! key = None.
Proof.
  assert (H : env_values Sample.world !! "MISSING" = None) by reflexivity.
  split; [exact H|].
  apply (unresolved_env_source_raises Sample.world _ "r1"
           (with_env_vars Sample.r1 ["plain:A=1"; "env:MISSING:NAME"]) "MISSING").
  - apply list_elem_of_singleton. reflexivity.
  - reflexivity.
  - right. exists "NAME". split; [reflexivity|].
    cbn. apply elem_of_cons. right. apply list_elem_of_singleton. reflexivity.
  - exact H.
Defined.

End EnvFilesWitnesses.

(** ** The backup script *)

Section BackupScript.

Import Str GenerateScript Script.





End BackupScript.

Section BackupScriptClaims.

Import Str GenerateScript Script.


(** The block that the code writes for a repository is the block of the
    specification, with the retention step that [retention] gives. *)
Lemma generate_repository_script_block (agent : AgentConfig) (repo_name : string)
    (repo : RepositoryConfig) :
  generate_repository_script agent repo_name repo = block agent repo_name repo.
Proof.
  unfold generate_repository_script, block, retention, start_marker, source_step,
    init_step, backup_step, forget_step, end_marker.
  destruct (forget_arguments repo) as [[|c args]|]; cbn [truthy_str str_of_optional];
    rewrite ?append_nil_l, !append_assoc; reflexivity.
Qed.

(** C4, as the code has it. The script is the preamble, then one block per
    repository and nothing else, in the order of the dictionary, then the
    postamble; each block opens with [# START <name>], closes with
    [# END <name>], and holds between the backup step and the end marker the
    retention step, which is there if and only if [forget_arguments] is a
    string that is not empty. *)
Theorem repository_blocks_in_order (w : World) (agent : AgentConfig) :
  generate_script w agent
  = preamble w agent
    +:+ join EmptyString
          (map (fun '(repo_name, repo) => block agent repo_name repo) (repositories agent))
    +:+ postamble agent
  /\ forall repo : RepositoryConfig,
       ((exists args, retention repo = "restic forget " +:+ args +:+ " --prune" +:+ nl)
        <-> (exists args, forget_arguments repo = Some args /\ args <> EmptyString))
       /\ (retention repo = EmptyString
           <-> ~ (exists args, forget_arguments repo = Some args /\ args <> EmptyString)).
Proof.
  split.
  - unfold generate_script, repository_scripts, preamble, postamble, joined_commands.
    rewrite (map_ext _ (fun '(repo_name, repo) => block agent repo_name repo));
      [|intros [n r]; apply generate_repository_script_block].
    rewrite !append_assoc. reflexivity.
  - intros repo. unfold retention.
    destruct (forget_arguments repo) as [[|c args]|].
    + split; split.
      * intros [args [=]].
      * intros (args & [= <-] & Hne). by destruct Hne.
      * intros _ (args & [= <-] & Hne). by destruct Hne.
      * reflexivity.
    + split; split.
      * intros _. by exists (String c args).
      * intros _. by exists (String c args).
      * discriminate.
      * intros H. destruct H. by exists (String c args).
    + split; split.
      * intros [args [=]].
      * intros (args & [=] & _).
      * intros _ (args & [=] & _).
      * reflexivity.
Qed.

(** C4, as stated, fails: a repository whose [forget_arguments] is set to
    the empty string gets the block of a repository without
    [forget_arguments], with no retention step. *)
Lemma empty_forget_arguments_no_retention :
  forget_arguments Variant.r3 = Some EmptyString
  /\ generate_repository_script Variant.a3 "r3" Variant.r3
     = "# START r3" +:+ nl +:+
       "source /opt/multi-restic/.env.r3" +:+ nl +:+
       nl +:+
       "if ! restic cat config >/dev/null 2>&1; then" +:+ nl +:+
       "    # Restic automatically does `mkdir -p` if necessary" +:+ nl +:+
       "    restic init" +:+ nl +:+
       "fi" +:+ nl +:+
       nl +:+
       "restic backup www db" +:+ nl +:+
       "# END r3" +:+ nl
  /\ contains "restic forget" (generate_script Sample.world Variant.a3) = false.
Proof. repeat split; vm_compute; reflexivity. Qed.



End BackupScriptClaims.

(** ** The [check] command *)

Section CheckClaims.

Import Str Check Probe.

Lemma commands_app (evs1 evs2 : list event) :
  commands (evs1 ++ evs2) = commands evs1 ++ commands evs2.
Proof.
  induction evs1 as [|[c|m] evs1 IH]; cbn [app commands]; [reflexivity| |exact IH].
  by rewrite IH.
Qed.

Lemma logged_app (evs1 evs2 : list event) :
  logged (evs1 ++ evs2) = logged evs1 ++ logged evs2.
Proof.
  induction evs1 as [|[c|m] evs1 IH]; cbn [app logged]; [reflexivity|exact IH|].
  by rewrite IH.
Qed.

Lemma check_agents_app (connect_ssh : AgentConfig -> option Host)
    (before after : list (string * AgentConfig)) :
  check_agents connect_ssh (before ++ after)
  = check_agents connect_ssh before ++ check_agents connect_ssh after.
Proof.
  induction before as [|[n a] before IH]; cbn [app check_agents]; [reflexivity|].
  by rewrite IH, (assoc_L (++)).
Qed.

(** C3, at the failing input: [restic] is on the search path of the host
    ([restic version] exits with 0) and not in the install location. [check]
    sends [/opt/multi-restic/restic version] twice, never [restic version],
    and logs that restic is unavailable. *)
Theorem check_misses_restic_on_path :
  restic_on_path "restic version" = Exit 0 "restic 0.18.1"
  /\ check (fun _ => Some restic_on_path) [("a1", Sample.a1)]
     = [Log CheckingAgents;
        Log (Connected "a1" "192.0.2.10" "22" "root");
        Exec "ls /opt/multi-restic/backup.sh";
        Log (NotInstalled "a1");
        Exec "crontab -l";
        Log CrontabAvailable;
        Exec "/opt/multi-restic/restic version";
        Exec "/opt/multi-restic/restic version";
        Log (ResticUnavailable "/opt/multi-restic");
        Exec "test -e /srv";
        Log (BackupRootExists "/srv");
        Exec "test -e /srv/www";
        Log (PathExists "/srv/www");
        Exec "test -e /srv/db";
        Log (PathMissing "/srv/db")].
Proof. split; vm_compute; reflexivity. Qed.

(** C8. When the test of [backup_root] exits with a status other than 0
    on an agent that answered the probes before it, the commands sent to that
    agent are the probes and the test of [backup_root], and no more: no path
    of [to_backup] is tested and no line about one is logged; the turn ends
    on the line that reports the missing root, without the line of a caught
    exception; and [check] goes on with the agents that follow. *)
Theorem check_skips_paths_without_backup_root
    (connect_ssh : AgentConfig -> option Host)
    (before after : list (string * AgentConfig))
    (agent_name : string) (agent_data : AgentConfig) (host : Host)
    (status : Z) (out : string) :
  let install_location := get_install_location agent_data in
  let ls := "ls " +:+ install_location +:+ "/backup.sh" in
  let restic := install_location +:+ "/restic version" in
  let test := "test -e " +:+ backup_root agent_data in
  connect_ssh agent_data = Some host ->
  answered host ls -> answered host "crontab -l" -> answered host restic ->
  host test = Exit status out -> status <> 0%Z ->
  let evs := check_agent connect_ssh agent_name agent_data in
  (commands evs = [ls; "crontab -l"; restic; test]
   \/ commands evs = [ls; "crontab -l"; restic; restic; test])
  /\ filter about_path (logged evs) = []
  /\ (FailedToConnect agent_name ∉ logged evs)
  /\ last evs = Some (Log (BackupRootMissing (backup_root agent_data)))
  /\ check connect_ssh (before ++ (agent_name, agent_data) :: after)
     = check connect_ssh before ++ evs ++ check_agents connect_ssh after.
Proof.
  intros install_location ls restic test Hconnect
    (s1 & o1 & Hls) (s2 & o2 & Hcron) (s3 & o3 & Hrestic) Htest Hstatus evs.
  assert (Hevs : exists installed has_crontab found,
    evs = [Log (Connected agent_name (ip agent_data)
                  (default "22" (ssh_port agent_data))
                  (default "root" (ssh_user agent_data)));
           Exec ls; Log installed; Exec "crontab -l"; Log has_crontab; Exec restic]
          ++ found ++ [Exec test; Log (BackupRootMissing (backup_root agent_data))]
    /\ about_path installed = false /\ about_path has_crontab = false
    /\ installed <> FailedToConnect agent_name
    /\ has_crontab <> FailedToConnect agent_name
    /\ (found = [Log (ResticInPath (strip o3))]
        \/ found = [Exec restic; Log (ResticUnavailable install_location)])).
  { subst evs. unfold check_agent. rewrite Hconnect.
    unfold check_session, bind, exec_cmd, bind, exec_command, info, ret.
    fold install_location. fold ls. fold restic. fold test.
    rewrite Hls, Hcron, Hrestic, Htest.
    apply Z.eqb_neq in Hstatus. rewrite Hstatus.
    exists (if (s1 =? 0)%Z then AlreadyInstalled else NotInstalled agent_name),
           (if (s2 =? 0)%Z then CrontabAvailable else CrontabUnavailable).
    destruct (s3 =? 0)%Z eqn:Hs3.
    - exists [Log (ResticInPath (strip o3))]. split; [reflexivity|].
      split_and!; try (by case_match); by left.
    - rewrite Hrestic, Hs3.
      exists [Exec restic; Log (ResticUnavailable install_location)].
      split; [reflexivity|].
      split_and!; try (by case_match); by right. }
  split_and!; [| | | |unfold check; rewrite check_agents_app; reflexivity].
  all: destruct Hevs as (installed & has_crontab & found & Hevs & Hp1 & Hp2 & Hf1 & Hf2 & Hfound).
  all: rewrite Hevs; clear Hevs evs.
  - destruct Hfound as [->| ->]; cbn; auto.
  - destruct Hfound as [->| ->]; cbn; rewrite ?Hp1, ?Hp2; cbn; rewrite ?Hp1, ?Hp2; reflexivity.
  - intros Hel.
    destruct Hfound as [->| ->]; cbn in Hel;
      repeat (apply elem_of_cons in Hel as [Heq|Hel]; [try discriminate; congruence|]);
      by apply elem_of_nil in Hel.
  - destruct Hfound as [->| ->]; reflexivity.
Qed.

End CheckClaims.

Section CheckWitnesses.

Import Str Check Probe.

Lemma check_skips_paths_without_backup_root_witness :
  no_backup_root "test -e /srv" = Exit 1 EmptyString
  /\ let evs := check_agent (fun _ => Some no_backup_root) "a1" Sample.a1 in
     (commands evs
      = ["ls /opt/multi-restic/backup.sh"; "crontab -l";
         "/opt/multi-restic/restic version"; "test -e /srv"]
      \/ commands evs
         = ["ls /opt/multi-restic/backup.sh"; "crontab -l";
            "/opt/multi-restic/restic version"; "/opt/multi-restic/restic version";
            "test -e /srv"])
     /\ filter about_path (logged evs) = []
     /\ (FailedToConnect "a1" ∉ logged evs)
     /\ last evs = Some (Log (BackupRootMissing "/srv"))
     /\ check (fun _ => Some no_backup_root) ([] ++ ("a1", Sample.a1) :: [("a2", Sample.a1)])
        = check (fun _ => Some no_backup_root) [] ++ evs
          ++ check_agents (fun _ => Some no_backup_root) [("a2", Sample.a1)].
Proof.
  split; [reflexivity|].
  apply (check_skips_paths_without_backup_root (fun _ => Some no_backup_root)
           [] [("a2", Sample.a1)] "a1" Sample.a1 no_backup_root 1 EmptyString).
  - reflexivity.
  - exists 1%Z, EmptyString. reflexivity.
  - exists 0%Z, EmptyString. reflexivity.
  - exists 0%Z, "restic 0.18.1". reflexivity.
  - reflexivity.
  - discriminate.
Defined.

End CheckWitnesses.

Section CheckGeneral.

Import Str Check Probe.

(** The loop over [to_backup] only adds events. *)
Lemma check_paths_extends (host : Host) (backup_root : string)
    (items : list string) (evs : list event) :
  exists res more, check_paths backup_root items host evs = (res, evs ++ more).
Proof.
  revert evs. induction items as [|item items IH]; intros evs.
  - exists (Some tt), []. cbn. by rewrite app_nil_r.
  - cbn [check_paths]. unfold bind, exec_cmd, bind, exec_command, info, ret.
    destruct (host ("test -e " +:+ backup_root +:+ "/" +:+ item)) as [status out|].
    + match goal with
      | |- context [check_paths _ _ _ ?evs'] =>
          destruct (IH evs') as (res & more & ->)
      end.
      eexists res, _. by rewrite <- !(assoc_L (++)).
    + by eexists None, _.
Qed.

(** Whatever the host answers to [restic version], [check] reports restic
    as unavailable when the probe in the install location fails. *)
Lemma check_reports_by_install_location_only
    (connect_ssh : AgentConfig -> option Host)
    (agent_name : string) (agent_data : AgentConfig) (host : Host)
    (status : Z) (out : string) :
  let install_location := get_install_location agent_data in
  connect_ssh agent_data = Some host ->
  answered host ("ls " +:+ install_location +:+ "/backup.sh") ->
  answered host "crontab -l" ->
  host (install_location +:+ "/restic version") = Exit status out ->
  status <> 0%Z ->
  Log (ResticUnavailable install_location)
    ∈ check_agent connect_ssh agent_name agent_data.
Proof.
  intros install_location Hconnect (s1 & o1 & Hls) (s2 & o2 & Hcron) Hrestic Hstatus.
  unfold check_agent. rewrite Hconnect.
  unfold check_session, bind, exec_cmd, bind, exec_command, info, ret.
  fold install_location. rewrite Hls, Hcron, Hrestic.
  apply Z.eqb_neq in Hstatus. rewrite Hstatus, Hrestic, Hstatus.
  destruct (host ("test -e " +:+ backup_root agent_data)) as [s4 o4|].
  - destruct (s4 =? 0)%Z.
    + match goal with
      | |- context [check_paths ?root ?items ?h ?evs'] =>
          destruct (check_paths_extends h root items evs') as (res & more & ->)
      end.
      destruct res; rewrite ?elem_of_app; repeat (left; try (cbn; set_solver)).
    + cbn. set_solver.
  - cbn. set_solver.
Qed.

End CheckGeneral.

(** ** The host of the cron scheduler *)

Section Shell.

Import Str Schedule.

Lemma rev_app_append (a b c : string) :
  String.rev_app (a +:+ b) c = String.rev_app b (String.rev_app a c).
Proof.
  revert c. induction a as [|x a IH]; intros c; [reflexivity|].
  rewrite append_cons. cbn [String.rev_app]. apply IH.
Qed.

Lemma rev_app_rev_app (a b c : string) :
  String.rev_app (String.rev_app a b) c = String.rev_app b (a +:+ c).
Proof.
  revert b c. induction a as [|x a IH]; intros b c; [reflexivity|].
  cbn [String.rev_app]. rewrite IH. reflexivity.
Qed.

Lemma rev_involutive (s : string) : String.rev (String.rev s) = s.
Proof. unfold String.rev. rewrite rev_app_rev_app. cbn. apply append_nil_r. Qed.

Lemma rev_app_spec (a c : string) : String.rev_app a c = String.rev a +:+ c.
Proof.
  unfold String.rev. revert c. induction a as [|x a IH]; intros c; [reflexivity|].
  cbn [String.rev_app]. rewrite IH, (IH (String x EmptyString)).
  by rewrite append_assoc.
Qed.

Lemma rev_append (a b : string) :
  String.rev (a +:+ b) = String.rev b +:+ String.rev a.
Proof. unfold String.rev at 1. rewrite rev_app_append. apply rev_app_spec. Qed.

Lemma strip_prefix_app (p s : string) : strip_prefix p (p +:+ s) = Some s.
Proof.
  induction p as [|c p IH]; [by destruct s|].
  rewrite append_cons. cbn [strip_prefix]. by rewrite Ascii.eqb_refl.
Qed.

Lemma strip_suffix_app (p s : string) : strip_suffix p (s +:+ p) = Some s.
Proof.
  unfold strip_suffix. rewrite rev_append, strip_prefix_app. cbn.
  by rewrite rev_involutive.
Qed.

Lemma installed_text_echo (text : string) :
  installed_text ("echo " +:+ char DQUOTE +:+ text +:+ char DQUOTE +:+ " | crontab -")
  = Some text.
Proof.
  unfold installed_text.
  rewrite <- (append_assoc "echo " (char DQUOTE)), strip_prefix_app. cbn [mbind option_bind].
  apply strip_suffix_app.
Qed.

(** [crontab -l] prints the crontab and changes nothing. *)
Lemma exec_crontab_l (r : Remote) :
  exec_command "crontab -l 2>/dev/null" r
  = Some ({| exit_status := 0; stdout := crontab r |}, r).
Proof. reflexivity. Qed.

(** [echo "<text>" | crontab -] installs [text] and a line feed. *)
Lemma exec_echo_crontab (text : string) (r : Remote) :
  echo_literal text = true ->
  crontab_accepts r (text +:+ nl) = true ->
  exec_command ("echo " +:+ char DQUOTE +:+ text +:+ char DQUOTE +:+ " | crontab -") r
  = Some ({| exit_status := 0; stdout := EmptyString |},
          {| crontab := text +:+ nl; crontab_accepts := crontab_accepts r |}).
Proof.
  intros Hlit Hacc. unfold exec_command.
  rewrite installed_text_echo, Hlit, Hacc. reflexivity.
Qed.

End Shell.

(** ** Lines and trailing whitespace *)

Section Lines.

Import Str Crontab.

Lemma linebreak_is_space (c : ascii) : is_linebreak c = true -> is_space c = true.
Proof. destruct c as [[] [] [] [] [] [] [] []]; vm_compute; congruence. Qed.

Lemma rstrip_cons (c : ascii) (r : string) :
  rstrip (String c r)
  = match rstrip r with
    | EmptyString => if is_space c then EmptyString else char c
    | String _ _ => String c (rstrip r)
    end.
Proof. cbn [rstrip]. by destruct (rstrip r). Qed.

Lemma rstrip_app (a b : string) :
  rstrip (a +:+ b)
  = match rstrip b with
    | EmptyString => rstrip a
    | String _ _ => a +:+ rstrip b
    end.
Proof.
  induction a as [|c a IH].
  - rewrite !append_nil_l. by destruct (rstrip b).
  - rewrite append_cons, !rstrip_cons, IH.
    destruct (rstrip b) as [|x b'] eqn:Hb; [reflexivity|].
    rewrite append_cons.
    by destruct (a +:+ String x b') eqn:Hab; [destruct a; discriminate|].
Qed.

Lemma rstrip_idemp (s : string) : rstrip (rstrip s) = rstrip s.
Proof.
  induction s as [|c r IH]; [reflexivity|].
  rewrite rstrip_cons. destruct (rstrip r) as [|x r'] eqn:Hr.
  - destruct (is_space c) eqn:Hc; [reflexivity|].
    unfold char. rewrite rstrip_cons. cbn [rstrip]. by rewrite Hc.
  - rewrite rstrip_cons, IH. reflexivity.
Qed.

Lemma rstrip_nl : rstrip nl = EmptyString.
Proof. reflexivity. Qed.

Lemma rstrip_app_nl (s : string) : rstrip (s +:+ nl) = rstrip s.
Proof. by rewrite rstrip_app, rstrip_nl. Qed.

Lemma strip_rstrip (s : string) : strip (rstrip s) = strip s.
Proof. unfold strip. by rewrite rstrip_idemp. Qed.

Lemma is_marker_rstrip (line : string) : is_marker (rstrip line) = is_marker line.
Proof. unfold is_marker. by rewrite strip_rstrip. Qed.

Lemma break_free_rstrip (s : string) : break_free s = true -> break_free (rstrip s) = true.
Proof.
  induction s as [|c r IH]; [reflexivity|].
  cbn [break_free]. intros [Hc Hr]%andb_true_iff. rewrite rstrip_cons.
  destruct (rstrip r) as [|x r'] eqn:E.
  - destruct (is_space c); [reflexivity|]. cbn. by rewrite Hc.
  - cbn [break_free]. rewrite Hc. exact (IH Hr).
Qed.

Lemma splitlines_cons_other (c : ascii) (r : string) :
  is_linebreak c = false ->
  splitlines (String c r)
  = match splitlines r with
    | [] => [char c]
    | l :: ls => String c l :: ls
    end.
Proof. intros Hc. cbn [splitlines]. by rewrite Hc. Qed.

Lemma splitlines_lf (r : string) :
  splitlines (String LF r) = EmptyString :: splitlines r.
Proof. by destruct r. Qed.

(** A line without boundary, a line feed, and the rest. *)
Lemma splitlines_line (line rest : string) :
  break_free line = true ->
  splitlines (line +:+ nl +:+ rest) = line :: splitlines rest.
Proof.
  induction line as [|c line IH].
  - intros _. apply splitlines_lf.
  - cbn [break_free]. intros [Hc Hl]%andb_true_iff. apply negb_true_iff in Hc.
    rewrite append_cons, (splitlines_cons_other _ _ Hc), (IH Hl). reflexivity.
Qed.

Lemma splitlines_unlines (lines : list string) :
  Forall (fun l => break_free l = true) lines -> splitlines (unlines lines) = lines.
Proof.
  induction 1 as [|l ls Hl Hls IH]; [reflexivity|].
  cbn [unlines]. by rewrite (splitlines_line _ _ Hl), IH.
Qed.

Lemma splitlines_break_free_bounded (n : nat) (s : string) :
  (String.length s <= n)%nat ->
  Forall (fun l => break_free l = true) (splitlines s).
Proof.
  revert s. induction n as [|n IH]; intros [|c r] Hlen; try constructor;
    cbn [String.length] in Hlen; [lia|].
  cbn [splitlines]. destruct (is_linebreak c) eqn:Hc.
  - destruct r as [|c' r']; [by repeat constructor|].
    cbn [String.length] in Hlen.
    destruct (Ascii.eqb c CR && Ascii.eqb c' LF); constructor; try reflexivity;
      apply IH; cbn [String.length]; lia.
  - assert (Hr := IH r ltac:(lia)).
    destruct (splitlines r) as [|l ls].
    + repeat constructor. cbn. by rewrite Hc.
    + inversion_clear Hr as [|? ? Hl Hls]. constructor; [|exact Hls].
      cbn. by rewrite Hc.
Qed.

(** The lines of a text have no boundary. *)
Lemma splitlines_break_free (s : string) :
  Forall (fun l => break_free l = true) (splitlines s).
Proof. by apply (splitlines_break_free_bounded (String.length s)). Qed.

Lemma unlines_app (ls1 ls2 : list string) :
  unlines (ls1 ++ ls2) = unlines ls1 +:+ unlines ls2.
Proof.
  induction ls1 as [|l ls1 IH]; [reflexivity|].
  cbn [app unlines]. by rewrite IH, !append_assoc.
Qed.

(** The text of lines without boundary has no boundary but the line feed. *)
Lemma lf_only_app (a b : string) :
  lf_only (a +:+ b) = lf_only a && lf_only b.
Proof.
  induction a as [|c a IH]; [reflexivity|].
  rewrite append_cons. cbn [lf_only]. by rewrite IH, andb_assoc.
Qed.

Lemma break_free_lf_only (s : string) : break_free s = true -> lf_only s = true.
Proof.
  induction s as [|c r IH]; [reflexivity|].
  cbn. intros [-> Hr]%andb_true_iff. by rewrite (IH Hr).
Qed.

Lemma splitlines_not_nil (c : ascii) (r : string) : splitlines (String c r) <> [].
Proof.
  cbn [splitlines]. destruct (is_linebreak c).
  - destruct r as [|c' r']; [discriminate|].
    destruct (Ascii.eqb c CR && Ascii.eqb c' LF); discriminate.
  - destruct (splitlines r); discriminate.
Qed.

(** A text that ends in a line feed and has no other boundary is the text
    of its lines. *)
Lemma unlines_splitlines (s : string) :
  lf_only s = true -> unlines (splitlines (s +:+ nl)) = s +:+ nl.
Proof.
  induction s as [|c r IH]; [reflexivity|].
  cbn [lf_only]. intros [Hc Hr]%andb_true_iff. rewrite append_cons.
  destruct (is_linebreak c) eqn:Hb.
  - cbn in Hc. apply Ascii.eqb_eq in Hc as ->.
    rewrite splitlines_lf. cbn [unlines]. by rewrite (IH Hr).
  - rewrite (splitlines_cons_other _ _ Hb). specialize (IH Hr).
    destruct (splitlines (r +:+ nl)) as [|l ls] eqn:E.
    + by destruct r.
    + cbn [unlines] in *. by rewrite append_cons, IH.
Qed.

End Lines.

(** ** The cron scheduler *)

Section Cron.

Import Str Schedule Crontab.

Lemma fold_remove_step (lines : list string) (new_crontab : string) (delete_next : bool) :
  fst (fold_left remove_step lines (new_crontab, delete_next))
  = new_crontab +:+ unlines (kept delete_next lines).
Proof.
  revert new_crontab delete_next.
  induction lines as [|line lines IH]; intros new_crontab delete_next.
  - cbn. by rewrite append_nil_r.
  - cbn [fold_left kept remove_step]. fold (is_marker line).
    destruct (is_marker line); [apply IH|].
    destruct delete_next; [apply IH|].
    rewrite IH. cbn [unlines]. by rewrite !append_assoc.
Qed.

Lemma kept_unmarked (lines : list string) :
  Forall unmarked lines -> kept false lines = lines.
Proof.
  induction 1 as [|l ls Hl Hls IH]; [reflexivity|].
  cbn [kept]. rewrite Hl. by rewrite IH.
Qed.

Lemma kept_app_unmarked (pre lines : list string) :
  Forall unmarked pre -> kept false (pre ++ lines) = pre ++ kept false lines.
Proof.
  induction 1 as [|l ls Hl Hls IH]; [reflexivity|].
  cbn [app kept]. rewrite Hl. by rewrite IH.
Qed.

Lemma kept_one_block (lines rest : list string) :
  one_block lines rest -> kept false lines = rest.
Proof.
  intros (pre & marker & job & post & -> & -> & Hm & Hj & Hpre & Hpost).
  rewrite (kept_app_unmarked _ _ Hpre). cbn [kept].
  rewrite Hm, Hj. by rewrite (kept_unmarked _ Hpost).
Qed.

Lemma one_block_unmarked (lines rest : list string) :
  one_block lines rest -> Forall unmarked rest.
Proof.
  intros (pre & marker & job & post & _ & -> & _ & _ & Hpre & Hpost).
  by apply Forall_app.
Qed.

Lemma one_block_break_free (text : string) (rest : list string) :
  one_block (splitlines text) rest -> Forall (fun l => break_free l = true) rest.
Proof.
  intros (pre & marker & job & post & Hlines & -> & _).
  assert (H := splitlines_break_free text). rewrite Hlines in H.
  apply Forall_app in H as [Hpre H]. apply Forall_app. split; [exact Hpre|].
  inversion_clear H as [|? ? _ H']. by inversion_clear H'.
Qed.

(** What [remove_schedule] writes back. *)
Lemma remove_schedule_writes (agent : AgentConfig) (r : Remote) :
  let text := rstrip (unlines (kept false (splitlines (crontab r)))) in
  echo_literal text = true ->
  crontab_accepts r (text +:+ nl) = true ->
  remove_schedule agent r
  = Some (Returned, {| crontab := text +:+ nl; crontab_accepts := crontab_accepts r |}).
Proof.
  intros text Hlit Hacc. unfold remove_schedule.
  rewrite exec_crontab_l. cbn [mbind option_bind stdout].
  assert (Hfold := fold_remove_step (splitlines (crontab r)) EmptyString false).
  destruct (fold_left remove_step (splitlines (crontab r)) (EmptyString, false))
    as [new_crontab d].
  cbn [fst] in Hfold. rewrite append_nil_l in Hfold. subst new_crontab. fold text.
  rewrite (exec_echo_crontab _ _ Hlit Hacc). reflexivity.
Qed.

(** The lines of a text that [remove_schedule] wrote: the lines it kept,
    cut at the trailing whitespace. *)
Lemma written_lines (lines : list string) :
  Forall (fun l => break_free l = true) lines ->
  Forall unmarked lines ->
  exists lines',
    splitlines (rstrip (unlines lines) +:+ nl) = lines'
    /\ unlines lines' = rstrip (unlines lines) +:+ nl
    /\ Forall unmarked lines'.
Proof.
  induction 1 as [|l ls Hl Hls IH]; intros Hun.
  - exists [EmptyString]. repeat split. by repeat constructor.
  - inversion_clear Hun as [|? ? Ul Uls]. destruct (IH Uls) as (ls' & Hsplit & Hun' & Hmark).
    cbn [unlines]. rewrite rstrip_app, (rstrip_app nl).
    destruct (rstrip (unlines ls)) as [|x t] eqn:Hr.
    + rewrite rstrip_nl. exists [rstrip l]. split; [|split].
      * rewrite <- (append_nil_r (rstrip l +:+ nl)), append_assoc.
        by rewrite (splitlines_line _ _ (break_free_rstrip _ Hl)).
      * cbn [unlines]. by rewrite append_nil_r.
      * repeat constructor. unfold unmarked. by rewrite is_marker_rstrip.
    + change (nl +:+ String x t) with (String LF (String x t)). cbv iota.
      change (String LF (String x t)) with (nl +:+ String x t).
      exists (l :: ls'). split; [|split].
      * rewrite !append_assoc. rewrite (splitlines_line _ _ Hl). by rewrite Hsplit.
      * cbn [unlines]. by rewrite Hun', !append_assoc.
      * by constructor.
Qed.

(** A text that [remove_schedule] wrote is left as it is by
    [remove_schedule]. *)
Lemma remove_schedule_again (agent : AgentConfig) (accepts : string -> bool)
    (lines : list string) :
  let text := rstrip (unlines lines) in
  let r' := {| crontab := text +:+ nl; crontab_accepts := accepts |} in
  Forall (fun l => break_free l = true) lines ->
  Forall unmarked lines ->
  echo_literal text = true ->
  accepts (text +:+ nl) = true ->
  remove_schedule agent r' = Some (Returned, r').
Proof.
  intros text r' Hbf Hun Hlit Hacc.
  destruct (written_lines lines Hbf Hun) as (lines' & Hsplit & Hun' & Hmark).
  assert (Htext : rstrip (unlines (kept false (splitlines (crontab r')))) = text).
  { cbn [crontab r']. fold text in Hsplit, Hun'.
    rewrite Hsplit, (kept_unmarked _ Hmark), Hun', rstrip_app_nl.
    apply rstrip_idemp. }
  assert (H := remove_schedule_writes agent r'). cbv zeta in H.
  rewrite Htext in H. by apply H.
Qed.

Lemma no_shell_special_app (a b : string) :
  no_shell_special (a +:+ b) = no_shell_special a && no_shell_special b.
Proof.
  induction a as [|c a IH]; [reflexivity|].
  rewrite append_cons. cbn [no_shell_special]. by rewrite IH, andb_assoc.
Qed.

Lemma rstrip_prefix (s : string) : exists t, s = rstrip s +:+ t.
Proof.
  induction s as [|c r [t IH]]; [by exists EmptyString|].
  rewrite rstrip_cons. destruct (rstrip r) as [|x r'] eqn:Hr.
  - destruct (is_space c); [by exists (String c r)|].
    exists t. rewrite append_nil_l in IH. by rewrite <- IH.
  - exists t. rewrite append_cons. by rewrite <- IH.
Qed.

(** The shell passes the stripped head of a text that it passes. *)
Lemma echo_literal_rstrip (s t : string) :
  echo_literal (s +:+ t) = true -> echo_literal (rstrip s) = true.
Proof.
  unfold echo_literal. rewrite no_shell_special_app.
  intros [[Hs _]%andb_true_iff Hdash]%andb_true_iff.
  destruct (rstrip_prefix s) as [u Hu]. rewrite Hu, no_shell_special_app in Hs.
  apply andb_true_iff in Hs as [Hs _]. rewrite Hs. cbn [andb].
  destruct (rstrip s) as [|x y]; [reflexivity|].
  rewrite Hu, !append_cons in Hdash. exact Hdash.
Qed.

(** What [add_schedule] writes back. *)
Lemma add_schedule_writes (agent : AgentConfig) (r : Remote) :
  let text := crontab r +:+ marker_line +:+ nl +:+ cron_command agent in
  echo_literal text = true ->
  crontab_accepts r (text +:+ nl) = true ->
  add_schedule agent r
  = Some (Returned, {| crontab := text +:+ nl; crontab_accepts := crontab_accepts r |}).
Proof.
  intros text Hlit Hacc. unfold add_schedule.
  rewrite exec_crontab_l. cbn [mbind option_bind stdout].
  fold marker_line. fold text.
  rewrite (exec_echo_crontab _ _ Hlit Hacc). reflexivity.
Qed.

Lemma break_free_app (a b : string) :
  break_free (a +:+ b) = break_free a && break_free b.
Proof.
  induction a as [|c a IH]; [reflexivity|].
  rewrite append_cons. cbn [break_free]. by rewrite IH, andb_assoc.
Qed.

Lemma break_free_cron_command (agent : AgentConfig) :
  break_free (get_install_location agent) = true ->
  break_free (cron_command agent) = true.
Proof.
  intros Hloc. unfold cron_command. rewrite !break_free_app, Hloc. reflexivity.
Qed.

(** The lines that [remove_schedule] keeps of a crontab that [add_schedule]
    extended. *)
Lemma kept_added (agent : AgentConfig) (lines : list string) :
  Forall unmarked lines ->
  kept false (lines ++ [marker_line; cron_command agent]) = lines.
Proof.
  intros Hun. rewrite (kept_app_unmarked _ _ Hun). cbn [kept].
  change (is_marker marker_line) with true. cbv iota.
  destruct (is_marker (cron_command agent)); by rewrite app_nil_r.
Qed.

End Cron.

Section CronClaims.

Import Str Schedule Crontab.

(** C1, as the code has it. Of a crontab whose lines hold one managed
    block, a marker line and the job line after it, [remove_schedule] writes
    back the other lines in order, each closed by a line feed, with the
    whitespace at the end of the text cut and one line feed after it; of a
    crontab without marker line it writes back all the lines in the same way;
    and [remove_schedule] leaves the text it wrote as it is. *)
Theorem remove_schedule_removes_block (agent : AgentConfig) (r : Remote)
    (rest : list string) :
  one_block (splitlines (crontab r)) rest \/ no_block (splitlines (crontab r)) rest ->
  let text := rstrip (unlines rest) in
  echo_literal text = true ->
  crontab_accepts r (text +:+ nl) = true ->
  exists r',
    remove_schedule agent r = Some (Returned, r')
    /\ crontab r' = text +:+ nl
    /\ remove_schedule agent r' = Some (Returned, r').
Proof.
  intros Hlines text Hlit Hacc.
  assert (Hkept : kept false (splitlines (crontab r)) = rest
                  /\ Forall unmarked rest
                  /\ Forall (fun l => break_free l = true) rest).
  { destruct Hlines as [Hone|[-> Hno]].
    - split; [by apply kept_one_block|].
      split; [by apply (one_block_unmarked _ _ Hone)|].
      by apply (one_block_break_free (crontab r)).
    - split; [by apply kept_unmarked|]. split; [exact Hno|].
      apply splitlines_break_free. }
  destruct Hkept as (Hkept & Hun & Hbf).
  exists {| crontab := text +:+ nl; crontab_accepts := crontab_accepts r |}.
  split; [|split; [reflexivity|]].
  - assert (H := remove_schedule_writes agent r). cbv zeta in H.
    rewrite Hkept in H. by apply H.
  - by apply (remove_schedule_again agent (crontab_accepts r) rest).
Qed.

(** C1, as stated, fails: of the crontab [spaced], whose lines before the
    managed block are a comment that ends in a space and an empty line,
    [remove_schedule] writes back the comment without the space and without
    the empty line. *)
Lemma remove_schedule_trims_kept_lines :
  one_block (splitlines spaced) ["# nightly jobs "; EmptyString]
  /\ remove_schedule Sample.a1 (host spaced)
     = Some (Returned, host ("# nightly jobs" +:+ nl))
  /\ splitlines ("# nightly jobs" +:+ nl) <> ["# nightly jobs "; EmptyString].
Proof.
  split; [|split].
  - exists ["# nightly jobs "; EmptyString], marker_line,
      "0 2 * * * /opt/multi-restic/backup.sh >> /opt/multi-restic/backup.log 2>&1", [].
    split; [reflexivity|]. split; [reflexivity|]. split; [reflexivity|].
    split; [reflexivity|]. split; repeat constructor.
  - vm_compute. reflexivity.
  - vm_compute. discriminate.
Qed.

(** C5, as the code has it. On a crontab that is the text of lines closed
    by line feeds, none of them a marker line, [add_schedule] and then
    [remove_schedule] leave the crontab with the whitespace at its end cut
    and one line feed after it. *)
Theorem add_then_remove_restores (agent : AgentConfig) (r : Remote)
    (lines : list string) :
  crontab r = unlines lines ->
  Forall (fun l => break_free l = true) lines ->
  Forall unmarked lines ->
  break_free (get_install_location agent) = true ->
  let added := crontab r +:+ marker_line +:+ nl +:+ cron_command agent in
  let restored := rstrip (crontab r) in
  echo_literal added = true ->
  crontab_accepts r (added +:+ nl) = true ->
  crontab_accepts r (restored +:+ nl) = true ->
  exists r1 r2,
    add_schedule agent r = Some (Returned, r1)
    /\ remove_schedule agent r1 = Some (Returned, r2)
    /\ crontab r2 = restored +:+ nl
    /\ rstrip (crontab r2) = rstrip (crontab r).
Proof.
  intros Hcrontab Hbf Hun Hloc added restored Hadded Hacc1 Hacc2.
  assert (Hrestored : echo_literal restored = true)
    by exact (echo_literal_rstrip _ _ Hadded).
  exists {| crontab := added +:+ nl; crontab_accepts := crontab_accepts r |},
         {| crontab := restored +:+ nl; crontab_accepts := crontab_accepts r |}.
  split; [by apply add_schedule_writes|].
  assert (Hlines : splitlines (added +:+ nl) = lines ++ [marker_line; cron_command agent]).
  { assert (added +:+ nl = unlines (lines ++ [marker_line; cron_command agent])) as ->.
    { unfold added. rewrite Hcrontab, unlines_app. cbn [unlines].
      by rewrite !append_assoc, append_nil_r. }
    apply splitlines_unlines. apply Forall_app. split; [exact Hbf|].
    repeat constructor. by apply break_free_cron_command. }
  split; [|split; [reflexivity|]].
  - assert (H := remove_schedule_writes agent
        {| crontab := added +:+ nl; crontab_accepts := crontab_accepts r |}).
    cbv zeta in H. cbn [crontab crontab_accepts] in H.
    rewrite Hlines, (kept_added _ _ Hun), <- Hcrontab in H. by apply H.
  - cbn [crontab]. rewrite rstrip_app_nl. apply rstrip_idemp.
Qed.

(** C5, as stated, fails: on the crontab that an earlier [add_schedule]
    left, [add_schedule] and then [remove_schedule] leave an empty line; the
    block that was there is gone. *)
Lemma add_then_remove_drops_earlier_block :
  exists r1,
    add_schedule Sample.a1 (host fresh_block) = Some (Returned, r1)
    /\ remove_schedule Sample.a1 r1 = Some (Returned, host nl)
    /\ chomp nl <> chomp fresh_block.
Proof.
  eexists. split; [vm_compute; reflexivity|].
  split; [vm_compute; reflexivity|]. vm_compute. discriminate.
Qed.

(** A last line without line feed is joined to the marker by
    [add_schedule], and goes with it in [remove_schedule]; and a space at the
    end of the last line does not come back. *)
Example add_then_remove_other_texts :
  (exists r1,
     add_schedule Sample.a1 (host "MAILTO=root") = Some (Returned, r1)
     /\ remove_schedule Sample.a1 r1 = Some (Returned, host nl))
  /\ (exists r1,
        add_schedule Sample.a1 (host ("MAILTO=root " +:+ nl)) = Some (Returned, r1)
        /\ remove_schedule Sample.a1 r1 = Some (Returned, host ("MAILTO=root" +:+ nl))).
Proof. split; eexists; split; vm_compute; reflexivity. Qed.

(** Lines closed by a carriage return and a line feed come back closed by
    a line feed alone: the crontab is not the one before [add_schedule] with
    the whitespace at its end cut. *)
Example add_then_remove_rewrites_crlf :
  exists r1,
    add_schedule Sample.a1
      (host ("MAILTO=root" +:+ char CR +:+ nl +:+
             "5 4 * * * /usr/local/bin/rotate" +:+ char CR +:+ nl))
    = Some (Returned, r1)
    /\ remove_schedule Sample.a1 r1
       = Some (Returned,
               host ("MAILTO=root" +:+ nl +:+ "5 4 * * * /usr/local/bin/rotate" +:+ nl)).
Proof. eexists; split; vm_compute; reflexivity. Qed.

End CronClaims.

Section CronWitnesses.

Import Str Schedule Crontab.

Lemma remove_schedule_removes_block_witness :
  one_block (splitlines (crontab (host managed)))
    ["MAILTO=root"; "5 4 * * * /usr/local/bin/rotate"]
  /\ exists r',
       remove_schedule Sample.a1 (host managed) = Some (Returned, r')
       /\ crontab r'
          = rstrip (unlines ["MAILTO=root"; "5 4 * * * /usr/local/bin/rotate"]) +:+ nl
       /\ remove_schedule Sample.a1 r' = Some (Returned, r').
Proof.
  assert (H : one_block (splitlines (crontab (host managed)))
                ["MAILTO=root"; "5 4 * * * /usr/local/bin/rotate"]).
  { exists ["MAILTO=root"; "5 4 * * * /usr/local/bin/rotate"], marker_line,
      "0 2 * * * /opt/multi-restic/backup.sh >> /opt/multi-restic/backup.log 2>&1", [].
    split; [reflexivity|]. split; [reflexivity|]. split; [reflexivity|].
    split; [reflexivity|]. split; repeat constructor. }
  split; [exact H|].
  apply (remove_schedule_removes_block Sample.a1 (host managed) _ (or_introl H));
    reflexivity.
Defined.

Lemma add_then_remove_restores_witness :
  crontab (host plain) = unlines ["MAILTO=root"; "5 4 * * * /usr/local/bin/rotate"]
  /\ exists r1 r2,
       add_schedule Sample.a1 (host plain) = Some (Returned, r1)
       /\ remove_schedule Sample.a1 r1 = Some (Returned, r2)
       /\ crontab r2 = rstrip (crontab (host plain)) +:+ nl
       /\ rstrip (crontab r2) = rstrip (crontab (host plain)).
Proof.
  split; [reflexivity|].
  apply (add_then_remove_restores Sample.a1 (host plain)
           ["MAILTO=root"; "5 4 * * * /usr/local/bin/rotate"]).
  - reflexivity.
  - repeat constructor.
  - repeat constructor.
  - reflexivity.
  - vm_compute. reflexivity.
  - reflexivity.
  - reflexivity.
Defined.

End CronWitnesses.

(** ** More on the secret files *)

Section EnvFilesMore.

Import Str GenerateScript Directive Lookup.

Variable values : gmap string (option string).

Lemma export_line_looked_up (env_var : string) :
  match looked_up env_var with
  | Some key =>
      match values !! key with
      | Some _ => exists l, export_line values env_var = Ok l
      | None => export_line values env_var = KeyError key
      end
  | None => exists l, export_line values env_var = Ok l
  end.
Proof.
  unfold looked_up, export_line.
  destruct (split ":" env_var) as [|prefix rest]; [by eexists|].
  destruct (String.eqb_spec prefix "env") as [->|Hne].
  - cbn [String.eqb Ascii.eqb Bool.eqb].
    destruct rest as [|src [|dst [|? ?]]]; try (by eexists);
      unfold getitem; destruct (values !! src); cbn; try reflexivity; by eexists.
  - destruct (String.eqb prefix "plain"); by eexists.
Qed.

Lemma export_lines_first_unbound (vars : list string) (text : string) :
  match first_unbound values (omap looked_up vars) with
  | Some key => export_lines values text vars = KeyError key
  | None => exists out, export_lines values text vars = Ok out
  end.
Proof.
  revert text. induction vars as [|v vars IH]; intros text; [by eexists|].
  cbn [omap list_omap export_lines]. assert (Hv := export_line_looked_up v).
  destruct (looked_up v) as [key|].
  - cbn [first_unbound]. destruct (values !! key).
    + destruct Hv as [l ->]. cbn [mbind result_bind]. apply IH.
    + by rewrite Hv.
  - destruct Hv as [l ->]. cbn [mbind result_bind]. apply IH.
Qed.

Lemma first_unbound_app (keys1 keys2 : list string) :
  first_unbound values (keys1 ++ keys2)
  = match first_unbound values keys1 with
    | Some key => Some key
    | None => first_unbound values keys2
    end.
Proof.
  induction keys1 as [|k keys1 IH]; [reflexivity|].
  cbn [app first_unbound]. by destruct (values !! k).
Qed.

Lemma env_files_loop_first_unbound (repos : list (string * RepositoryConfig))
    (env_files : gmap string string) :
  match first_unbound values (lookups repos) with
  | Some key => env_files_loop values env_files repos = KeyError key
  | None => exists m, env_files_loop values env_files repos = Ok m
  end.
Proof.
  revert env_files. induction repos as [|[n r] repos IH]; intros env_files; [by eexists|].
  cbn [lookups env_files_loop]. rewrite first_unbound_app. unfold env_file.
  match goal with
  | |- context [export_lines values ?t (env_vars r)] =>
      assert (Hr := export_lines_first_unbound (env_vars r) t)
  end.
  destruct (first_unbound values (omap looked_up (env_vars r))) as [key|].
  - by rewrite Hr.
  - destruct Hr as [out ->]. cbn [mbind result_bind]. apply IH.
Qed.

Lemma env_files_loop_all_ok (repos : list (string * RepositoryConfig))
    (env_files m : gmap string string) :
  env_files_loop values env_files repos = Ok m ->
  forall name repo, (name, repo) ∈ repos ->
    exists text, env_file values name repo = Ok text.
Proof.
  revert env_files. induction repos as [|[n r] repos IH]; intros env_files Hok name repo Hel.
  - by apply elem_of_nil in Hel.
  - cbn [env_files_loop] in Hok.
    destruct (env_file values n r) as [t|key] eqn:Ht; [|discriminate].
    cbn [mbind result_bind] in Hok.
    apply elem_of_cons in Hel as [Heq|Hel].
    + injection Heq as -> ->. by exists t.
    + by apply (IH _ Hok).
Qed.

Lemma env_files_loop_dom (repos : list (string * RepositoryConfig))
    (env_files m : gmap string string) :
  env_files_loop values env_files repos = Ok m ->
  forall name, is_Some (m !! name) <-> is_Some (env_files !! name) \/ name ∈ repos.*1.
Proof.
  revert env_files. induction repos as [|[n r] repos IH]; intros env_files Hok name.
  - injection Hok as <-. split; [by left|]. intros [H|H]; [done|].
    by apply elem_of_nil in H.
  - cbn [env_files_loop] in Hok.
    destruct (env_file values n r) as [t|key] eqn:Ht; [|discriminate].
    cbn [mbind result_bind] in Hok. rewrite (IH _ Hok name).
    cbn [fmap list_fmap fst]. rewrite elem_of_cons.
    destruct (decide (n = name)) as [->|Hne].
    + rewrite lookup_insert_eq. split; [intros _; right; by left|intros _; left; by eexists].
    + rewrite lookup_insert_ne by done. split; intros [H|H]; auto.
      destruct H as [H|H]; [by destruct Hne|auto].
Qed.

Lemma export_lines_extends (vars : list string) (text out : string) :
  export_lines values text vars = Ok out -> exists rest, out = text +:+ rest.
Proof.
  revert text. induction vars as [|v vars IH]; intros text; cbn [export_lines].
  - intros [= <-]. exists EmptyString. by rewrite append_nil_r.
  - destruct (export_line values v) as [l|key]; [|discriminate].
    cbn [mbind result_bind]. intros [rest ->]%IH.
    exists (l +:+ rest). by rewrite append_assoc.
Qed.

Lemma export_lines_contains (vars : list string) (text out env_var l : string) :
  export_lines values text vars = Ok out ->
  env_var ∈ vars -> export_line values env_var = Ok l ->
  exists a b, out = a +:+ l +:+ b.
Proof.
  revert text. induction vars as [|v vars IH]; intros text Hok Hel Hl.
  - by apply elem_of_nil in Hel.
  - cbn [export_lines] in Hok.
    destruct (export_line values v) as [l'|key] eqn:Hv; [|discriminate].
    cbn [mbind result_bind] in Hok.
    apply elem_of_cons in Hel as [->|Hel].
    + rewrite Hl in Hv. injection Hv as <-.
      apply export_lines_extends in Hok as [rest ->].
      exists text, rest. by rewrite append_assoc.
    + by apply (IH _ Hok).
Qed.

End EnvFilesMore.

Section EnvFilesMoreTheorems.

Import Str GenerateScript Directive Lookup.

(** X1: [generate_env_files] raises exactly when one of the keys it looks
    up, in the order of the repositories and of their directives, is not
    bound in the secret source, and the [KeyError] then carries the first
    such key. *)
Theorem generate_env_files_first_unbound (w : World) (agent : AgentConfig) :
  match first_unbound (env_values w) (lookups (repositories agent)) with
  | Some key => generate_env_files w agent = KeyError key
  | None => exists m, generate_env_files w agent = Ok m
  end.
Proof. apply env_files_loop_first_unbound. Qed.

(** X2: when [generate_env_files] returns, the dictionary holds one file
    per repository name and no other, and each file opens with the comment
    naming the repository and the line exporting its endpoint. *)
Theorem generate_env_files_one_file_per_repository (w : World) (agent : AgentConfig)
    (m : gmap string string) :
  generate_env_files w agent = Ok m ->
  (forall name, is_Some (m !! name) <-> name ∈ (repositories agent).*1)
  /\ (NoDup (repositories agent).*1 ->
      forall name repo, (name, repo) ∈ repositories agent ->
        exists rest, m !! name = Some (file_header name repo +:+ rest)).
Proof.
  intros Hok. unfold generate_env_files in Hok. split.
  - intros name. rewrite (env_files_loop_dom _ _ _ _ Hok name), lookup_empty.
    split; [intros [[? [=]]|H]; exact H|by right].
  - intros Hnd name repo Hel.
    assert (Hall := env_files_loop_all_ok _ _ _ _ Hok).
    destruct (env_files_loop_ok (env_values w) (repositories agent) ∅ Hall)
      as (m' & Hm' & _ & Hin).
    rewrite Hok in Hm'. injection Hm' as <-.
    destruct (Hall name repo Hel) as [text Htext].
    rewrite (Hin Hnd name repo text Hel Htext).
    unfold env_file in Htext. apply export_lines_extends in Htext as [rest ->].
    exists rest. unfold file_header. by rewrite !append_assoc.
Qed.

(** X3: a key that the secret source declares without value is not an
    error: the directive [env:SRC], or [env:SRC:DST], writes the line
    [export SRC=None], or [export DST=None]. *)
Theorem valueless_key_exports_none (w : World) (agent : AgentConfig)
    (m : gmap string string) (name : string) (repo : RepositoryConfig)
    (d : directive) (src var : string) :
  generate_env_files w agent = Ok m ->
  NoDup (repositories agent).*1 ->
  (name, repo) ∈ repositories agent ->
  directive_text d ∈ env_vars repo ->
  well_formed d ->
  (d = Env src /\ var = src) \/ d = EnvAs src var ->
  env_values w !! src = Some None ->
  exists a b, m !! name = Some (a +:+ "export " +:+ var +:+ "=None" +:+ nl +:+ b).
Proof.
  intros Hok Hnd Hel Hdir Hwf Hd Hnone. unfold generate_env_files in Hok.
  assert (Hall := env_files_loop_all_ok _ _ _ _ Hok).
  destruct (env_files_loop_ok (env_values w) (repositories agent) ∅ Hall)
    as (m' & Hm' & _ & Hin).
  rewrite Hok in Hm'. injection Hm' as <-.
  destruct (Hall name repo Hel) as [text Htext].
  rewrite (Hin Hnd name repo text Hel Htext). unfold env_file in Htext.
  assert (Hline : export_line (env_values w) (directive_text d)
                  = Ok ("export " +:+ var +:+ "=None" +:+ nl)).
  { destruct Hd as [[-> ->]| ->]; cbn [directive_text well_formed] in *.
    - rewrite (export_line_env _ _ Hwf). unfold getitem. by rewrite Hnone.
    - destruct Hwf as [Hsrc Hdst]. rewrite (export_line_env_as _ _ _ Hsrc Hdst).
      unfold getitem. by rewrite Hnone. }
  destruct (export_lines_contains _ _ _ _ _ _ Htext Hdir Hline) as (a & b & ->).
  exists a, b. by rewrite !append_assoc.
Qed.

(** The second repository of [unbound] looks up [FIRST] before [SECOND]. *)
Example generate_env_files_reports_first_key :
  generate_env_files Sample.world unbound = KeyError "FIRST".
Proof. reflexivity. Qed.

Lemma generate_env_files_one_file_per_repository_witness :
  exists m, generate_env_files Sample.world Sample.a1 = Ok m
    /\ (forall name, is_Some (m !! name) <-> name ∈ (repositories Sample.a1).*1)
    /\ (NoDup (repositories Sample.a1).*1 ->
        forall name repo, (name, repo) ∈ repositories Sample.a1 ->
          exists rest, m !! name = Some (file_header name repo +:+ rest)).
Proof.
  assert (H := env_files_loop_first_unbound (env_values Sample.world)
                 (repositories Sample.a1) ∅).
  vm_compute first_unbound in H. destruct H as [m Hm].
  exists m. split; [exact Hm|].
  exact (generate_env_files_one_file_per_repository Sample.world Sample.a1 m Hm).
Defined.

Lemma valueless_key_exports_none_witness :
  exists m, generate_env_files valueless Sample.a1 = Ok m
    /\ exists a b,
         m !! "r1"
         = Some (a +:+ "export " +:+ "AWS_SECRET_ACCESS_KEY" +:+ "=None" +:+ nl +:+ b).
Proof.
  assert (H := env_files_loop_first_unbound (env_values valueless)
                 (repositories Sample.a1) ∅).
  vm_compute first_unbound in H. destruct H as [m Hm].
  exists m. split; [exact Hm|].
  apply (valueless_key_exports_none valueless Sample.a1 m "r1" Sample.r1
           (EnvAs "B2_KEY" "AWS_SECRET_ACCESS_KEY") "B2_KEY" "AWS_SECRET_ACCESS_KEY" Hm).
  - apply (bool_decide_unpack _). vm_compute. exact I.
  - apply elem_of_cons. by left.
  - cbn. apply elem_of_cons. right. apply elem_of_cons. right.
    apply list_elem_of_singleton. reflexivity.
  - split; reflexivity.
  - by right.
  - reflexivity.
Defined.

End EnvFilesMoreTheorems.

(** ** More on the [check] command *)

Section CheckMore.

Import Str Check Probe Probes.

Lemma sends_only_ret (P : string -> Prop) {A} (a : A) : sends_only P (ret a).
Proof. intros host evs H. exact H. Qed.

Lemma sends_only_bind (P : string -> Prop) {A B} (m : Session A) (k : A -> Session B) :
  sends_only P m -> (forall a, sends_only P (k a)) -> sends_only P (bind m k).
Proof.
  intros Hm Hk host evs H. unfold bind. specialize (Hm host evs H).
  destruct (m host evs) as [[a|] evs']; [by apply Hk|exact Hm].
Qed.

Lemma sends_only_info (P : string -> Prop) (m : message) : sends_only P (info m).
Proof.
  intros host evs H. cbn. rewrite commands_app. cbn. by rewrite app_nil_r.
Qed.

Lemma sends_only_exec_command (P : string -> Prop) (command : string) :
  P command -> sends_only P (exec_command command).
Proof.
  intros Hc host evs H. unfold exec_command.
  destruct (host command); cbn; rewrite commands_app; apply Forall_app; split;
    try exact H; by repeat constructor.
Qed.

Lemma sends_only_exec_cmd (P : string -> Prop) (command : string) :
  P command -> sends_only P (exec_cmd command).
Proof.
  intros Hc. apply sends_only_bind; [by apply sends_only_exec_command|].
  intros [status out]. apply sends_only_ret.
Qed.

Lemma sends_only_check_paths (backup_root : string) (items : list string) :
  sends_only probe (check_paths backup_root items).
Proof.
  induction items as [|item items IH]; [apply sends_only_ret|].
  cbn [check_paths]. apply sends_only_bind.
  - apply sends_only_exec_cmd. do 3 right. by eexists.
  - intros found. apply sends_only_bind; [apply sends_only_info|]. intros _. exact IH.
Qed.

Lemma sends_only_check_session (agent_name : string) (agent_data : AgentConfig) :
  sends_only probe (check_session agent_name agent_data).
Proof.
  unfold check_session.
  apply sends_only_bind; [apply sends_only_info|intros _].
  apply sends_only_bind; [apply sends_only_exec_cmd; left; by eexists|intros installed].
  apply sends_only_bind; [apply sends_only_info|intros _].
  apply sends_only_bind; [apply sends_only_exec_cmd; right; by left|intros has_crontab].
  apply sends_only_bind; [apply sends_only_info|intros _].
  apply sends_only_bind;
    [apply sends_only_exec_command; right; right; left; by eexists|intros [status out]].
  apply sends_only_bind.
  { destruct (status =? 0)%Z; [apply sends_only_info|].
    apply sends_only_bind;
      [apply sends_only_exec_command; right; right; left; by eexists|intros [status' out']].
    destruct (status' =? 0)%Z; apply sends_only_info. }
  intros _.
  apply sends_only_bind; [apply sends_only_exec_cmd; do 3 right; by eexists|intros root_exists].
  destruct root_exists; [|apply sends_only_info].
  apply sends_only_bind; [apply sends_only_info|intros _].
  apply sends_only_check_paths.
Qed.

(** X4: every command that [check] sends to an agent has one of four
    shapes: [ls <path>], [crontab -l], [<install_location>/restic version] and
    [test -e <path>]. *)
Theorem check_sends_probes_only (connect_ssh : AgentConfig -> option Host)
    (agents : list (string * AgentConfig)) :
  Forall probe (commands (check connect_ssh agents)).
Proof.
  unfold check. cbn [commands].
  induction agents as [|[agent_name agent_data] agents IH]; [constructor|].
  cbn [check_agents]. rewrite commands_app. apply Forall_app. split; [|exact IH].
  unfold check_agent. destruct (connect_ssh agent_data) as [host|]; [|constructor].
  assert (H := sends_only_check_session agent_name agent_data host [] (Forall_nil_2 _)).
  destruct (check_session agent_name agent_data host []) as [[[]|] evs]; [exact H|].
  rewrite commands_app. cbn. by rewrite app_nil_r.
Qed.

(** The loop over [to_backup] on a host that answers every command. *)
Lemma check_paths_answered (host : Host) (backup_root : string)
    (items : list string) (evs : list event) :
  (forall command, answered host command) ->
  exists evs',
    check_paths backup_root items host evs = (Some tt, evs ++ evs')
    /\ logged evs' = map (path_line host backup_root) items.
Proof.
  intros Hhost. revert evs. induction items as [|item items IH]; intros evs.
  - exists []. split; [|reflexivity]. cbn. by rewrite app_nil_r.
  - cbn [check_paths]. unfold bind, exec_cmd, bind, exec_command, info, ret.
    destruct (Hhost ("test -e " +:+ backup_root +:+ "/" +:+ item)) as (status & out & Hc).
    rewrite Hc.
    match goal with
    | |- context [check_paths _ _ _ ?e] => destruct (IH e) as (evs' & -> & Hlog)
    end.
    eexists (_ :: _ :: evs'). split.
    + by rewrite <- !(assoc_L (++)).
    + cbn [logged map]. rewrite Hlog. unfold path_line, succeeds. by rewrite Hc.
Qed.

Lemma silent_app (agent_name : string) (evs1 evs2 : list event) :
  silent agent_name evs1 -> silent agent_name evs2 -> silent agent_name (evs1 ++ evs2).
Proof.
  intros [F1 N1] [F2 N2]. unfold silent. rewrite logged_app, filter_app, F1, F2.
  split; [reflexivity|]. by intros [?|?]%elem_of_app.
Qed.

Lemma runs_silently_bind (host : Host) (agent_name : string) {A B}
    (m : Session A) (k : A -> Session B) (evs : list event) :
  runs_silently host agent_name m ->
  exists a evs', silent agent_name evs' /\ bind m k host evs = k a host (evs ++ evs').
Proof.
  intros Hm. destruct (Hm evs) as (a & evs' & Heq & Hs).
  exists a, evs'. split; [exact Hs|]. unfold bind. by rewrite Heq.
Qed.

Lemma runs_silently_info (host : Host) (agent_name : string) (m : message) :
  about_path m = false -> m <> FailedToConnect agent_name ->
  runs_silently host agent_name (info m).
Proof.
  intros Hp Hf evs. exists tt, [Log m]. split; [reflexivity|].
  unfold silent. cbn [logged]. rewrite filter_cons, Hp. cbn.
  split; [reflexivity|]. intros H%list_elem_of_singleton. congruence.
Qed.

Lemma runs_silently_exec_command (host : Host) (agent_name command : string) :
  answered host command -> runs_silently host agent_name (exec_command command).
Proof.
  intros (status & out & Hc) evs. exists (status, out), [Exec command].
  unfold exec_command. rewrite Hc. split; [reflexivity|].
  split; [reflexivity|]. cbn. apply not_elem_of_nil.
Qed.

Lemma runs_silently_exec_cmd (host : Host) (agent_name command : string) :
  answered host command -> runs_silently host agent_name (exec_cmd command).
Proof.
  intros (status & out & Hc) evs. exists (status =? 0)%Z, [Exec command].
  unfold exec_cmd, bind, exec_command, ret. rewrite Hc. split; [reflexivity|].
  split; [reflexivity|]. cbn. apply not_elem_of_nil.
Qed.

(** X5: on an agent that answers every command and whose [backup_root]
    exists, [check] logs one line per entry of [to_backup], in order, that
    tells whether [test -e <backup_root>/<entry>] exited with status 0, and no
    exception is caught. *)
Theorem check_reports_every_path (connect_ssh : AgentConfig -> option Host)
    (agent_name : string) (agent_data : AgentConfig) (host : Host) :
  connect_ssh agent_data = Some host ->
  (forall command, answered host command) ->
  succeeds host ("test -e " +:+ backup_root agent_data) = true ->
  let evs := check_agent connect_ssh agent_name agent_data in
  filter about_path (logged evs)
  = map (path_line host (backup_root agent_data)) (to_backup agent_data)
  /\ (FailedToConnect agent_name ∉ logged evs).
Proof.
  intros Hconnect Hhost Hroot evs.
  assert (Hevs : exists prefix evs',
            silent agent_name prefix
            /\ logged evs' = map (path_line host (backup_root agent_data))
                               (to_backup agent_data)
            /\ evs = ((prefix ++ [Exec ("test -e " +:+ backup_root agent_data)])
                      ++ [Log (BackupRootExists (backup_root agent_data))]) ++ evs').
  { subst evs. unfold check_agent. rewrite Hconnect. unfold check_session.
  assert (Hinfo : forall m, about_path m = false -> m <> FailedToConnect agent_name ->
                    runs_silently host agent_name (info m))
    by (intros; by apply runs_silently_info).
  assert (Hrestic : forall status out,
            runs_silently host agent_name
              (if (status =? 0)%Z then info (ResticInPath (strip out))
               else
                 bind (exec_command (get_install_location agent_data +:+ "/restic version"))
                   (fun '(status, out) =>
                      if (status =? 0)%Z then info (ResticInInstallFolder (strip out))
                      else info (ResticUnavailable (get_install_location agent_data))))).
  { intros status out. destruct (status =? 0)%Z; [by apply Hinfo|].
    intros evs0.
    destruct (runs_silently_bind host agent_name
                (exec_command (get_install_location agent_data +:+ "/restic version"))
                (fun '(status, out) =>
                   if (status =? 0)%Z then info (ResticInInstallFolder (strip out))
                   else info (ResticUnavailable (get_install_location agent_data)))
                evs0
                (runs_silently_exec_command host agent_name _ (Hhost _)))
      as ([status' out'] & e & Se & ->).
    assert (Hi : runs_silently host agent_name
              (if (status' =? 0)%Z then info (ResticInInstallFolder (strip out'))
               else info (ResticUnavailable (get_install_location agent_data))))
      by (destruct (status' =? 0)%Z; by apply Hinfo).
    destruct (Hi (evs0 ++ e)) as (a & e' & -> & Se').
    exists a, (e ++ e'). split; [by rewrite (assoc_L (++))|]. by apply silent_app. }
  do 7 (match goal with
        | |- context [bind ?m ?k host ?e] =>
            let H := fresh "H" in
            assert (H : runs_silently host agent_name m)
              by first [ apply runs_silently_exec_cmd, Hhost
                       | apply runs_silently_exec_command, Hhost
                       | apply Hrestic
                       | apply Hinfo; by repeat case_match ];
            let a := fresh "a" in let ev := fresh "ev" in let S := fresh "S" in
            destruct (runs_silently_bind host agent_name m k e H) as (a & ev & S & ->);
            clear H;
            lazymatch type of a with (_ * _)%type => destruct a as [? ?] | _ => idtac end
        end).
  match goal with
  | |- context [bind _ _ host ?e] =>
      set (prefix := e); assert (Hprefix : silent agent_name prefix)
  end.
  { unfold prefix. repeat apply silent_app; try assumption. split; [reflexivity|].
    apply not_elem_of_nil. }
  clearbody prefix.
  unfold succeeds in Hroot.
  destruct (host ("test -e " +:+ backup_root agent_data)) as [s4 o4|] eqn:Htest;
    [|discriminate].
  unfold bind at 1, exec_cmd, bind at 1, exec_command, ret. rewrite Htest, Hroot.
  unfold bind at 1, info.
  destruct (check_paths_answered host (backup_root agent_data) (to_backup agent_data)
              ((prefix ++ [Exec ("test -e " +:+ backup_root agent_data)])
               ++ [Log (BackupRootExists (backup_root agent_data))]) Hhost)
    as (evs' & -> & Hlog).
  by exists prefix, evs'. }
  destruct Hevs as (prefix & evs' & Hprefix & Hlog & ->).
  destruct Hprefix as [Hfilter Hfailed].
  assert (Hpaths : forall items,
            filter about_path (map (path_line host (backup_root agent_data)) items)
            = map (path_line host (backup_root agent_data)) items).
  { induction items as [|item items IH]; [reflexivity|]. cbn [map].
    rewrite filter_cons_True; [by rewrite IH|].
    unfold path_line.
    match goal with |- context [succeeds ?h ?c] => destruct (succeeds h c) end; exact I. }
  rewrite !logged_app, Hlog. cbn [logged app]. rewrite app_nil_r.
  split.
  - rewrite !filter_app, Hfilter, Hpaths. reflexivity.
  - intros [[H|H]%elem_of_app|H]%elem_of_app; [by apply Hfailed| |].
    { apply list_elem_of_singleton in H. discriminate. }
    apply list_elem_of_fmap in H as (item & Heq & _).
    unfold path_line in Heq.
    match type of Heq with context [succeeds ?h ?c] => destruct (succeeds h c) end;
      discriminate.
Qed.

Lemma check_reports_every_path_witness :
  succeeds with_backup_root "test -e /srv" = true
  /\ let evs := check_agent (fun _ => Some with_backup_root) "a1" Sample.a1 in
     filter about_path (logged evs)
     = map (path_line with_backup_root "/srv") ["www"; "db"]
     /\ (FailedToConnect "a1" ∉ logged evs).
Proof.
  split; [reflexivity|].
  apply (check_reports_every_path (fun _ => Some with_backup_root) "a1" Sample.a1
           with_backup_root eq_refl).
  - intros command. unfold answered, with_backup_root.
    repeat case_match; by eexists _, _.
  - reflexivity.
Defined.

End CheckMore.

(** ** More on the cron scheduler *)

Section CronMore.

Import Str Schedule Crontab.

Lemma exec_echo_crontab_inv (text : string) (r r' : Remote) (out : reply) :
  exec_command ("echo " +:+ char DQUOTE +:+ text +:+ char DQUOTE +:+ " | crontab -") r
  = Some (out, r') ->
  echo_literal text = true
  /\ ((exit_status out = 0%Z /\ crontab_accepts r (text +:+ nl) = true
       /\ r' = {| crontab := text +:+ nl; crontab_accepts := crontab_accepts r |})
      \/ (exit_status out = 1%Z /\ r' = r)).
Proof.
  unfold exec_command. rewrite installed_text_echo.
  change (String.eqb _ "crontab -l 2>/dev/null") with false. cbv iota zeta.
  destruct (echo_literal text); [|discriminate]. intros H. split; [reflexivity|].
  destruct (crontab_accepts r (text +:+ nl)) eqn:Hacc; injection H as <- <-; auto.
Qed.

(** A call of [remove_schedule] that returns wrote the lines it kept. *)
Lemma remove_schedule_inv (agent : AgentConfig) (r r' : Remote) :
  remove_schedule agent r = Some (Returned, r') ->
  let text := rstrip (unlines (kept false (splitlines (crontab r)))) in
  echo_literal text = true
  /\ crontab_accepts r (text +:+ nl) = true
  /\ r' = {| crontab := text +:+ nl; crontab_accepts := crontab_accepts r |}.
Proof.
  intros Hremove text. unfold remove_schedule in Hremove.
  rewrite exec_crontab_l in Hremove. cbn [mbind option_bind stdout] in Hremove.
  assert (Hfold := fold_remove_step (splitlines (crontab r)) EmptyString false).
  destruct (fold_left remove_step (splitlines (crontab r)) (EmptyString, false))
    as [new_crontab d].
  cbn [fst] in Hfold. rewrite append_nil_l in Hfold. subst new_crontab.
  fold text in Hremove.
  destruct (exec_command _ r) as [[out r'']|] eqn:Hexec; [|discriminate].
  cbn [mbind option_bind] in Hremove.
  apply exec_echo_crontab_inv in Hexec as [Hlit [(Hexit & Hacc & ->)|(Hexit & ->)]];
    rewrite Hexit in Hremove; cbn in Hremove; [|discriminate].
  by injection Hremove as <-.
Qed.

Lemma add_schedule_inv (agent : AgentConfig) (r r' : Remote) :
  add_schedule agent r = Some (Returned, r') ->
  let text := crontab r +:+ marker_line +:+ nl +:+ cron_command agent in
  echo_literal text = true
  /\ crontab_accepts r (text +:+ nl) = true
  /\ r' = {| crontab := text +:+ nl; crontab_accepts := crontab_accepts r |}.
Proof.
  intros Hadd text. unfold add_schedule in Hadd.
  rewrite exec_crontab_l in Hadd. cbn [mbind option_bind stdout] in Hadd.
  fold marker_line in Hadd. fold text in Hadd.
  destruct (exec_command _ r) as [[out r'']|] eqn:Hexec; [|discriminate].
  cbn [mbind option_bind] in Hadd.
  apply exec_echo_crontab_inv in Hexec as [Hlit [(Hexit & Hacc & ->)|(Hexit & ->)]];
    rewrite Hexit in Hadd; cbn in Hadd; [|discriminate].
  by injection Hadd as <-.
Qed.

Lemma kept_all_unmarked (delete_next : bool) (lines : list string) :
  Forall unmarked (kept delete_next lines).
Proof.
  revert delete_next. induction lines as [|l ls IH]; intros d; [constructor|].
  cbn [kept]. destruct (is_marker l) eqn:Hl; [apply IH|].
  destruct d; [apply IH|]. constructor; [exact Hl|apply IH].
Qed.

Lemma kept_break_free (delete_next : bool) (lines : list string) :
  Forall (fun l => break_free l = true) lines ->
  Forall (fun l => break_free l = true) (kept delete_next lines).
Proof.
  intros H. revert delete_next. induction H as [|l ls Hl Hls IH]; intros d; [constructor|].
  cbn [kept]. destruct (is_marker l); [apply IH|].
  destruct d; [apply IH|]. constructor; [exact Hl|apply IH].
Qed.

(** What [remove_schedule] leaves when it returns. *)
Lemma remove_schedule_leaves_no_marker (agent : AgentConfig) (r r' : Remote) :
  remove_schedule agent r = Some (Returned, r') ->
  Forall unmarked (splitlines (crontab r'))
  /\ remove_schedule agent r' = Some (Returned, r').
Proof.
  intros Hremove. apply remove_schedule_inv in Hremove as (Hlit & Hacc & ->).
  set (lines := kept false (splitlines (crontab r))) in *.
  assert (Hbf : Forall (fun l => break_free l = true) lines)
    by apply kept_break_free, splitlines_break_free.
  assert (Hun : Forall unmarked lines) by apply kept_all_unmarked.
  split.
  - destruct (written_lines lines Hbf Hun) as (lines' & Hsplit & _ & Hmark).
    cbn [crontab]. by rewrite Hsplit.
  - by apply (remove_schedule_again agent (crontab_accepts r) lines).
Qed.

(** X6: of a crontab with any number of managed blocks, [remove_schedule]
    keeps the lines that are neither a marker line nor the line after one.
    When the text of these lines, with the whitespace at its end cut, is one
    that [echo] passes unchanged inside double quotes and that [crontab]
    accepts, [remove_schedule] returns, the crontab is that text and a line
    feed, none of its lines is a marker line, and a second call returns and
    leaves the host as it is. *)
Theorem remove_schedule_clears_all_blocks (agent : AgentConfig) (r : Remote) :
  let text := rstrip (unlines (kept false (splitlines (crontab r)))) in
  echo_literal text = true ->
  crontab_accepts r (text +:+ nl) = true ->
  exists r',
    remove_schedule agent r = Some (Returned, r')
    /\ crontab r' = text +:+ nl
    /\ Forall unmarked (splitlines (crontab r'))
    /\ remove_schedule agent r' = Some (Returned, r').
Proof.
  intros text Hlit Hacc.
  assert (Hremove := remove_schedule_writes agent r Hlit Hacc). fold text in Hremove.
  eexists. split; [exact Hremove|]. split; [reflexivity|].
  exact (remove_schedule_leaves_no_marker agent _ _ Hremove).
Qed.

(** What [remove_schedule] finds after [add_schedule] on a host that
    [remove_schedule] left. *)
Lemma remove_after_add_on_cleared (agent : AgentConfig) (r r1 r2 : Remote) :
  break_free (get_install_location agent) = true ->
  remove_schedule agent r = Some (Returned, r1) ->
  add_schedule agent r1 = Some (Returned, r2) ->
  remove_schedule agent r2 = Some (Returned, r1).
Proof.
  intros Hloc Hremove Hadd.
  apply remove_schedule_inv in Hremove as (Hlit & Hacc & ->).
  set (lines := kept false (splitlines (crontab r))) in *.
  set (text := rstrip (unlines lines)) in *.
  assert (Hbf : Forall (fun l => break_free l = true) lines)
    by apply kept_break_free, splitlines_break_free.
  assert (Hun : Forall unmarked lines) by apply kept_all_unmarked.
  destruct (written_lines lines Hbf Hun) as (lines' & Hsplit & Hunl & Hmark).
  fold text in Hsplit, Hunl.
  assert (Hbf' : Forall (fun l => break_free l = true) lines').
  { rewrite <- Hsplit. apply splitlines_break_free. }
  apply add_schedule_inv in Hadd as (_ & _ & ->). cbn [crontab crontab_accepts].
  assert (Hlines : splitlines (((text +:+ nl) +:+ marker_line +:+ nl +:+ cron_command agent) +:+ nl)
                   = lines' ++ [marker_line; cron_command agent]).
  { assert (((text +:+ nl) +:+ marker_line +:+ nl +:+ cron_command agent) +:+ nl
            = unlines (lines' ++ [marker_line; cron_command agent])) as ->.
    { rewrite unlines_app, Hunl. cbn [unlines].
      by rewrite !append_assoc, append_nil_r. }
    apply splitlines_unlines. apply Forall_app. split; [exact Hbf'|].
    repeat constructor. by apply break_free_cron_command. }
  assert (H := remove_schedule_writes agent
    {| crontab := ((text +:+ nl) +:+ marker_line +:+ nl +:+ cron_command agent) +:+ nl;
       crontab_accepts := crontab_accepts r |}).
  cbv zeta in H. cbn [crontab crontab_accepts] in H.
  rewrite Hlines, (kept_added _ _ Hmark), Hunl, rstrip_app_nl in H.
  assert (Hidem : rstrip text = text) by apply rstrip_idemp.
  rewrite !Hidem in H. by apply H.
Qed.

(** X7: [remove_schedule] undoes [add_schedule] on a host that
    [remove_schedule] has cleared. When the install location holds no line
    boundary, the text that [add_schedule] hands to [echo] after the first
    [remove_schedule] is one that [echo] passes unchanged inside double
    quotes, and [crontab] accepts the texts, the three calls return and the
    last one gives back the very host that the first one left. *)
Theorem remove_undoes_add_after_remove (agent : AgentConfig) (r : Remote) :
  break_free (get_install_location agent) = true ->
  let cleared := rstrip (unlines (kept false (splitlines (crontab r)))) +:+ nl in
  let added := cleared +:+ marker_line +:+ nl +:+ cron_command agent in
  echo_literal added = true ->
  crontab_accepts r cleared = true ->
  crontab_accepts r (added +:+ nl) = true ->
  exists r1 r2,
    remove_schedule agent r = Some (Returned, r1)
    /\ crontab r1 = cleared
    /\ add_schedule agent r1 = Some (Returned, r2)
    /\ crontab r2 = added +:+ nl
    /\ remove_schedule agent r2 = Some (Returned, r1).
Proof.
  intros Hloc cleared added Hlit Hacc1 Hacc2.
  assert (Hlit1 : echo_literal (rstrip (unlines (kept false (splitlines (crontab r)))))
                  = true).
  { rewrite <- rstrip_idemp. unfold added, cleared in Hlit.
    rewrite !append_assoc in Hlit. exact (echo_literal_rstrip _ _ Hlit). }
  assert (Hremove := remove_schedule_writes agent r Hlit1 Hacc1).
  set (r1 := {| crontab := cleared; crontab_accepts := crontab_accepts r |}).
  assert (Hadd := add_schedule_writes agent r1 Hlit Hacc2).
  exists r1, {| crontab := added +:+ nl; crontab_accepts := crontab_accepts r |}.
  split; [exact Hremove|]. split; [reflexivity|]. split; [exact Hadd|].
  split; [reflexivity|].
  exact (remove_after_add_on_cleared agent r r1 _ Hloc Hremove Hadd).
Qed.

(** The lines of the crontab that [add_schedule] leaves. *)
Lemma add_schedule_lines (agent : AgentConfig) (r r1 : Remote) (lines : list string) :
  crontab r = unlines lines ->
  Forall (fun l => break_free l = true) lines ->
  break_free (get_install_location agent) = true ->
  add_schedule agent r = Some (Returned, r1) ->
  splitlines (crontab r1) = lines ++ [marker_line; cron_command agent].
Proof.
  intros Hcrontab Hbf Hloc Hadd.
  apply add_schedule_inv in Hadd as (_ & _ & ->). cbn [crontab].
  assert ((crontab r +:+ marker_line +:+ nl +:+ cron_command agent) +:+ nl
          = unlines (lines ++ [marker_line; cron_command agent])) as ->.
  { rewrite Hcrontab, unlines_app. cbn [unlines].
    by rewrite !append_assoc, append_nil_r. }
  apply splitlines_unlines. apply Forall_app. split; [exact Hbf|].
  repeat constructor. by apply break_free_cron_command.
Qed.

(** X8: [add_schedule] does not look for a block that is already there.
    On a crontab that is the text of lines closed by line feeds, each without
    any other line boundary, with an install location without line boundary,
    and when the text handed to [echo] is one that [echo] passes unchanged
    inside double quotes and that [crontab] accepts, [add_schedule] returns
    and leaves these lines in order, marker lines among them included,
    followed by its marker line and its job line. *)
Theorem add_schedule_appends_block (agent : AgentConfig) (r : Remote)
    (lines : list string) :
  crontab r = unlines lines ->
  Forall (fun l => break_free l = true) lines ->
  break_free (get_install_location agent) = true ->
  let added := crontab r +:+ marker_line +:+ nl +:+ cron_command agent in
  echo_literal added = true ->
  crontab_accepts r (added +:+ nl) = true ->
  exists r1,
    add_schedule agent r = Some (Returned, r1)
    /\ splitlines (crontab r1) = lines ++ [marker_line; cron_command agent]
    /\ is_marker marker_line = true.
Proof.
  intros Hcrontab Hbf Hloc added Hlit Hacc.
  assert (Hadd := add_schedule_writes agent r Hlit Hacc).
  eexists. split; [exact Hadd|]. split; [|reflexivity].
  exact (add_schedule_lines agent r _ lines Hcrontab Hbf Hloc Hadd).
Qed.

Lemma startswith_app (n s : string) : startswith n (n +:+ s) = true.
Proof.
  induction n as [|c n IH]; [by destruct s|].
  rewrite append_cons. cbn [startswith]. by rewrite Ascii.eqb_refl.
Qed.

Lemma contains_app (n a b : string) : contains n (a +:+ n +:+ b) = true.
Proof.
  induction a as [|c a IH].
  - rewrite append_nil_l.
    destruct (n +:+ b) eqn:E; cbn [contains]; rewrite <- E, startswith_app; reflexivity.
  - rewrite append_cons. cbn [contains]. rewrite IH. apply orb_true_r.
Qed.

Lemma lstrip_app (a s : string) :
  lstrip s = s -> exists a', lstrip (a +:+ s) = a' +:+ s.
Proof.
  intros Hs. induction a as [|c a [a' IH]]; [by exists EmptyString|].
  rewrite append_cons. cbn [lstrip]. destruct (is_space c).
  - by exists a'.
  - by exists (String c a).
Qed.

(** A line that ends in the marker comment is a marker line. *)
Lemma is_marker_glued (last : string) : is_marker (last +:+ marker_line) = true.
Proof.
  unfold is_marker, strip.
  assert (rstrip (last +:+ marker_line) = last +:+ marker_line) as ->.
  { rewrite rstrip_app. reflexivity. }
  destruct (lstrip_app last marker_line eq_refl) as [a' ->].
  exact (contains_app "# -- multi-restic --" a' " (do not remove this comment!)").
Qed.

Lemma break_free_glued (s : string) :
  break_free s = true -> break_free (s +:+ marker_line) = true.
Proof. intros Hs. by rewrite break_free_app, Hs. Qed.

(** The lines that [remove_schedule] keeps after [add_schedule] on a
    crontab whose last line is not closed. *)
Lemma kept_after_unterminated (agent : AgentConfig) (text : string)
    (lines : list string) (last : string) :
  text = unlines lines +:+ last ->
  Forall (fun l => break_free l = true) lines ->
  Forall unmarked lines ->
  break_free last = true ->
  break_free (get_install_location agent) = true ->
  kept false (splitlines ((text +:+ marker_line +:+ nl +:+ cron_command agent) +:+ nl))
  = lines.
Proof.
  intros Htext Hbf Hun Hlast Hloc.
  assert (((text +:+ marker_line +:+ nl +:+ cron_command agent) +:+ nl)
          = unlines (lines ++ [last +:+ marker_line; cron_command agent])) as ->.
  { rewrite Htext, unlines_app. cbn [unlines].
    by rewrite !append_assoc, append_nil_r. }
  rewrite splitlines_unlines.
  - rewrite (kept_app_unmarked _ _ Hun). cbn [kept].
    rewrite is_marker_glued.
    destruct (is_marker (cron_command agent)); by rewrite app_nil_r.
  - apply Forall_app. split; [exact Hbf|]. repeat constructor.
    + by apply break_free_glued.
    + by apply break_free_cron_command.
Qed.

(** X9: what stands after the last line feed of the crontab is joined to
    the marker comment by [add_schedule], and [remove_schedule] then deletes
    it with the block. On a crontab that is the text of lines closed by line
    feeds, none a marker line and each without any other line boundary,
    followed by a text [last] without line boundary, with an install location
    without line boundary, and when the text handed to [echo] by
    [add_schedule] is one that [echo] passes unchanged inside double quotes
    and [crontab] accepts the texts, both calls return and the crontab is the
    text of the closed lines with the whitespace at its end cut and a line
    feed: [last] is lost. *)
Theorem add_then_remove_loses_unterminated_line (agent : AgentConfig) (r : Remote)
    (lines : list string) (last : string) :
  crontab r = unlines lines +:+ last ->
  Forall (fun l => break_free l = true) lines ->
  Forall unmarked lines ->
  break_free last = true ->
  break_free (get_install_location agent) = true ->
  let added := crontab r +:+ marker_line +:+ nl +:+ cron_command agent in
  let left := rstrip (unlines lines) in
  echo_literal added = true ->
  crontab_accepts r (added +:+ nl) = true ->
  crontab_accepts r (left +:+ nl) = true ->
  exists r1 r2,
    add_schedule agent r = Some (Returned, r1)
    /\ remove_schedule agent r1 = Some (Returned, r2)
    /\ crontab r2 = left +:+ nl.
Proof.
  intros Hcrontab Hbf Hun Hlast Hloc added left Hlit Hacc1 Hacc2.
  assert (Hadd := add_schedule_writes agent r Hlit Hacc1).
  set (r1 := {| crontab := added +:+ nl; crontab_accepts := crontab_accepts r |}).
  assert (Hkept : kept false (splitlines (crontab r1)) = lines)
    by exact (kept_after_unterminated agent (crontab r) lines last
                Hcrontab Hbf Hun Hlast Hloc).
  assert (Hlit1 : echo_literal left = true).
  { unfold added in Hlit. rewrite Hcrontab, !append_assoc in Hlit.
    exact (echo_literal_rstrip _ _ Hlit). }
  assert (Hremove := remove_schedule_writes agent r1). cbv zeta in Hremove.
  rewrite Hkept in Hremove. specialize (Hremove Hlit1 Hacc2).
  exists r1, {| crontab := left +:+ nl; crontab_accepts := crontab_accepts r |}.
  split; [exact Hadd|]. split; [exact Hremove|]. reflexivity.
Qed.

Lemma remove_schedule_clears_all_blocks_witness :
  echo_literal
    (rstrip (unlines (kept false (splitlines (crontab (host CrontabSamples.two_blocks))))))
  = true
  /\ exists r',
       remove_schedule Sample.a1 (host CrontabSamples.two_blocks) = Some (Returned, r')
       /\ crontab r'
          = rstrip (unlines (kept false
                               (splitlines (crontab (host CrontabSamples.two_blocks)))))
            +:+ nl
       /\ Forall unmarked (splitlines (crontab r'))
       /\ remove_schedule Sample.a1 r' = Some (Returned, r').
Proof.
  split; [vm_compute; reflexivity|].
  apply (remove_schedule_clears_all_blocks Sample.a1 (host CrontabSamples.two_blocks)).
  - vm_compute. reflexivity.
  - reflexivity.
Defined.

Lemma remove_undoes_add_after_remove_witness :
  break_free (get_install_location Sample.a1) = true
  /\ exists r1 r2,
       remove_schedule Sample.a1 (host managed) = Some (Returned, r1)
       /\ crontab r1
          = rstrip (unlines (kept false (splitlines (crontab (host managed))))) +:+ nl
       /\ add_schedule Sample.a1 r1 = Some (Returned, r2)
       /\ crontab r2
          = ((rstrip (unlines (kept false (splitlines (crontab (host managed))))) +:+ nl)
             +:+ marker_line +:+ nl +:+ cron_command Sample.a1) +:+ nl
       /\ remove_schedule Sample.a1 r2 = Some (Returned, r1).
Proof.
  split; [reflexivity|].
  apply (remove_undoes_add_after_remove Sample.a1 (host managed)).
  - reflexivity.
  - vm_compute. reflexivity.
  - reflexivity.
  - reflexivity.
Defined.

Lemma add_schedule_appends_block_witness :
  crontab (host CrontabSamples.two_blocks)
  = unlines (splitlines CrontabSamples.two_blocks)
  /\ exists r1,
       add_schedule Sample.a1 (host CrontabSamples.two_blocks) = Some (Returned, r1)
       /\ splitlines (crontab r1)
          = splitlines CrontabSamples.two_blocks ++ [marker_line; cron_command Sample.a1]
       /\ is_marker marker_line = true.
Proof.
  split; [vm_compute; reflexivity|].
  apply (add_schedule_appends_block Sample.a1 (host CrontabSamples.two_blocks)
           (splitlines CrontabSamples.two_blocks)).
  - vm_compute. reflexivity.
  - apply splitlines_break_free.
  - reflexivity.
  - vm_compute. reflexivity.
  - reflexivity.
Defined.

Lemma add_then_remove_loses_unterminated_line_witness :
  crontab (host ("MAILTO=root" +:+ nl +:+ "5 4 * * * /usr/local/bin/rotate"))
  = unlines ["MAILTO=root"] +:+ "5 4 * * * /usr/local/bin/rotate"
  /\ exists r1 r2,
       add_schedule Sample.a1
         (host ("MAILTO=root" +:+ nl +:+ "5 4 * * * /usr/local/bin/rotate"))
       = Some (Returned, r1)
       /\ remove_schedule Sample.a1 r1 = Some (Returned, r2)
       /\ crontab r2 = rstrip (unlines ["MAILTO=root"]) +:+ nl.
Proof.
  split; [reflexivity|].
  apply (add_then_remove_loses_unterminated_line Sample.a1
           (host ("MAILTO=root" +:+ nl +:+ "5 4 * * * /usr/local/bin/rotate"))
           ["MAILTO=root"] "5 4 * * * /usr/local/bin/rotate").
  - reflexivity.
  - repeat constructor.
  - repeat constructor.
  - reflexivity.
  - reflexivity.
  - vm_compute. reflexivity.
  - reflexivity.
  - reflexivity.
Defined.

End CronMore.

(** ** The [install] command *)

Section InstallLoop.

Import Str Install Trace.

Variable w : World.
Variable connect_ssh : AgentConfig -> option Machine.
Variable agents : list string.
Variable skip_test_backup : bool.

Lemma install_loop_app (before rest : list (string * AgentConfig)) (run : Run) :
  install_loop w connect_ssh agents skip_test_backup before = Some run ->
  ended run <> Completed ->
  install_loop w connect_ssh agents skip_test_backup (before ++ rest) = Some run.
Proof.
  revert run. induction before as [|[n a] before IH]; intros run Hrun Hend.
  - injection Hrun as <-. by destruct Hend.
  - cbn [app install_loop] in *.
    destruct ((0 <? length agents)%nat && not_in n agents).
    { destruct (install_loop w connect_ssh agents skip_test_backup before) as [run'|] eqn:E;
        [|discriminate].
      injection Hrun as <-. by rewrite (IH run' eq_refl Hend). }
    destruct (connect_ssh a) as [machine|]; [|exact Hrun].
    destruct (install_session w skip_test_backup n a machine []) as [[[[[]| | |e] m'] evs]|];
      try exact Hrun.
    destruct (install_loop w connect_ssh agents skip_test_backup before) as [run'|] eqn:E;
      [|discriminate].
    injection Hrun as <-. by rewrite (IH run' eq_refl Hend).
Qed.

End InstallLoop.

Section InstallTheorems.

Import Str Install Trace.

(** X10: [install] stops at the first agent whose installation does not
    complete: when the run over the first agents of the configuration ends
    with [break], [return] or an exception, the run over the whole
    configuration is that same run, and no later agent is touched. *)
Theorem install_stops_at_first_failure (w : World)
    (connect_ssh : AgentConfig -> option Machine)
    (before rest : list (string * AgentConfig)) (agents : list string)
    (skip_test_backup : bool) (run : Run) :
  install w connect_ssh before agents skip_test_backup = Some run ->
  ended run <> Completed ->
  install w connect_ssh (before ++ rest) agents skip_test_backup = Some run.
Proof. apply install_loop_app. Qed.

(** X11: when agent names are given, an agent that is not named gets no
    session: the only event of the run under its name is the line that it is
    skipped, and no machine is listed for it. *)
Theorem install_skips_unnamed_agents (w : World)
    (connect_ssh : AgentConfig -> option Machine)
    (configured : list (string * AgentConfig)) (agents : list string)
    (skip_test_backup : bool) (run : Run) (agent_name : string) :
  install w connect_ssh configured agents skip_test_backup = Some run ->
  agents <> [] ->
  agent_name ∉ agents ->
  (forall e, (agent_name, e) ∈ events run -> e = Log (Skipping agent_name))
  /\ agent_name ∉ (machines run).*1.
Proof.
  unfold install. intros Hrun Hagents Hname. revert run Hrun.
  assert (Hlen : (0 <? length agents)%nat = true) by (destruct agents; [done|reflexivity]).
  assert (Htagged : forall n evs e, (agent_name, e) ∈ tagged n evs -> n = agent_name).
  { intros n evs e (e' & [= <- _] & _)%list_elem_of_fmap. reflexivity. }
  induction configured as [|[n a] configured IH]; intros run Hrun.
  - injection Hrun as <-. split; [intros e H; by apply elem_of_nil in H|].
    cbn. apply not_elem_of_nil.
  - cbn [install_loop] in Hrun. rewrite Hlen in Hrun. cbn [andb] in Hrun.
    unfold not_in in Hrun.
    destruct (bool_decide (n ∈ agents)) eqn:Hn; cbn [negb] in Hrun.
    + apply bool_decide_eq_true in Hn.
      assert (Hne : n <> agent_name) by (intros ->; by apply Hname).
      destruct (connect_ssh a) as [machine|].
      * destruct (install_session w skip_test_backup n a machine [])
          as [[[[[]| | |e] m'] evs]|]; [|injection Hrun as <-..|discriminate].
        { destruct (install_loop w connect_ssh agents skip_test_backup configured)
            as [run'|]; [|discriminate].
          injection Hrun as <-. destruct (IH run' eq_refl) as [IHe IHm]. split.
          - intros e [H|H]%elem_of_app; [by destruct Hne, (Htagged _ _ _ H)|by apply IHe].
          - cbn. intros [H|H]%elem_of_cons; [by destruct Hne|by apply IHm]. }
        all: split;
          [intros e0 [H|H]%elem_of_app;
             [by destruct Hne, (Htagged _ _ _ H)|by apply elem_of_nil in H]
          |cbn; intros [H|H]%elem_of_cons; [by destruct Hne|by apply elem_of_nil in H]].
      * injection Hrun as <-. split.
        { intros e [H|H]%elem_of_app;
            [by destruct Hne, (Htagged _ _ _ H)|by apply elem_of_nil in H]. }
        cbn. apply not_elem_of_nil.
    + destruct (install_loop w connect_ssh agents skip_test_backup configured)
        as [run'|]; [|discriminate].
      injection Hrun as <-. destruct (IH run' eq_refl) as [IHe IHm]. split.
      * intros e [H|H]%elem_of_app; [|by apply IHe].
        apply list_elem_of_fmap in H as (e' & [= <- ->] & H').
        by apply list_elem_of_singleton in H' as ->.
      * exact IHm.
Qed.

End InstallTheorems.

(** ** Sessions of [install], piece by piece *)

Section SessionFacts.

Import Str Install Trace.

(** A [bind] ends the way its second piece ends, or the way its first
    piece ends when that piece hands on no value. *)
Lemma bind_inv {A B} (m : Session A) (k : A -> Session B)
    (machine machine'' : Machine) (evs evs'' : list event) (s : step B) :
  bind m k machine evs = Some (s, machine'', evs'') ->
  (exists a machine' evs',
     m machine evs = Some (Value a, machine', evs')
     /\ k a machine' evs' = Some (s, machine'', evs''))
  \/ (exists s0 kd,
        m machine evs = Some (s0, machine'', evs'')
        /\ kind_of s0 = Some kd /\ kind_of s = Some kd).
Proof.
  unfold bind. destruct (m machine evs) as [[[[a| | |e] machine'] evs']|]; intros H;
    try discriminate.
  - left. by exists a, machine', evs'.
  - injection H as <- <- <-. right. by exists Break, Broke.
  - injection H as <- <- <-. right. by exists Return, Returned.
  - injection H as <- <- <-. right. by exists (Raised e), (Threw e).
Qed.

Lemma sftp_ops_app (evs1 evs2 : list event) :
  sftp_ops (evs1 ++ evs2) = sftp_ops evs1 ++ sftp_ops evs2.
Proof. apply filter_app. Qed.

End SessionFacts.

Section SessionParts.

Import Str Install Trace.

Lemma kind_of_inj {A} (s s' : step A) (k : kind) :
  kind_of s = Some k -> kind_of s' = Some k -> s = s'.
Proof. destruct s, s'; cbn; congruence. Qed.

(** A [bind] of two pieces without value. *)
Lemma bind_unit_inv (m k : Session unit) (machine machine'' : Machine)
    (evs evs'' : list event) (s : step unit) :
  bind m (fun _ => k) machine evs = Some (s, machine'', evs'') ->
  (exists machine' evs',
     m machine evs = Some (Value tt, machine', evs')
     /\ k machine' evs' = Some (s, machine'', evs''))
  \/ (m machine evs = Some (s, machine'', evs'') /\ kind_of s <> None).
Proof.
  intros [([] & machine' & evs' & Hm & Hk)|(s0 & kd & Hm & Hs0 & Hs)]%bind_inv.
  - left. eauto.
  - right. rewrite <- (kind_of_inj _ _ _ Hs0 Hs). split; [exact Hm|]. by rewrite Hs0.
Qed.

(** The first part of the session: it leaves the machine as it is, sends
    [install -d], uses no SFTP, and warns that restic is missing exactly when
    the directory was made and both probes failed. It ends with a value, with
    [break], or with an exception of the transport. *)
Lemma prepare_cases (agent_name : string) (agent_data : AgentConfig)
    (machine machine' : Machine) (evs evs' : list event) (s : step unit) :
  let install_location := get_install_location agent_data in
  let mkdir := "install -d " +:+ install_location +:+ " -m 700" in
  prepare agent_name agent_data machine evs = Some (s, machine', evs') ->
  machine' = machine
  /\ exists added,
       evs' = evs ++ added
       /\ sftp_ops added = []
       /\ Exec mkdir ∈ added
       /\ (Log (ResticMissing install_location) ∈ added
           <-> succeeds machine mkdir
               && fails machine "restic version"
               && fails machine (install_location +:+ "/restic version") = true)
       /\ match s with
          | Value _ | Break | Raised (TransportError _) => True
          | _ => False
          end.
Proof.
  intros install_location mkdir. unfold prepare, succeeds, fails.
  fold install_location. fold mkdir.
  set (dl := join " && " (download_commands install_location)).
  set (probe := install_location +:+ "/restic version").
  unfold bind, exec_cmd, bind, exec_command, log, ret, break.
  destruct (answers machine mkdir) as [s0 o0 e0|]; cbv beta iota;
    [destruct (s0 =? 0)%Z eqn:H0; cbn [negb]; cbv beta iota;
     [destruct (answers machine "restic version") as [s1 o1 e1|]; cbv beta iota;
      [destruct (answers machine probe) as [s2 o2 e2|]; cbv beta iota;
       [destruct (s1 =? 0)%Z eqn:H1, (s2 =? 0)%Z eqn:H2; cbn [negb andb]; cbv beta iota;
        lazymatch goal with
        | |- context [answers machine dl] =>
            destruct (answers machine dl) as [s3 o3 e3|]; cbv beta iota;
            [destruct (s3 =? 0)%Z eqn:H3|]
        | |- _ => idtac
        end
       |]
      |]
     |]
    |].
  all: intros [= <- <- <-]; split; [reflexivity|].
  all: rewrite <- ?(assoc_L (++)); eexists; split; [reflexivity|].
  all: split; [reflexivity|].
  all: split; [cbn; set_solver|].
  all: split; [|exact I].
  all: cbn [negb andb app]; rewrite ?andb_false_r; split.
  all: intros H;
    first [reflexivity | discriminate
          | solve [repeat first [apply list_elem_of_here | apply list_elem_of_further]]
          | exfalso; revert H; rewrite !elem_of_cons, elem_of_nil;
            intuition discriminate].
Qed.

(** The upload loop stops only when a file cannot be opened. *)
Lemma upload_env_files_cases (install_location : string)
    (files : list (string * string)) (machine machine' : Machine)
    (evs evs' : list event) (s : step unit) :
  upload_env_files install_location files machine evs = Some (s, machine', evs') ->
  machine' = machine
  /\ exists added,
       evs' = evs ++ added
       /\ Forall (fun e => forall loc, e <> Log (ResticMissing loc)) added
       /\ match s with
          | Value _ =>
              sftp_ops added
              = concat (map (fun '(repo_name, text) =>
                               [Write (env_remote_path install_location repo_name) text;
                                Chmod (env_remote_path install_location repo_name) 384])
                            files)
          | Raised (IOError _) => True
          | _ => False
          end.
Proof.
  revert evs. induction files as [|[repo_name text] files IH]; intros evs.
  - intros [= <- <- <-]. split; [reflexivity|]. exists []. by rewrite app_nil_r.
  - cbn [upload_env_files]. unfold bind at 1, sftp_write.
    destruct (sftp_opens machine _).
    + unfold bind at 1, sftp_chmod. unfold bind at 1, log.
      intros (-> & added & -> & Hexec & Hs)%IH. split; [reflexivity|].
      eexists (_ :: _ :: _ :: added). split; [by rewrite <- !(assoc_L (++))|].
      split; [by repeat constructor|].
      destruct s as [[]| | |[]]; try done.
      cbn [map concat app]. by rewrite <- Hs.
    + intros [= <- <- <-]. split; [reflexivity|]. exists []. by rewrite app_nil_r.
Qed.

(** The second part: it leaves the machine as it is.
    It raises [KeyError] before anything is written; when it hands on a
    value it has written every secret file and the script, with their
    modes. *)
Lemma upload_cases (w : World) (agent_data : AgentConfig)
    (machine machine' : Machine) (evs evs' : list event) (s : step unit) :
  upload w agent_data machine evs = Some (s, machine', evs') ->
  machine' = machine
  /\ exists added,
       evs' = evs ++ added
       /\ Forall (fun e => forall loc, e <> Log (ResticMissing loc)) added
       /\ match s with
          | Value _ =>
              exists env_files,
                GenerateScript.generate_env_files w agent_data = GenerateScript.Ok env_files
                /\ sftp_ops added = uploads w agent_data env_files
          | Raised (KeyError key) =>
              GenerateScript.generate_env_files w agent_data = GenerateScript.KeyError key
              /\ added = []
          | Raised (IOError _) =>
              exists env_files,
                GenerateScript.generate_env_files w agent_data = GenerateScript.Ok env_files
          | _ => False
          end.
Proof.
  unfold upload, Install.generate_env_files.
  destruct (GenerateScript.generate_env_files w agent_data) as [env_files|key].
  - unfold bind at 1, ret.
    intros [(m1 & evs1 & Hloop & Hrest)|[Hloop Hs]]%bind_unit_inv.
    + apply upload_env_files_cases in Hloop as (-> & added & -> & Hexec & Hops).
      revert Hrest. unfold bind at 1, sftp_write.
      destruct (sftp_opens machine _).
      * unfold bind at 1, sftp_chmod, log. intros [= <- <- <-].
        split; [reflexivity|]. eexists (added ++ [_; _; _]). split.
        { by rewrite <- !(assoc_L (++)). }
        split; [apply Forall_app; split; [exact Hexec|by repeat constructor]|].
        exists env_files. split; [reflexivity|].
        rewrite sftp_ops_app, Hops. reflexivity.
      * intros [= <- <- <-]. split; [reflexivity|]. exists added.
        split; [reflexivity|]. split; [exact Hexec|]. by exists env_files.
    + apply upload_env_files_cases in Hloop as (-> & added & -> & Hexec & Hops).
      split; [reflexivity|]. exists added. split; [reflexivity|]. split; [exact Hexec|].
      destruct s as [[]| | |[]]; try done. by exists env_files.
  - unfold bind at 1, raise. intros [= <- <- <-]. split; [reflexivity|].
    exists []. by rewrite app_nil_r.
Qed.

(** The third part: it leaves the machine as it is and uses no SFTP; it
    ends with [return] exactly when the backup was run and failed. *)
Lemma test_backup_cases (skip_test_backup : bool) (agent_name : string)
    (agent_data : AgentConfig) (machine machine' : Machine)
    (evs evs' : list event) (s : step unit) :
  let backup := get_install_location agent_data +:+ "/backup.sh" in
  test_backup skip_test_backup agent_name agent_data machine evs
  = Some (s, machine', evs') ->
  machine' = machine
  /\ exists added,
       evs' = evs ++ added
       /\ sftp_ops added = []
       /\ Forall (fun e => forall loc, e <> Log (ResticMissing loc)) added
       /\ match s with
          | Value _ => skip_test_backup = true \/ succeeds machine backup = true
          | Return => skip_test_backup = false /\ fails machine backup = true
          | Raised (TransportError _) => skip_test_backup = false
          | _ => False
          end.
Proof.
  intros backup. unfold test_backup, succeeds, fails. fold backup.
  destruct skip_test_backup; cbn [negb].
  { intros [= <- <- <-]. split; [reflexivity|]. exists []. rewrite app_nil_r. auto. }
  unfold bind, exec_command, log, ret, return_.
  destruct (answers machine backup) as [status out err|]; cbv beta iota;
    [destruct (status =? 0)%Z eqn:Hstatus; cbv beta iota|].
  all: intros [= <- <- <-]; split; [reflexivity|].
  all: rewrite <- ?(assoc_L (++)); eexists; split; [reflexivity|].
  all: split; [reflexivity|].
  all: split; [by repeat constructor|]; auto.
Qed.

End SessionParts.

Section SchedulePart.

Import Str Install Trace.

(** The last part: the cron scheduler works on the crontab and writes no
    file, the systemd scheduler writes its two unit files and leaves the
    crontab; an unknown scheduler raises [ValueError] before anything is
    done. *)
Lemma schedule_cases (agent_name : string) (agent_data : AgentConfig)
    (machine machine' : Machine) (evs evs' : list event) (s : step unit) :
  let kind := default "cron" (scheduler agent_data) in
  schedule agent_name agent_data machine evs = Some (s, machine', evs') ->
  exists added,
    evs' = evs ++ added
    /\ Forall (fun e => forall loc, e <> Log (ResticMissing loc)) added
    /\ match s with
       | Value _ =>
           sftp_ops added = unit_files agent_data
           /\ ((kind = "cron"
                /\ exists r1 r2,
                     Schedule.remove_schedule agent_data (cron machine)
                     = Some (Schedule.Returned, r1)
                     /\ Schedule.add_schedule agent_data r1 = Some (Schedule.Returned, r2)
                     /\ machine' = with_cron machine r2)
               \/ (kind = "systemd" /\ machine' = machine))
       | Raised (ValueError _) =>
           kind <> "cron" /\ kind <> "systemd" /\ machine' = machine /\ added = []
       | Raised (RuntimeError _) | Raised (IOError _) | Raised (TransportError _) => True
       | _ => False
       end.
Proof.
  intros kind. unfold schedule, create, unit_files. fold kind.
  destruct (String.eqb kind "cron") eqn:Hcron;
    [|destruct (String.eqb kind "systemd") eqn:Hsystemd].
  - apply String.eqb_eq in Hcron. rewrite Hcron. cbn [String.eqb Ascii.eqb Bool.eqb].
    unfold bind at 1, ret. cbn [remove_schedule add_schedule CronScheduler].
    unfold bind, on_cron, log.
    destruct (Schedule.remove_schedule agent_data (cron machine)) as [[[|msg] r1]|] eqn:Hremove;
      [|intros [= <- <- <-]; exists []; by rewrite app_nil_r|discriminate].
    cbn [cron with_cron].
    destruct (Schedule.add_schedule agent_data r1) as [[[|msg] r2]|] eqn:Hadd;
      [|intros [= <- <- <-]; exists []; by rewrite app_nil_r|discriminate].
    intros [= <- <- <-]. eexists [_]. split; [reflexivity|].
    split; [by repeat constructor|]. split; [reflexivity|]. left. split; [reflexivity|].
    by exists r1, r2.
  - apply String.eqb_eq in Hsystemd.
    unfold bind at 1, ret. cbn [remove_schedule add_schedule SystemdScheduler].
    unfold systemd_remove_schedule, systemd_add_schedule.
    unfold bind, exec_command, sftp_write, log, raise, ret.
    destruct (answers machine (join " && " (systemd_remove_commands _))) as [s0 o0 e0|];
      cbv beta iota;
      [destruct (s0 =? 0)%Z; cbn [negb]; cbv beta iota;
       [destruct (sftp_opens machine (service_file_path _)); cbv beta iota;
        [destruct (sftp_opens machine (timer_file_path _)); cbv beta iota;
         [destruct (answers machine (join " && " (systemd_add_commands _))) as [s1 o1 e1|];
          cbv beta iota; [destruct (s1 =? 0)%Z; cbn [negb]; cbv beta iota|]
         |]
        |]
       |]
      |].
    all: intros [= <- <- <-].
    all: rewrite <- ?(assoc_L (++)); eexists; split; [reflexivity || by rewrite app_nil_r|].
    all: split; [by repeat constructor|]; auto.
  - unfold bind at 1, raise. intros [= <- <- <-]. exists []. rewrite app_nil_r.
    split; [reflexivity|]. split; [constructor|].
    apply String.eqb_neq in Hcron, Hsystemd. auto.
Qed.

End SchedulePart.

Section SessionCases.

Import Str Install Trace.

(** How a session of [install] can end, and what it has done by then. The
    events are those of the first part, [added1], and those of the upload,
    the test backup and the scheduler, [added2]. *)
Lemma install_session_cases (w : World) (skip_test_backup : bool)
    (agent_name : string) (agent_data : AgentConfig)
    (machine machine' : Machine) (evs evs' : list event) (s : step unit) :
  let install_location := get_install_location agent_data in
  let mkdir := "install -d " +:+ install_location +:+ " -m 700" in
  let backup := install_location +:+ "/backup.sh" in
  let kind := default "cron" (scheduler agent_data) in
  let generated := GenerateScript.generate_env_files w agent_data in
  install_session w skip_test_backup agent_name agent_data machine evs
  = Some (s, machine', evs') ->
  exists added1 added2,
    evs' = evs ++ added1 ++ added2
    /\ sftp_ops added1 = []
    /\ Exec mkdir ∈ added1
    /\ (Log (ResticMissing install_location) ∈ added1
        <-> succeeds machine mkdir
            && fails machine "restic version"
            && fails machine (install_location +:+ "/restic version") = true)
    /\ Forall (fun e => forall loc, e <> Log (ResticMissing loc)) added2
    /\ match s with
       | Value _ =>
           exists env_files,
             generated = GenerateScript.Ok env_files
             /\ sftp_ops added2 = uploads w agent_data env_files ++ unit_files agent_data
             /\ (skip_test_backup = true \/ succeeds machine backup = true)
             /\ ((kind = "cron"
                  /\ exists r1 r2,
                       Schedule.remove_schedule agent_data (cron machine)
                       = Some (Schedule.Returned, r1)
                       /\ Schedule.add_schedule agent_data r1
                          = Some (Schedule.Returned, r2)
                       /\ machine' = with_cron machine r2)
                 \/ (kind = "systemd" /\ machine' = machine))
       | Break => added2 = [] /\ machine' = machine
       | Return =>
           exists env_files,
             generated = GenerateScript.Ok env_files
             /\ sftp_ops added2 = uploads w agent_data env_files
             /\ skip_test_backup = false
             /\ fails machine backup = true
             /\ machine' = machine
       | Raised (KeyError key) =>
           generated = GenerateScript.KeyError key /\ added2 = [] /\ machine' = machine
       | Raised (ValueError _) =>
           exists env_files,
             generated = GenerateScript.Ok env_files
             /\ sftp_ops added2 = uploads w agent_data env_files
             /\ (skip_test_backup = true \/ succeeds machine backup = true)
             /\ kind <> "cron" /\ kind <> "systemd"
             /\ machine' = machine
       | Raised (IOError _) | Raised (RuntimeError _) =>
           exists env_files, generated = GenerateScript.Ok env_files
       | Raised (TransportError _) => True
       | Raised ConnectError => False
       end.
Proof.
  intros install_location mkdir backup kind generated. unfold install_session.
  intros [(m1 & evs1 & Hp & H)|[Hp Hs]]%bind_unit_inv.
  2:{ apply prepare_cases in Hp as (-> & added1 & -> & Hops1 & Hmkdir & Hwarn & Hend).
      exists added1, []. rewrite app_nil_r. repeat (split; [done|]).
      destruct s as [[]| | |[]]; done. }
  apply prepare_cases in Hp as (-> & added1 & -> & Hops1 & Hmkdir & Hwarn & _).
  exists added1. fold install_location mkdir in Hmkdir, Hwarn.
  apply bind_unit_inv in H as [(m2 & evs2 & Hu & H)|[Hu Hs]].
  2:{ apply upload_cases in Hu as (-> & added2 & -> & Hlog2 & Hend).
      exists added2. rewrite <- (assoc_L (++)). repeat (split; [done|]).
      fold generated in Hend. destruct s as [[]| | |[]]; try done.
      destruct Hend as [-> ->]. done. }
  apply upload_cases in Hu as (-> & added2 & -> & Hlog2 & env_files & Hgen & Hops2).
  fold generated in Hgen.
  apply bind_unit_inv in H as [(m3 & evs3 & Ht & H)|[Ht Hs]].
  2:{ apply test_backup_cases in Ht as (-> & added3 & -> & Hops3 & Hlog3 & Hend).
      exists (added2 ++ added3). rewrite <- !(assoc_L (++)). repeat (split; [done|]).
      split; [by apply Forall_app|]. fold backup in Hend.
      destruct s as [[]| | |[]]; try done.
      exists env_files. rewrite sftp_ops_app, Hops2, Hops3, app_nil_r.
      by destruct Hend. }
  apply test_backup_cases in Ht as (-> & added3 & -> & Hops3 & Hlog3 & Hrun).
  fold backup in Hrun.
  apply schedule_cases in H as (added4 & -> & Hlog4 & Hend). fold kind in Hend.
  exists (added2 ++ added3 ++ added4). rewrite <- !(assoc_L (++)).
  repeat (split; [done|]).
  split; [by rewrite !Forall_app|].
  destruct s as [[]| | |[]]; try done; try by exists env_files.
  - destruct Hend as [Hops4 Hsched]. exists env_files.
    rewrite !sftp_ops_app, Hops2, Hops3, Hops4. done.
  - destruct Hend as (Hc & Hsd & -> & ->). exists env_files.
    rewrite !sftp_ops_app, Hops2, Hops3, !app_nil_r. done.
Qed.

End SessionCases.

Section SessionTheorems.

Import Str Install Trace.

Variable w : World.
Variable agent_name : string.
Variable agent_data : AgentConfig.

(** X12: when a session of [install] ends with [KeyError], the key is the one
    that [generate_env_files] reports; by then the install directory has been
    asked for on the agent, nothing has been written over SFTP, and the
    machine is as it was. *)
Theorem install_key_error_before_upload (skip_test_backup : bool)
    (machine machine' : Machine) (evs' : list event) (key : string) :
  install_session w skip_test_backup agent_name agent_data machine []
  = Some (Raised (KeyError key), machine', evs') ->
  GenerateScript.generate_env_files w agent_data = GenerateScript.KeyError key
  /\ Exec ("install -d " +:+ get_install_location agent_data +:+ " -m 700") ∈ evs'
  /\ sftp_ops evs' = []
  /\ machine' = machine.
Proof.
  intros (added1 & added2 & -> & Hops & Hmkdir & _ & _ & Hgen & -> & ->)%install_session_cases.
  rewrite app_nil_r. cbn [app]. done.
Qed.

(** X13: a session of [install] ends with [return] only when the test backup
    was asked for and the uploaded script exited with another status than 0;
    by then every secret file and the script have been uploaded with their
    modes, and the schedule of the machine has not been touched. *)
Theorem install_failed_backup_keeps_schedule (skip_test_backup : bool)
    (machine machine' : Machine) (evs' : list event) :
  install_session w skip_test_backup agent_name agent_data machine []
  = Some (Return, machine', evs') ->
  skip_test_backup = false
  /\ fails machine (get_install_location agent_data +:+ "/backup.sh") = true
  /\ machine' = machine
  /\ exists env_files,
       GenerateScript.generate_env_files w agent_data = GenerateScript.Ok env_files
       /\ sftp_ops evs' = uploads w agent_data env_files.
Proof.
  intros (added1 & added2 & -> & Hops & _ & _ & _ & env_files & Hgen & Hup & Hskip & Hfail & ->)
    %install_session_cases.
  repeat (split; [done|]). exists env_files. split; [done|].
  cbn [app]. by rewrite sftp_ops_app, Hops, Hup.
Qed.

(** X14: the SFTP operations of a session of [install] that completes are,
    in this order: every secret file written and set to mode [0o600], in the
    order of the repositories; the script written and set to mode [0o700]; and
    with the systemd scheduler the two unit files. *)
Theorem install_completed_uploads (skip_test_backup : bool)
    (machine machine' : Machine) (evs' : list event) :
  install_session w skip_test_backup agent_name agent_data machine []
  = Some (Value tt, machine', evs') ->
  exists env_files,
    GenerateScript.generate_env_files w agent_data = GenerateScript.Ok env_files
    /\ sftp_ops evs' = uploads w agent_data env_files ++ unit_files agent_data.
Proof.
  intros (added1 & added2 & -> & Hops & _ & _ & _ & env_files & Hgen & Hup & _)
    %install_session_cases.
  exists env_files. split; [done|]. cbn [app]. by rewrite sftp_ops_app, Hops, Hup.
Qed.

(** X15: however a session of [install] ends, it has warned that restic is
    missing exactly when the install directory was made and both
    [restic version] and [<install_location>/restic version] exited with
    another status than 0. *)
Theorem install_warns_restic_missing (skip_test_backup : bool)
    (machine machine' : Machine) (evs' : list event) (s : step unit) :
  install_session w skip_test_backup agent_name agent_data machine []
  = Some (s, machine', evs') ->
  Log (ResticMissing (get_install_location agent_data)) ∈ evs'
  <-> succeeds machine ("install -d " +:+ get_install_location agent_data +:+ " -m 700")
      && fails machine "restic version"
      && fails machine (get_install_location agent_data +:+ "/restic version") = true.
Proof.
  intros (added1 & added2 & -> & _ & _ & Hwarn & Hlog & _)%install_session_cases.
  cbn [app]. rewrite <- Hwarn, elem_of_app. split; [|auto].
  intros [H|H]; [exact H|]. rewrite Forall_forall in Hlog.
  by destruct (Hlog _ H (get_install_location agent_data)).
Qed.

(** X16: with a scheduler that is neither [cron] nor [systemd], no session of
    [install] completes; the [ValueError] is raised only after every secret
    file and the script have been uploaded, and leaves the machine as it
    was. *)
Theorem install_unknown_scheduler_fails_late (skip_test_backup : bool)
    (machine machine' : Machine) (evs' : list event) (s : step unit) :
  default "cron" (scheduler agent_data) <> "cron" ->
  default "cron" (scheduler agent_data) <> "systemd" ->
  install_session w skip_test_backup agent_name agent_data machine []
  = Some (s, machine', evs') ->
  s <> Value tt
  /\ (forall message, s = Raised (ValueError message) ->
        machine' = machine
        /\ exists env_files,
             GenerateScript.generate_env_files w agent_data = GenerateScript.Ok env_files
             /\ sftp_ops evs' = uploads w agent_data env_files).
Proof.
  intros Hcron Hsystemd
    (added1 & added2 & -> & Hops & _ & _ & _ & Hend)%install_session_cases.
  split.
  - intros ->. destruct Hend as (_ & _ & _ & _ & [[H _]|[H _]]); done.
  - intros message ->. destruct Hend as (env_files & Hgen & Hup & _ & _ & _ & ->).
    split; [done|]. exists env_files. split; [done|].
    cbn [app]. by rewrite sftp_ops_app, Hops, Hup.
Qed.

End SessionTheorems.

Section InstallAgain.

Import Str Install Trace Crontab.

(** X17: with the cron scheduler, a second [install] on an agent gives the
    crontab no second block. When the install location holds no line boundary
    and the text that [add_schedule] hands to [echo] is one that [echo] passes
    unchanged inside double quotes, and a session of [install] completes and
    then another one on the machine that it left, at whatever time and with
    whatever secrets, then after the first session the crontab is the lines
    that [remove_schedule] keeps followed by the marker line and the job
    line, and the second session leaves that crontab as it is. Nothing is said
    of the files, which the second session writes again. *)
Theorem install_again_keeps_crontab (w1 w2 : World) (agent_name : string)
    (agent_data : AgentConfig) (skip_first skip_second : bool)
    (machine machine1 machine2 : Machine) (evs1 evs2 : list event) :
  default "cron" (scheduler agent_data) = "cron" ->
  break_free (get_install_location agent_data) = true ->
  let cleared :=
    rstrip (unlines (kept false (splitlines (Schedule.crontab (cron machine))))) +:+ nl in
  let added := cleared +:+ marker_line +:+ nl +:+ Schedule.cron_command agent_data in
  Schedule.echo_literal added = true ->
  install_session w1 skip_first agent_name agent_data machine []
  = Some (Value tt, machine1, evs1) ->
  install_session w2 skip_second agent_name agent_data machine1 []
  = Some (Value tt, machine2, evs2) ->
  Schedule.crontab (cron machine1) = added +:+ nl
  /\ cron machine2 = cron machine1.
Proof.
  intros Hkind Hloc cleared added Hlit
    (_ & _ & _ & _ & _ & _ & _ & _ & _ & _ & _ & Hfirst)%install_session_cases
    (_ & _ & _ & _ & _ & _ & _ & _ & _ & _ & _ & Hsecond)%install_session_cases.
  destruct Hfirst as [(_ & r1 & r2 & Hremove & Hadd & ->)|[Hsystemd _]];
    [|rewrite Hkind in Hsystemd; discriminate].
  destruct Hsecond as [(_ & r1' & r2' & Hremove' & Hadd' & ->)|[Hsystemd _]];
    [|rewrite Hkind in Hsystemd; discriminate].
  cbn [cron with_cron] in *. split.
  - apply remove_schedule_inv in Hremove as (_ & _ & ->).
    by apply add_schedule_inv in Hadd as (_ & _ & ->).
  - rewrite (remove_after_add_on_cleared _ _ _ _ Hloc Hremove Hadd) in Hremove'.
    injection Hremove' as <-. rewrite Hadd in Hadd'. by injection Hadd' as <-.
Qed.

End InstallAgain.

Section SessionWitnesses.

Import Str Install Trace.

Lemma install_key_error_before_upload_witness :
  install_session Sample.world false "web" Lookup.unbound healthy []
  = Some (Raised (KeyError "FIRST"), healthy,
          [Log (Connected "web" "192.0.2.10" "22" "root");
           Exec "install -d /opt/multi-restic -m 700";
           Exec "restic version";
           Exec "/opt/multi-restic/restic version"])
  /\ GenerateScript.generate_env_files Sample.world Lookup.unbound
     = GenerateScript.KeyError "FIRST"
  /\ Exec ("install -d " +:+ get_install_location Lookup.unbound +:+ " -m 700")
     ∈ [Log (Connected "web" "192.0.2.10" "22" "root");
        Exec "install -d /opt/multi-restic -m 700";
        Exec "restic version";
        Exec "/opt/multi-restic/restic version"]
  /\ sftp_ops [Log (Connected "web" "192.0.2.10" "22" "root");
               Exec "install -d /opt/multi-restic -m 700";
               Exec "restic version";
               Exec "/opt/multi-restic/restic version"] = []
  /\ healthy = healthy.
Proof.
  refine ((fun H => conj H
             (install_key_error_before_upload Sample.world "web" Lookup.unbound
                false healthy healthy _ "FIRST" H)) _).
  vm_compute. reflexivity.
Defined.

Lemma install_failed_backup_keeps_schedule_witness :
  exists evs',
    install_session Sample.world false "web" Sample.a1 failing_backup []
    = Some (Return, failing_backup, evs')
    /\ false = false
    /\ fails failing_backup (get_install_location Sample.a1 +:+ "/backup.sh") = true
    /\ failing_backup = failing_backup
    /\ exists env_files,
         GenerateScript.generate_env_files Sample.world Sample.a1
         = GenerateScript.Ok env_files
         /\ sftp_ops evs' = uploads Sample.world Sample.a1 env_files.
Proof.
  eexists.
  refine ((fun H => conj H
             (install_failed_backup_keeps_schedule Sample.world "web" Sample.a1
                false failing_backup failing_backup _ H)) _).
  vm_compute. reflexivity.
Defined.

Lemma install_completed_uploads_witness :
  exists evs',
    install_session Sample.world false "web" Sample.a1 healthy []
    = Some (Value tt, healthy, evs')
    /\ exists env_files,
         GenerateScript.generate_env_files Sample.world Sample.a1
         = GenerateScript.Ok env_files
         /\ sftp_ops evs'
            = uploads Sample.world Sample.a1 env_files ++ unit_files Sample.a1.
Proof.
  eexists.
  refine ((fun H => conj H
             (install_completed_uploads Sample.world "web" Sample.a1
                false healthy healthy _ H)) _).
  vm_compute. reflexivity.
Defined.

Lemma install_warns_restic_missing_witness :
  install_session Sample.world false "web" Sample.a1 bare []
  = Some (Break, bare,
          [Log (Connected "web" "192.0.2.10" "22" "root");
           Exec "install -d /opt/multi-restic -m 700";
           Exec "restic version";
           Exec "/opt/multi-restic/restic version";
           Log (ResticMissing "/opt/multi-restic");
           Exec (join " && " (download_commands "/opt/multi-restic"));
           Log ResticDownloadFailed;
           Log (ErrorText EmptyString);
           Log (ErrorText "not found")])
  /\ (Log (ResticMissing (get_install_location Sample.a1))
      ∈ [Log (Connected "web" "192.0.2.10" "22" "root");
         Exec "install -d /opt/multi-restic -m 700";
         Exec "restic version";
         Exec "/opt/multi-restic/restic version";
         Log (ResticMissing "/opt/multi-restic");
         Exec (join " && " (download_commands "/opt/multi-restic"));
         Log ResticDownloadFailed;
         Log (ErrorText EmptyString);
         Log (ErrorText "not found")]
      <-> succeeds bare ("install -d " +:+ get_install_location Sample.a1 +:+ " -m 700")
          && fails bare "restic version"
          && fails bare (get_install_location Sample.a1 +:+ "/restic version") = true).
Proof.
  refine ((fun H => conj H
             (install_warns_restic_missing Sample.world "web" Sample.a1
                false bare bare _ Break H)) _).
  vm_compute. reflexivity.
Defined.

Lemma install_unknown_scheduler_fails_late_witness :
  exists evs',
    default "cron" (scheduler misconfigured) <> "cron"
    /\ default "cron" (scheduler misconfigured) <> "systemd"
    /\ install_session Sample.world false "web" misconfigured healthy []
       = Some (Raised (ValueError "Unknown scheduler type: anacron"), healthy, evs')
    /\ Raised (ValueError "Unknown scheduler type: anacron") <> Value tt
    /\ (forall message,
          @Raised unit (ValueError "Unknown scheduler type: anacron")
          = Raised (ValueError message) ->
          healthy = healthy
          /\ exists env_files,
               GenerateScript.generate_env_files Sample.world misconfigured
               = GenerateScript.Ok env_files
               /\ sftp_ops evs' = uploads Sample.world misconfigured env_files).
Proof.
  assert (H1 : default "cron" (scheduler misconfigured) <> "cron") by discriminate.
  assert (H2 : default "cron" (scheduler misconfigured) <> "systemd") by discriminate.
  eexists.
  refine ((fun H => conj H1 (conj H2 (conj H
             (install_unknown_scheduler_fails_late Sample.world "web" misconfigured
                false healthy healthy _ _ H1 H2 H)))) _).
  vm_compute. reflexivity.
Defined.

Lemma install_again_keeps_crontab_witness :
  exists evs1 evs2,
    default "cron" (scheduler Sample.a1) = "cron"
    /\ Crontab.break_free (get_install_location Sample.a1) = true
    /\ Schedule.echo_literal
         ((rstrip (unlines (Crontab.kept false
                              (splitlines (Schedule.crontab (cron obliging))))) +:+ nl)
          +:+ Crontab.marker_line +:+ nl +:+ Schedule.cron_command Sample.a1) = true
    /\ install_session Sample.world false "web" Sample.a1 obliging []
       = Some (Value tt, with_cron obliging (Crontab.host Crontab.managed), evs1)
    /\ install_session next_day true "web" Sample.a1
         (with_cron obliging (Crontab.host Crontab.managed)) []
       = Some (Value tt, with_cron obliging (Crontab.host Crontab.managed), evs2)
    /\ Schedule.crontab (cron (with_cron obliging (Crontab.host Crontab.managed)))
       = ((rstrip (unlines (Crontab.kept false
                              (splitlines (Schedule.crontab (cron obliging))))) +:+ nl)
          +:+ Crontab.marker_line +:+ nl +:+ Schedule.cron_command Sample.a1) +:+ nl
    /\ cron (with_cron obliging (Crontab.host Crontab.managed))
       = cron (with_cron obliging (Crontab.host Crontab.managed)).
Proof.
  assert (H1 : { evs1 | install_session Sample.world false "web" Sample.a1 obliging []
                        = Some (Value tt,
                                with_cron obliging (Crontab.host Crontab.managed), evs1) })
    by (eexists; vm_compute; reflexivity).
  assert (H2 : { evs2 | install_session next_day true "web" Sample.a1
                          (with_cron obliging (Crontab.host Crontab.managed)) []
                        = Some (Value tt,
                                with_cron obliging (Crontab.host Crontab.managed), evs2) })
    by (eexists; vm_compute; reflexivity).
  destruct H1 as [evs1 H1], H2 as [evs2 H2]. exists evs1, evs2.
  assert (H0 : Schedule.echo_literal
                 ((rstrip (unlines (Crontab.kept false
                                      (splitlines (Schedule.crontab (cron obliging)))))
                   +:+ nl)
                  +:+ Crontab.marker_line +:+ nl +:+ Schedule.cron_command Sample.a1)
               = true)
    by (vm_compute; reflexivity).
  exact (conj eq_refl (conj eq_refl (conj H0 (conj H1 (conj H2
           (install_again_keeps_crontab Sample.world next_day "web" Sample.a1
              false true obliging _ _ evs1 evs2 eq_refl eq_refl H0 H1 H2)))))).
Defined.

Lemma install_stops_at_first_failure_witness :
  exists run,
    install Sample.world (connect_to bare) [("web", Sample.a1)] [] false = Some run
    /\ ended run <> Completed
    /\ install Sample.world (connect_to bare)
         ([("web", Sample.a1)] ++ [("db", Sample.a1)]) [] false
       = Some run.
Proof.
  assert (H1 : { run | install Sample.world (connect_to bare) [("web", Sample.a1)] [] false
                       = Some run /\ ended run = Stopped })
    by (eexists; split; vm_compute; reflexivity).
  destruct H1 as [run [H1 H2]]. exists run.
  assert (H3 : ended run <> Completed) by (rewrite H2; discriminate).
  exact (conj H1 (conj H3
           (install_stops_at_first_failure Sample.world (connect_to bare)
              [("web", Sample.a1)] [("db", Sample.a1)] [] false run H1 H3))).
Defined.

Lemma install_skips_unnamed_agents_witness :
  exists run,
    install Sample.world (connect_to healthy)
      [("db", unreachable); ("web", Sample.a1)] ["web"] true = Some run
    /\ ["web"] <> nil
    /\ ("db" ∉ ["web"])
    /\ (forall e, ("db", e) ∈ events run -> e = Log (Skipping "db"))
    /\ "db" ∉ (machines run).*1.
Proof.
  assert (H1 : { run | install Sample.world (connect_to healthy)
                         [("db", unreachable); ("web", Sample.a1)] ["web"] true
                       = Some run })
    by (eexists; vm_compute; reflexivity).
  destruct H1 as [run H1]. exists run.
  assert (H2 : ["web"] <> @nil string) by discriminate.
  assert (H3 : "db" ∉ ["web"])
    by (intros H; apply list_elem_of_singleton in H; discriminate).
  exact (conj H1 (conj H2 (conj H3
           (install_skips_unnamed_agents Sample.world (connect_to healthy)
              [("db", unreachable); ("web", Sample.a1)] ["web"] true run "db"
              H1 H2 H3)))).
Defined.

End SessionWitnesses.

(** ** [ssh_agent] and the files of [install] *)

Section SshTheorems.

Import Str Install Trace.

Lemma items_lookup (agent : AgentConfig) (env_files : gmap string string)
    (name content : string) :
  name ∈ (repositories agent).*1 ->
  env_files !! name = Some content ->
  (name, content) ∈ items agent env_files.
Proof.
  intros Hname Hcontent. unfold items. apply list_elem_of_fmap in Hname as ([n repo] & -> & Hel).
  apply list_elem_of_omap. exists (n, repo). split; [exact Hel|].
  cbn [fst] in *. by rewrite Hcontent.
Qed.

Lemma elem_of_concat_map {A B} (f : A -> list B) (l : list A) (x : A) (y : B) :
  x ∈ l -> y ∈ f x -> y ∈ concat (map f l).
Proof.
  intros Hx Hy. induction l as [|a l IH]; [by apply elem_of_nil in Hx|].
  cbn [map concat]. rewrite elem_of_app.
  apply elem_of_cons in Hx as [<-|Hx]; [by left|right; by apply IH].
Qed.

Lemma uploads_item (w : World) (agent : AgentConfig) (env_files : gmap string string)
    (name content : string) :
  (name, content) ∈ items agent env_files ->
  let path := env_remote_path (get_install_location agent) name in
  Write path content ∈ uploads w agent env_files
  /\ Chmod path 384 ∈ uploads w agent env_files.
Proof.
  intros Hitem path. unfold uploads. rewrite !elem_of_app.
  split; left; apply (elem_of_concat_map _ _ _ _ Hitem).
  - apply list_elem_of_here.
  - apply list_elem_of_further, list_elem_of_here.
Qed.

(** X18: when [ssh_agent] is given a repository and hands a command to the
    system, the repository is one of the agent, and the file that the command
    sources is the secret file that a completed [install] wrote for that
    repository and set to mode [0o600], holding the text that
    [generate_env_files] made for it. *)
Theorem ssh_agent_sources_uploaded_file (w : World)
    (configured : list (string * AgentConfig)) (agent_name repository shell : string)
    (command : list string) (agent_data : AgentConfig) (full : string)
    (env_files : gmap string string) :
  Ssh.get agent_name configured = Some agent_data ->
  repository <> EmptyString ->
  Ssh.system (Ssh.ssh_agent configured agent_name (Some repository) command shell)
  = Some full ->
  GenerateScript.generate_env_files w agent_data = GenerateScript.Ok env_files ->
  exists content,
    let path := env_remote_path (get_install_location agent_data) repository in
    env_files !! repository = Some content
    /\ contains ("source " +:+ path) full = true
    /\ Write path content ∈ uploads w agent_data env_files
    /\ Chmod path 384 ∈ uploads w agent_data env_files.
Proof.
  intros Hget Hrepo Hsystem Hgen. unfold Ssh.ssh_agent in Hsystem. rewrite Hget in Hsystem.
  destruct repository as [|c repository]; [done|]. cbn [truthy_str] in Hsystem.
  change (default EmptyString (Some (String c repository)))
    with (String c repository) in Hsystem.
  destruct (bool_decide _) eqn:Hin; [|discriminate]. apply bool_decide_eq_true in Hin.
  injection Hsystem as <-.
  assert (Hsome : is_Some (env_files !! String c repository)).
  { unfold GenerateScript.generate_env_files in Hgen.
    apply (env_files_loop_dom _ _ _ _ Hgen). by right. }
  destruct Hsome as [content Hcontent]. exists content. cbv zeta.
  split; [exact Hcontent|]. split.
  - set (install_location := get_install_location agent_data).
    set (path := env_remote_path install_location (String c repository)).
    assert (E : Ssh.full_command agent_data shell
                  (["export PATH=" +:+ install_location +:+ ":$PATH";
                    "cd " +:+ backup_root agent_data]
                   ++ ["source " +:+ install_location +:+ "/.env." +:+ String c repository])
                = ("ssh " +:+ default "root" (ssh_user agent_data) +:+ "@" +:+ ip agent_data
                   +:+ " -p " +:+ default "22" (ssh_port agent_data)
                   +:+ " -t " +:+ shell +:+ " -c '"
                   +:+ "export PATH=" +:+ install_location +:+ ":$PATH" +:+ "; "
                   +:+ "cd " +:+ backup_root agent_data +:+ "; ")
                  +:+ ("source " +:+ path) +:+ ("; " +:+ shell +:+ " -i'")).
    { unfold Ssh.full_command, path, env_remote_path. cbn [app join].
      by rewrite !append_assoc. }
    cbn [app] in E. rewrite E. apply contains_app.
  - apply uploads_item. by apply items_lookup.
Qed.

Lemma ssh_agent_sources_uploaded_file_witness :
  Ssh.get "web" [("web", Sample.a1)] = Some Sample.a1
  /\ "r1" <> EmptyString
  /\ Ssh.system (Ssh.ssh_agent [("web", Sample.a1)] "web" (Some "r1") [] "/bin/bash")
     = Some ("ssh root@192.0.2.10 -p 22 -t /bin/bash -c "
             +:+ "'export PATH=/opt/multi-restic:$PATH; cd /srv; "
             +:+ "source /opt/multi-restic/.env.r1; /bin/bash -i'")
  /\ exists env_files,
       GenerateScript.generate_env_files Sample.world Sample.a1
       = GenerateScript.Ok env_files
       /\ exists content,
            let path := env_remote_path (get_install_location Sample.a1) "r1" in
            env_files !! "r1" = Some content
            /\ contains ("source " +:+ path)
                 ("ssh root@192.0.2.10 -p 22 -t /bin/bash -c "
                  +:+ "'export PATH=/opt/multi-restic:$PATH; cd /srv; "
                  +:+ "source /opt/multi-restic/.env.r1; /bin/bash -i'") = true
            /\ Write path content ∈ uploads Sample.world Sample.a1 env_files
            /\ Chmod path 384 ∈ uploads Sample.world Sample.a1 env_files.
Proof.
  assert (H1 : Ssh.get "web" [("web", Sample.a1)] = Some Sample.a1) by reflexivity.
  assert (H2 : "r1" <> EmptyString) by discriminate.
  assert (H3 : Ssh.system (Ssh.ssh_agent [("web", Sample.a1)] "web" (Some "r1") []
                             "/bin/bash")
               = Some ("ssh root@192.0.2.10 -p 22 -t /bin/bash -c "
                       +:+ "'export PATH=/opt/multi-restic:$PATH; cd /srv; "
                       +:+ "source /opt/multi-restic/.env.r1; /bin/bash -i'"))
    by (vm_compute; reflexivity).
  assert (H4 : { env_files | GenerateScript.generate_env_files Sample.world Sample.a1
                             = GenerateScript.Ok env_files })
    by (eexists; vm_compute; reflexivity).
  destruct H4 as [env_files H4].
  split; [exact H1|]. split; [exact H2|]. split; [exact H3|].
  exists env_files. split; [exact H4|].
  exact (ssh_agent_sources_uploaded_file Sample.world [("web", Sample.a1)] "web" "r1"
           "/bin/bash" [] Sample.a1 _ env_files H1 H2 H3 H4).
Defined.

End SshTheorems.

(** ** The worker of [download_snapshot] *)

Section DownloadLoop.

Import Str Download.

Lemma chunk_size_pos : (0 < chunk_size)%nat.
Proof. unfold chunk_size. lia. Qed.

Lemma worker_progress_app (evs1 evs2 : list event) :
  progress (evs1 ++ evs2) = (progress evs1 + progress evs2)%nat.
Proof.
  induction evs1 as [|e evs1 IH]; [reflexivity|].
  cbn [app]. unfold progress in *. cbn [foldr]. destruct e; rewrite IH; lia.
Qed.

Lemma worker_commands_app (evs1 evs2 : list event) :
  commands (evs1 ++ evs2) = commands evs1 ++ commands evs2.
Proof. apply omap_app. Qed.

(** When the loop ends, the local file holds what it held followed by all
    that was left of the remote file, the other files are as they were, and
    the progress bar has advanced by the number of bytes. *)
Lemma copy_loop_result (fuel : nat) (path : string) (left old : list Byte.byte)
    (local local' : Local) (evs evs' : list event) :
  copy_loop fuel path left local evs = Some (local', evs') ->
  files local !! path = Some old ->
  local' = with_files local (<[path := old ++ left]> (files local))
  /\ exists added,
       evs' = evs ++ added
       /\ progress added = length left
       /\ commands added = []
       /\ totals added = [].
Proof.
  revert left old local evs.
  induction fuel as [|fuel IH]; intros left old local evs; [discriminate|].
  cbn [copy_loop]. unfold read. intros Hloop Hold.
  destruct (take chunk_size left) as [|b data] eqn:Htake.
  - injection Hloop as <- <-.
    assert (left = []) as ->.
    { destruct left as [|b left]; [reflexivity|].
      pose proof chunk_size_pos. destruct chunk_size; [lia|discriminate]. }
    rewrite app_nil_r, insert_id by exact Hold. split; [by destruct local|].
    exists []. by rewrite app_nil_r.
  - apply (IH _ (old ++ b :: data)) in Hloop as (-> & added & -> & Hprogress & Hcommands & Htotal).
    2:{ unfold write, with_files. cbn [files]. rewrite lookup_alter_eq, Hold. reflexivity. }
    split.
    + unfold write, with_files. cbn [files opens]. f_equal.
      rewrite <- (assoc_L (++)), <- Htake, take_drop.
      rewrite <- (insert_id (files local) path old) at 1 by exact Hold.
      rewrite alter_insert_eq, insert_insert_eq. reflexivity.
    + exists (Progress (length (b :: data)) :: added). split; [by rewrite <- (assoc_L (++))|].
      split; [|split; [exact Hcommands|exact Htotal]].
      change (progress (Progress (length (b :: data)) :: added))
        with (length (b :: data) + progress added)%nat.
      rewrite Hprogress, <- Htake, <- length_app, take_drop. reflexivity.
Qed.

(** The loop ends within as many turns as the file has bytes, and one
    more. *)
Lemma copy_loop_ends (fuel : nat) (path : string) (left : list Byte.byte)
    (local : Local) (evs : list event) :
  (length left < fuel)%nat -> is_Some (copy_loop fuel path left local evs).
Proof.
  revert left local evs. induction fuel as [|fuel IH]; intros left local evs Hfuel; [lia|].
  cbn [copy_loop]. unfold read.
  destruct (take chunk_size left) as [|b data] eqn:Htake; [done|].
  apply IH. rewrite length_drop.
  assert (length left <> 0)%nat by (destruct left; [by rewrite take_nil in Htake|done]).
  pose proof chunk_size_pos. lia.
Qed.

End DownloadLoop.

Section DownloadTheorems.

Import Str Download.

Variable connect_ssh : AgentConfig -> option Agent.
Variable agent_name repository destination : string.
Variable agent_data : AgentConfig.
Variable snapshot_id : string.

(** X19: a worker of [download_snapshot] finishes only when both the restore
    command and the compression exited with status 0; the local file then
    holds exactly the bytes of the archive on the agent, whatever its size and
    whatever the file held before, no other local file has changed, and the
    updates of the progress bar add up to the total it was given. *)
Theorem export_finished_holds_archive (fuel : nat) (local local' : Local)
    (evs : list event) :
  export fuel connect_ssh agent_name repository destination agent_data snapshot_id local
  = Some (Finished, local', evs) ->
  let restore :=
    join " && " (restore_commands (get_install_location agent_data) repository snapshot_id) in
  let path := local_path destination agent_name repository snapshot_id in
  exists agent content,
    connect_ssh agent_data = Some agent
    /\ exits_zero agent restore = true
    /\ exits_zero agent (compress_command snapshot_id) = true
    /\ remote_files agent (remote_path snapshot_id) = Some content
    /\ local' = with_files local (<[path := content]> (files local))
    /\ commands evs = [restore; compress_command snapshot_id]
    /\ totals evs = [length content]
    /\ progress evs = length content.
Proof.
  intros Hexport restore path. unfold export in Hexport. fold restore path in Hexport.
  destruct (connect_ssh agent_data) as [agent|]; [|discriminate].
  exists agent. unfold exits_zero.
  destruct (answers agent restore) as [s0 o0 e0|]; [|discriminate].
  destruct (s0 =? 0)%Z; [|discriminate]. cbn [negb] in Hexport.
  destruct (answers agent (compress_command snapshot_id)) as [s1 o1 e1|]; [|discriminate].
  destruct (s1 =? 0)%Z; [|discriminate]. cbn [negb] in Hexport.
  destruct (remote_files agent (remote_path snapshot_id)) as [content|]; [|discriminate].
  exists content. destruct (opens local path); [|discriminate].
  destruct (copy_loop _ _ _ _ _) as [[l e]|] eqn:Hloop; [|discriminate].
  injection Hexport as <- <-.
  apply (copy_loop_result _ _ _ []) in Hloop
    as (-> & added & -> & Hprogress & Hcommands & Htotals);
    [|cbn [files with_files]; apply lookup_insert_eq].
  repeat (split; [reflexivity|]). split.
  { unfold with_files. cbn [files opens app]. by rewrite insert_insert_eq. }
  rewrite worker_commands_app, worker_progress_app, Hcommands, Hprogress.
  unfold totals. rewrite omap_app. fold (totals added). rewrite Htotals. done.
Qed.

(** X20: on an agent where both commands exit with status 0 and the archive
    can be read, and when the local file can be opened, the worker finishes
    the download within as many turns of its loop as the archive has bytes,
    and one more. *)
Theorem export_finishes (fuel : nat) (local : Local) (agent : Agent)
    (content : list Byte.byte) :
  let restore :=
    join " && " (restore_commands (get_install_location agent_data) repository snapshot_id) in
  let path := local_path destination agent_name repository snapshot_id in
  connect_ssh agent_data = Some agent ->
  exits_zero agent restore = true ->
  exits_zero agent (compress_command snapshot_id) = true ->
  remote_files agent (remote_path snapshot_id) = Some content ->
  opens local path = true ->
  (length content < fuel)%nat ->
  exists local' evs,
    export fuel connect_ssh agent_name repository destination agent_data snapshot_id local
    = Some (Finished, local', evs).
Proof.
  intros restore path Hconnect Hrestore Hcompress Hremote Hopens Hfuel.
  unfold export. fold restore path. rewrite Hconnect. unfold exits_zero in *.
  destruct (answers agent restore) as [s0 o0 e0|]; [|discriminate].
  rewrite Hrestore. cbn [negb].
  destruct (answers agent (compress_command snapshot_id)) as [s1 o1 e1|]; [|discriminate].
  rewrite Hcompress. cbn [negb]. rewrite Hremote, Hopens.
  match goal with
  | |- context [copy_loop ?f ?p ?c ?l ?e] =>
      destruct (copy_loop_ends f p c l e Hfuel) as [[l' e'] ->]
  end.
  by exists l', e'.
Qed.

(** X21: a worker that fails before the transfer touches no local file.
    When no connection is made, or the restore command or the compression
    does not exit with status 0, or the archive is not there to be read, or
    the local file cannot be opened, the worker ends without a download
    whatever the number of turns allowed: the local files are as they were,
    no progress bar was made or advanced, and when the restore command did not
    exit with status 0 no other command was sent. *)
Theorem export_early_failure_keeps_local_files (fuel : nat) (local : Local) :
  let restore :=
    join " && " (restore_commands (get_install_location agent_data) repository snapshot_id) in
  let path := local_path destination agent_name repository snapshot_id in
  (forall agent, connect_ssh agent_data = Some agent ->
     exits_zero agent restore = false
     \/ exits_zero agent (compress_command snapshot_id) = false
     \/ remote_files agent (remote_path snapshot_id) = None
     \/ opens local path = false) ->
  exists e evs,
    export fuel connect_ssh agent_name repository destination agent_data snapshot_id local
    = Some (e, local, evs)
    /\ e <> Finished
    /\ totals evs = []
    /\ progress evs = 0%nat
    /\ (forall agent, connect_ssh agent_data = Some agent ->
          exits_zero agent restore = false -> commands evs = [restore]).
Proof.
  intros restore path Hcause. unfold export. fold restore path.
  destruct (connect_ssh agent_data) as [agent|].
  2:{ eexists _, _. split; [reflexivity|]. split; [discriminate|].
      split; [reflexivity|]. split; [reflexivity|]. intros agent [=]. }
  specialize (Hcause agent eq_refl). unfold exits_zero in *.
  destruct (answers agent restore) as [s0 o0 e0|] eqn:Ha.
  2:{ eexists _, _. split; [reflexivity|]. split; [discriminate|].
      split; [reflexivity|]. split; [reflexivity|]. by intros a [= <-] _. }
  destruct (s0 =? 0)%Z eqn:Hz; cbn [negb].
  2:{ eexists _, _. split; [reflexivity|]. split; [discriminate|].
      split; [reflexivity|]. split; [reflexivity|]. by intros a [= <-] _. }
  assert (Hlast : forall evs : list event,
            (forall a, Some agent = Some a ->
               match answers a restore with
               | Install.Exit status _ _ => (status =? 0)%Z
               | Install.Raise => false
               end = false -> commands evs = [restore]) ).
  { intros evs a [= <-] H. rewrite Ha, Hz in H. discriminate. }
  destruct Hcause as [H|Hcause]; [discriminate|].
  destruct (answers agent (compress_command snapshot_id)) as [s1 o1 e1|].
  2:{ eexists _, _. split; [reflexivity|]. split; [discriminate|].
      split; [reflexivity|]. split; [reflexivity|]. by apply Hlast. }
  destruct (s1 =? 0)%Z; cbn [negb].
  2:{ eexists _, _. split; [reflexivity|]. split; [discriminate|].
      split; [reflexivity|]. split; [reflexivity|]. by apply Hlast. }
  destruct Hcause as [H|[Hremote|Hopens]]; [discriminate| |].
  - rewrite Hremote. eexists _, _. split; [reflexivity|]. split; [discriminate|].
    split; [reflexivity|]. split; [reflexivity|]. by apply Hlast.
  - destruct (remote_files agent (remote_path snapshot_id)) as [content|].
    + rewrite Hopens. eexists _, _. split; [reflexivity|]. split; [discriminate|].
      split; [reflexivity|]. split; [reflexivity|]. by apply Hlast.
    + eexists _, _. split; [reflexivity|]. split; [discriminate|].
      split; [reflexivity|]. split; [reflexivity|]. by apply Hlast.
Qed.

End DownloadTheorems.

Section DownloadWitnesses.

Import Str Download.

Lemma export_finished_holds_archive_witness :
  exists evs,
    export 3 (fun _ => Some ready) "web" "r1" "." Sample.a1 "4f2a" desk
    = Some (Finished,
            with_files desk (<["./web-r1-4f2a.tar.gz" := archive]> (files desk)), evs)
    /\ let restore :=
         join " && " (restore_commands (get_install_location Sample.a1) "r1" "4f2a") in
       let path := local_path "." "web" "r1" "4f2a" in
       exists agent content,
         Some ready = Some agent
         /\ exits_zero agent restore = true
         /\ exits_zero agent (compress_command "4f2a") = true
         /\ remote_files agent (remote_path "4f2a") = Some content
         /\ with_files desk (<["./web-r1-4f2a.tar.gz" := archive]> (files desk))
            = with_files desk (<[path := content]> (files desk))
         /\ commands evs = [restore; compress_command "4f2a"]
         /\ totals evs = [length content]
         /\ progress evs = length content.
Proof.
  assert (H : { evs | export 3 (fun _ => Some ready) "web" "r1" "." Sample.a1 "4f2a" desk
                      = Some (Finished,
                              with_files desk
                                (<["./web-r1-4f2a.tar.gz" := archive]> (files desk)),
                              evs) })
    by (eexists; vm_compute; reflexivity).
  destruct H as [evs H]. exists evs. split; [exact H|].
  exact (export_finished_holds_archive (fun _ => Some ready) "web" "r1" "." Sample.a1
           "4f2a" 3 desk _ evs H).
Defined.

Lemma export_finishes_witness :
  Some ready = Some ready
  /\ exits_zero ready
       (join " && " (restore_commands (get_install_location Sample.a1) "r1" "4f2a")) = true
  /\ exits_zero ready (compress_command "4f2a") = true
  /\ remote_files ready (remote_path "4f2a") = Some archive
  /\ opens desk (local_path "." "web" "r1" "4f2a") = true
  /\ (length archive < 3)%nat
  /\ exists local' evs,
       export 3 (fun _ => Some ready) "web" "r1" "." Sample.a1 "4f2a" desk
       = Some (Finished, local', evs).
Proof.
  assert (H6 : (length archive < 3)%nat) by (cbn; lia).
  repeat (split; [first [reflexivity | exact H6]|]).
  exact (export_finishes (fun _ => Some ready) "web" "r1" "." Sample.a1 "4f2a" 3 desk
           ready archive eq_refl eq_refl eq_refl eq_refl eq_refl H6).
Defined.

Lemma export_early_failure_keeps_local_files_witness :
  exits_zero broken
    (join " && " (restore_commands (get_install_location Sample.a1) "r1" "4f2a")) = false
  /\ exists e evs,
       export 3 (fun _ => Some broken) "web" "r1" "." Sample.a1 "4f2a" desk
       = Some (e, desk, evs)
       /\ e <> Finished
       /\ totals evs = []
       /\ progress evs = 0%nat
       /\ (forall agent, Some broken = Some agent ->
             exits_zero agent
               (join " && " (restore_commands (get_install_location Sample.a1) "r1" "4f2a"))
             = false ->
             commands evs
             = [join " && " (restore_commands (get_install_location Sample.a1) "r1" "4f2a")]).
Proof.
  assert (H : exits_zero broken
                (join " && " (restore_commands (get_install_location Sample.a1) "r1" "4f2a"))
              = false) by reflexivity.
  split; [exact H|].
  apply (export_early_failure_keeps_local_files (fun _ => Some broken) "web" "r1" "."
           Sample.a1 "4f2a" 3 desk).
  intros agent [= <-]. left. exact H.
Defined.

End DownloadWitnesses.

(** ** The script and the files that [install] uploads *)

Section ScriptAndUploads.

Import Str GenerateScript Install Trace.

Lemma startswith_inv (n s : string) :
  startswith n s = true -> exists b, s = n +:+ b.
Proof.
  revert s. induction n as [|c n IH]; intros s H.
  - exists s. by rewrite append_nil_l.
  - destruct s as [|d s]; [discriminate|]. cbn [startswith] in H.
    apply andb_true_iff in H as [Hc Hn]. apply Ascii.eqb_eq in Hc as ->.
    destruct (IH _ Hn) as [b ->]. exists b. by rewrite append_cons.
Qed.

Lemma contains_inv (n s : string) :
  contains n s = true -> exists a b, s = a +:+ n +:+ b.
Proof.
  induction s as [|c s IH]; cbn [contains]; intros H.
  - rewrite orb_false_r in H. destruct (startswith_inv _ _ H) as [b Hb].
    exists EmptyString, b. by rewrite append_nil_l.
  - apply orb_true_iff in H as [H|H].
    + destruct (startswith_inv _ _ H) as [b Hb]. exists EmptyString, b.
      by rewrite append_nil_l.
    + destruct (IH H) as (a & b & ->). exists (String c a), b. by rewrite append_cons.
Qed.

Lemma contains_inside (n a x b : string) :
  contains n x = true -> contains n (a +:+ x +:+ b) = true.
Proof.
  intros (a' & b' & ->)%contains_inv.
  replace (a +:+ (a' +:+ n +:+ b') +:+ b) with ((a +:+ a') +:+ n +:+ (b' +:+ b))
    by (by rewrite !append_assoc).
  apply contains_app.
Qed.

Lemma contains_join (n x : string) (l : list string) :
  x ∈ l -> contains n x = true -> contains n (join EmptyString l) = true.
Proof.
  intros Hx Hn. induction l as [|y l IH]; [by apply elem_of_nil in Hx|].
  assert (Hjoin : join EmptyString (y :: l) = y +:+ join EmptyString l).
  { destruct l; cbn [join]; by rewrite ?append_nil_r, ?append_nil_l. }
  rewrite Hjoin. apply elem_of_cons in Hx as [<-|Hx].
  - rewrite <- (append_nil_l (x +:+ _)). by apply contains_inside.
  - rewrite <- (append_nil_r (join _ _)). rewrite <- (append_nil_r (y +:+ _)).
    rewrite append_assoc. apply contains_inside. rewrite append_nil_r. by apply IH.
Qed.

(** X22: the script that [install] uploads and the secret files that it
    uploads fit together: for every repository of the agent the script holds
    the line that sources [<install_location>/.env.<name>], and [install]
    writes that very file, with the text that [generate_env_files] made for
    the repository, sets it to mode [0o600], and writes the script to
    [<install_location>/backup.sh]. *)
Theorem script_sources_uploaded_files (w : World) (agent : AgentConfig)
    (env_files : gmap string string) (name : string) (repo : RepositoryConfig) :
  GenerateScript.generate_env_files w agent = Ok env_files ->
  (name, repo) ∈ repositories agent ->
  exists content,
    let path := env_remote_path (get_install_location agent) name in
    env_files !! name = Some content
    /\ contains ("source " +:+ path +:+ nl) (generate_script w agent) = true
    /\ Write path content ∈ uploads w agent env_files
    /\ Chmod path 384 ∈ uploads w agent env_files
    /\ Write (get_install_location agent +:+ "/backup.sh") (generate_script w agent)
       ∈ uploads w agent env_files.
Proof.
  intros Hgen Hrepo.
  assert (Hname : name ∈ (repositories agent).*1).
  { apply list_elem_of_fmap. by exists (name, repo). }
  assert (Hsome : is_Some (env_files !! name)).
  { unfold GenerateScript.generate_env_files in Hgen.
    apply (env_files_loop_dom _ _ _ _ Hgen). by right. }
  destruct Hsome as [content Hcontent]. exists content. cbv zeta.
  split; [exact Hcontent|]. split; [|split; [|split]].
  - unfold generate_script.
    replace ("#!/bin/bash -e" +:+ nl +:+
             "# Generated on " +:+ now_isoformat w +:+ " by multi-restic" +:+ nl +:+
             nl +:+
             "export PATH=" +:+ get_install_location agent +:+ ":$PATH" +:+ nl +:+
             "cd " +:+ backup_root agent +:+ nl +:+
             nl +:+
             "# Pre-backup commands" +:+ nl +:+
             joined_commands (pre_command agent) +:+ nl +:+
             nl +:+
             repository_scripts agent +:+ nl +:+
             "# Post-backup commands" +:+ nl +:+
             joined_commands (post_command agent) +:+ nl)
      with (("#!/bin/bash -e" +:+ nl +:+
             "# Generated on " +:+ now_isoformat w +:+ " by multi-restic" +:+ nl +:+
             nl +:+
             "export PATH=" +:+ get_install_location agent +:+ ":$PATH" +:+ nl +:+
             "cd " +:+ backup_root agent +:+ nl +:+
             nl +:+
             "# Pre-backup commands" +:+ nl +:+
             joined_commands (pre_command agent) +:+ nl +:+
             nl) +:+
            repository_scripts agent +:+
            (nl +:+ "# Post-backup commands" +:+ nl +:+
             joined_commands (post_command agent) +:+ nl))
      by (by rewrite !append_assoc).
    apply contains_inside. unfold repository_scripts.
    apply (contains_join _ (generate_repository_script agent name repo)).
    + apply list_elem_of_fmap. by exists (name, repo).
    + assert (exists b, generate_repository_script agent name repo
                        = start_marker name
                          +:+ ("source " +:+ env_remote_path (get_install_location agent) name
                               +:+ nl)
                          +:+ b) as [b ->].
      { unfold generate_repository_script, source_step, env_remote_path.
        destruct (truthy_str (forget_arguments repo)); eexists;
          rewrite !append_assoc; reflexivity. }
      apply contains_app.
  - by apply (uploads_item w agent env_files name content), items_lookup.
  - by apply (uploads_item w agent env_files name content), items_lookup.
  - unfold uploads. rewrite elem_of_app. right. apply list_elem_of_here.
Qed.

Lemma script_sources_uploaded_files_witness :
  exists env_files,
    GenerateScript.generate_env_files Sample.world Sample.a1 = Ok env_files
    /\ ("r2", Sample.r2) ∈ repositories Sample.a1
    /\ exists content,
         let path := env_remote_path (get_install_location Sample.a1) "r2" in
         env_files !! "r2" = Some content
         /\ contains ("source " +:+ path +:+ nl)
              (generate_script Sample.world Sample.a1) = true
         /\ Write path content ∈ uploads Sample.world Sample.a1 env_files
         /\ Chmod path 384 ∈ uploads Sample.world Sample.a1 env_files
         /\ Write (get_install_location Sample.a1 +:+ "/backup.sh")
              (generate_script Sample.world Sample.a1)
            ∈ uploads Sample.world Sample.a1 env_files.
Proof.
  assert (H1 : { env_files | GenerateScript.generate_env_files Sample.world Sample.a1
                             = Ok env_files })
    by (eexists; vm_compute; reflexivity).
  destruct H1 as [env_files H1]. exists env_files.
  assert (H2 : ("r2", Sample.r2) ∈ repositories Sample.a1)
    by (apply list_elem_of_further, list_elem_of_here).
  split; [exact H1|]. split; [exact H2|].
  exact (script_sources_uploaded_files Sample.world Sample.a1 env_files "r2" Sample.r2
           H1 H2).
Defined.

End ScriptAndUploads.

Section Systemd.

Import Str Install Trace.

(** X23: every file that the systemd scheduler's [add_schedule] writes is
    deleted by a command of its [remove_schedule], and [add_schedule] sends
    its command only after both unit files have been written. *)
Theorem systemd_remove_deletes_unit_files (agent : AgentConfig)
    (machine machine' : Machine) (evs' : list event) (s : step unit) :
  systemd_add_schedule agent machine [] = Some (s, machine', evs') ->
  (forall path content, Write path content ∈ evs' ->
     "rm -f " +:+ path ∈ systemd_remove_commands (get_install_location agent))
  /\ (forall command, Exec command ∈ evs' ->
        exists rest,
          evs' = Write (service_file_path (get_install_location agent))
                   (unit_file_content (get_install_location agent))
                 :: Write (timer_file_path (get_install_location agent)) timer_file_content
                 :: Exec command :: rest).
Proof.
  unfold systemd_add_schedule, bind, sftp_write, exec_command, log, raise, ret.
  destruct (sftp_opens machine (service_file_path _)); cbv beta iota;
    [destruct (sftp_opens machine (timer_file_path _)); cbv beta iota;
     [destruct (answers machine _) as [status out err|]; cbv beta iota;
      [destruct (status =? 0)%Z; cbn [negb]; cbv beta iota|]
     |]
    |].
  all: intros [= <- <- <-]; cbn [app]; split.
  all: try (intros path content Hin; unfold systemd_remove_commands;
            rewrite !elem_of_cons, elem_of_nil in Hin;
            destruct Hin as [[= <- _]|[[= <- _]|Hin]];
            [apply list_elem_of_further, list_elem_of_here
            |apply list_elem_of_further, list_elem_of_further, list_elem_of_here
            |intuition discriminate]).
  all: try (intros command Hin; rewrite !elem_of_cons, elem_of_nil in Hin;
            destruct Hin as [[=]|[[=]|[[= <-]|Hin]]]; [eauto|intuition discriminate]).
  all: try (intros path content Hin; rewrite ?elem_of_cons, elem_of_nil in Hin;
            unfold systemd_remove_commands;
            first [ destruct Hin as [[= <- _]|[]];
                    apply list_elem_of_further, list_elem_of_here
                  | destruct Hin ]).
  all: try (intros command Hin; rewrite ?elem_of_cons, elem_of_nil in Hin;
            intuition discriminate).
Qed.

End Systemd.

Section SystemdWitness.

Import Str Install Trace.

Lemma systemd_remove_deletes_unit_files_witness :
  exists evs',
    systemd_add_schedule Sample.a1 obliging [] = Some (Value tt, obliging, evs')
    /\ (forall path content, Write path content ∈ evs' ->
          "rm -f " +:+ path ∈ systemd_remove_commands (get_install_location Sample.a1))
    /\ (forall command, Exec command ∈ evs' ->
          exists rest,
            evs' = Write (service_file_path (get_install_location Sample.a1))
                     (unit_file_content (get_install_location Sample.a1))
                   :: Write (timer_file_path (get_install_location Sample.a1))
                        timer_file_content
                   :: Exec command :: rest).
Proof.
  assert (H : { evs' | systemd_add_schedule Sample.a1 obliging []
                       = Some (Value tt, obliging, evs') })
    by (eexists; vm_compute; reflexivity).
  destruct H as [evs' H]. exists evs'. split; [exact H|].
  exact (systemd_remove_deletes_unit_files Sample.a1 obliging obliging evs' (Value tt) H).
Defined.

End SystemdWitness.
